(** * quiz-backend: the room and question state machine of [server.js]

    The repository holds four snapshots of the same socket.io server:
    - [src/server.js], lines 1-246, the auto-advance version: rooms with a
      host and a player cap, questions driven by the server's own timers
      (flow [AutoAdvance]);
    - [src/server.js], lines 247-501, the host-paced version: the same
      handlers, but each question is started by a [next-question] event and
      the quiz ends itself after the last question (flow [HostPaced]);
    - [src/unnamed/part_000] and [src/unnamed/part_001]: two earlier
      snapshots without host or cap; [part_001] scores the correct answers
      after the first one with a different formula (module [Part001]).

    Conventions of the embedding:
    - strings are sequences of code units below 256; [trim] and
      [toLowerCase] are exact on that range;
    - [Date.now()] is the field [clock] of the world, in milliseconds;
    - scores and time limits are integers, the score arithmetic is carried
      out exactly over the rationals (the source uses IEEE doubles, so the
      two agree whenever rounding does not cross an integer);
    - a zero [timeLimit] stands for a missing or zero limit (both falsy);
    - room codes are ordinary keys (not names of [Object.prototype]
      members), enumerated in insertion order. *)

From Stdlib Require Import ZArith QArith Qround Lqa String Ascii List Sorted Lia.
From stdpp Require Import base decidable option list gmap strings.
Import ListNotations.

Local Open Scope string_scope.
Local Open Scope list_scope.
Local Open Scope Z_scope.

(** ** JavaScript string and array primitives used by the handlers *)

Module Js.

(** [String.prototype.trim] strips WhiteSpace and LineTerminator code
    points; below 256 these are TAB, LF, VT, FF, CR, SP and NBSP. *)
Definition isWhiteSpace (c : ascii) : bool :=
  let n := nat_of_ascii c in
  ((n =? 9) || (n =? 10) || (n =? 11) || (n =? 12) || (n =? 13)
   || (n =? 32) || (n =? 160))%nat.

Fixpoint trimStart (s : string) : string :=
  match s with
  | EmptyString => EmptyString
  | String c s' => if isWhiteSpace c then trimStart s' else s
  end.

Fixpoint trimEnd (s : string) : string :=
  match s with
  | EmptyString => EmptyString
  | String c s' =>
      match trimEnd s' with
      | EmptyString => if isWhiteSpace c then EmptyString else String c EmptyString
      | t => String c t
      end
  end.

Definition trim (s : string) : string := trimEnd (trimStart s).

(** [String.prototype.toLowerCase] below 256: A-Z and the Latin-1 capitals
    U+00C0..U+00DE (without the multiplication sign U+00D7) move up by 32. *)
Definition lowerChar (c : ascii) : ascii :=
  let n := nat_of_ascii c in
  if ((65 <=? n) && (n <=? 90))%nat then ascii_of_nat (n + 32)
  else if ((192 <=? n) && (n <=? 222) && negb (n =? 215))%nat
       then ascii_of_nat (n + 32)
       else c.

Fixpoint toLowerCase (s : string) : string :=
  match s with
  | EmptyString => EmptyString
  | String c s' => String (lowerChar c) (toLowerCase s')
  end.

(** [a || b] on strings: the empty string is falsy. *)
Definition orElse (a b : string) : string :=
  if String.eqb a "" then b else a.

End Js.

(** ** Data *)

Definition SocketId := string.
Definition RoomCode := string.
Definition TimerId := nat.
Definition RoomRef := nat.
Bind Scope nat_scope with TimerId RoomRef.

(** A player object [{ id, name, score }].  [p_obj] is the identity of the
    JavaScript object (it is not a property and is never sent): arrays made
    by [filter], spread and [sort] share the objects they hold. *)
Record Player := mkPlayer {
  p_obj : nat;
  p_id : SocketId;
  p_name : string;
  p_score : Z
}.

(** A question as the host sends it; [correct] may be missing. *)
Record RawQuestion := mkRaw {
  raw_text : string;
  raw_options : list string;
  raw_correct : option string;
  raw_timeLimit : Z
}.

(** A question as stored by [send-multiple-questions]. *)
Record Question := mkQuestion {
  text : string;
  options : list string;
  correct : string;
  timeLimit : Z
}.

Record Room := mkRoom {
  hostId : SocketId;
  players : list Player;
  questions : list Question;
  currentIndex : nat;
  answeredPlayers : gset SocketId;
  timer : option TimerId;
  countdownInterval : option TimerId;
  quizStarted : bool;
  maxPlayers : Z;
  questionStartTime : Z;
  firstCorrectAnswered : bool
}.

Module Msg.
(** The events the server emits, with their payloads. *)
Inductive t :=
| room_created (roomCode : RoomCode)
| room_error (message : string)
| room_full (message : string)
| lobby_update (ps : list Player) (maxPlayers : Z)
| quiz_started
| question (q : Question)
| time_left (timeLeft : Z)
| question_locked
| all_answered (correct : string)
| question_ended
| leaderboard (sorted : list Player)
| final_leaderboard (sorted : list Player)
| quiz_end
| kicked
| answer_result (score : Z).
End Msg.

(** What a handler does to the transport. *)
Inductive Effect :=
| SocketEmit (to : SocketId) (m : Msg.t)      (* socket.emit(...) *)
| RoomEmit (channel : string) (m : Msg.t)     (* io.to(channel).emit(...) *)
| SocketJoin (s : SocketId) (channel : RoomCode). (* socket.join(roomCode) *)

(** The callbacks handed to [setTimeout] and [setInterval].  A closure that
    captured the local [room] holds the object itself, not the code. *)
Inductive Task :=
| CountdownTick (roomCode : RoomCode) (room : RoomRef) (timeLeft : Z)
| Deadline (roomCode : RoomCode) (room : RoomRef) (q : Question)
| EndQuestion (roomCode : RoomCode)
| NextQuestion (roomCode : RoomCode)
| FinalBoard (roomCode : RoomCode) (sorted : list Player).

Record Timer := mkTimer {
  t_id : TimerId;
  t_due : Z;
  t_task : Task
}.

Record World := mkWorld {
  rooms : list (RoomCode * RoomRef);  (* the object [rooms], keys in order *)
  heap : list Room;                   (* the room objects *)
  sockets : gset SocketId;            (* io.sockets.sockets *)
  timers : list Timer;                (* pending timeouts and intervals *)
  nextTimer : TimerId;
  nextObj : nat;
  clock : Z                           (* Date.now() *)
}.

Inductive Flow := AutoAdvance | HostPaced.

(** ** Field updates, the registry, the object heap and the timer queue *)

Definition set_players (ps : list Player) (r : Room) : Room :=
  mkRoom (hostId r) ps (questions r) (currentIndex r) (answeredPlayers r)
         (timer r) (countdownInterval r) (quizStarted r) (maxPlayers r)
         (questionStartTime r) (firstCorrectAnswered r).

Definition set_questions (qs : list Question) (r : Room) : Room :=
  mkRoom (hostId r) (players r) qs (currentIndex r) (answeredPlayers r)
         (timer r) (countdownInterval r) (quizStarted r) (maxPlayers r)
         (questionStartTime r) (firstCorrectAnswered r).

Definition set_currentIndex (i : nat) (r : Room) : Room :=
  mkRoom (hostId r) (players r) (questions r) i (answeredPlayers r)
         (timer r) (countdownInterval r) (quizStarted r) (maxPlayers r)
         (questionStartTime r) (firstCorrectAnswered r).

Definition set_answeredPlayers (s : gset SocketId) (r : Room) : Room :=
  mkRoom (hostId r) (players r) (questions r) (currentIndex r) s
         (timer r) (countdownInterval r) (quizStarted r) (maxPlayers r)
         (questionStartTime r) (firstCorrectAnswered r).

Definition set_timer (h : option TimerId) (r : Room) : Room :=
  mkRoom (hostId r) (players r) (questions r) (currentIndex r)
         (answeredPlayers r) h (countdownInterval r) (quizStarted r)
         (maxPlayers r) (questionStartTime r) (firstCorrectAnswered r).

Definition set_countdownInterval (h : option TimerId) (r : Room) : Room :=
  mkRoom (hostId r) (players r) (questions r) (currentIndex r)
         (answeredPlayers r) (timer r) h (quizStarted r) (maxPlayers r)
         (questionStartTime r) (firstCorrectAnswered r).

Definition set_quizStarted (b : bool) (r : Room) : Room :=
  mkRoom (hostId r) (players r) (questions r) (currentIndex r)
         (answeredPlayers r) (timer r) (countdownInterval r) b (maxPlayers r)
         (questionStartTime r) (firstCorrectAnswered r).

Definition set_questionStartTime (t : Z) (r : Room) : Room :=
  mkRoom (hostId r) (players r) (questions r) (currentIndex r)
         (answeredPlayers r) (timer r) (countdownInterval r) (quizStarted r)
         (maxPlayers r) t (firstCorrectAnswered r).

Definition set_firstCorrectAnswered (b : bool) (r : Room) : Room :=
  mkRoom (hostId r) (players r) (questions r) (currentIndex r)
         (answeredPlayers r) (timer r) (countdownInterval r) (quizStarted r)
         (maxPlayers r) (questionStartTime r) b.

Definition set_rooms (rs : list (RoomCode * RoomRef)) (w : World) : World :=
  mkWorld rs (heap w) (sockets w) (timers w) (nextTimer w) (nextObj w) (clock w).

Definition set_heap (h : list Room) (w : World) : World :=
  mkWorld (rooms w) h (sockets w) (timers w) (nextTimer w) (nextObj w) (clock w).

Definition set_sockets (s : gset SocketId) (w : World) : World :=
  mkWorld (rooms w) (heap w) s (timers w) (nextTimer w) (nextObj w) (clock w).

Definition set_timers (ts : list Timer) (w : World) : World :=
  mkWorld (rooms w) (heap w) (sockets w) ts (nextTimer w) (nextObj w) (clock w).

Definition set_clock (t : Z) (w : World) : World :=
  mkWorld (rooms w) (heap w) (sockets w) (timers w) (nextTimer w) (nextObj w) t.

(** [rooms[roomCode]] as a reference. *)
Fixpoint registryGet (roomCode : RoomCode) (rs : list (RoomCode * RoomRef))
  : option RoomRef :=
  match rs with
  | [] => None
  | (c, ref) :: rs' =>
      if String.eqb c roomCode then Some ref else registryGet roomCode rs'
  end.

(** [delete rooms[roomCode]] *)
Definition registryDelete (roomCode : RoomCode) (rs : list (RoomCode * RoomRef))
  : list (RoomCode * RoomRef) :=
  filter (λ e, e.1 ≠ roomCode) rs.

(** [const room = rooms[roomCode]]: the reference and the object behind it. *)
Definition getRoom (w : World) (roomCode : RoomCode) : option (RoomRef * Room) :=
  ref ← registryGet roomCode (rooms w);
  room ← heap w !! ref;
  Some (ref, room).

(** A write through a reference to a room object. *)
Definition putRoom (ref : RoomRef) (room : Room) (w : World) : World :=
  set_heap (<[ref := room]> (heap w)) w.

(** [setTimeout(task, delay)] and [setInterval(task, delay)]: a fresh handle,
    first due [delay] milliseconds from now. *)
Definition setTimer (task : Task) (delay : Z) (w : World) : TimerId * World :=
  (nextTimer w,
   mkWorld (rooms w) (heap w) (sockets w)
           (timers w ++ [mkTimer (nextTimer w) (clock w + delay) task])
           (S (nextTimer w)) (nextObj w) (clock w)).

(** [clearTimeout(h)] and [clearInterval(h)]; a null or spent handle is
    ignored. *)
Definition clearTimer (h : option TimerId) (w : World) : World :=
  match h with
  | None => w
  | Some tid => set_timers (filter (λ t, t_id t ≠ tid) (timers w)) w
  end.

(** [[...ps].sort((a, b) => b.score - a.score)]: a stable sort, descending
    by score. *)
Fixpoint insertByScore (p : Player) (sorted : list Player) : list Player :=
  match sorted with
  | [] => [p]
  | q :: rest =>
      if p_score q <=? p_score p then p :: q :: rest
      else q :: insertByScore p rest
  end.

Fixpoint sortByScore (ps : list Player) : list Player :=
  match ps with
  | [] => []
  | p :: rest => insertByScore p (sortByScore rest)
  end.

(** [player.score += score] writes to the object: every array that holds the
    object sees the new score. *)
Definition addScore (obj : nat) (pts : Z) (ps : list Player) : list Player :=
  map (λ p, if Nat.eqb (p_obj p) obj
            then mkPlayer (p_obj p) (p_id p) (p_name p) (p_score p + pts)
            else p) ps.

Definition addScoreInTask (obj : nat) (pts : Z) (t : Timer) : Timer :=
  match t_task t with
  | FinalBoard code sorted =>
      mkTimer (t_id t) (t_due t) (FinalBoard code (addScore obj pts sorted))
  | _ => t
  end.

(** [ps.find(p => p.id === sid)] *)
Definition findPlayer (sid : SocketId) (ps : list Player) : option Player :=
  find (λ p, String.eqb (p_id p) sid) ps.

(** ** The handlers of [server.js]

    Every handler takes the world and returns the new world with what it
    emitted, in order.  Where the two versions of [server.js] differ, the
    handler branches on [flow]. *)

Module Ev.
(** The events a client sends, with their payloads. *)
Inductive t :=
| create_room (roomCode : RoomCode) (maxPlayers : option Z)
| join_room (name : string) (roomCode : RoomCode)
| send_multiple_questions (roomCode : RoomCode) (questions : list RawQuestion)
| start_quiz (roomCode : RoomCode)
| next_question (roomCode : RoomCode)
| answer (option : string) (roomCode : RoomCode)
| kick_player (roomCode : RoomCode) (playerId : SocketId)
| end_quiz (roomCode : RoomCode).
End Ev.

(** The object literal of [create-room].  Until a question starts,
    [questionStartTime] is null (host-paced version) or missing (auto-advance
    version); only the score computation reads it.  It is 0 here, the value
    [null] takes in [now - null]; with the field missing the source computes
    NaN for a correct answer sent before any question has started, which is
    outside this embedding. *)
Definition newRoom (sid : SocketId) (requested : option Z) : Room :=
  {| hostId := sid;
     players := [];
     questions := [];
     currentIndex := 0%nat;
     answeredPlayers := ∅;
     timer := None;
     countdownInterval := None;
     quizStarted := false;
     maxPlayers := match requested with
                   | Some m => if m =? 0 then 10 else m
                   | None => 10
                   end;
     questionStartTime := 0;
     firstCorrectAnswered := false |}.

Definition create_room (sid : SocketId) (roomCode : RoomCode)
    (requested : option Z) (w : World) : World * list Effect :=
  let w' :=
    match registryGet roomCode (rooms w) with
    | Some _ => w
    | None =>
        mkWorld (rooms w ++ [(roomCode, length (heap w))])
                (heap w ++ [newRoom sid requested])
                (sockets w) (timers w) (nextTimer w) (nextObj w) (clock w)
    end in
  (w', [SocketJoin sid roomCode; SocketEmit sid (Msg.room_created roomCode)]).

Definition sameName (a b : string) : bool :=
  String.eqb (Js.trim (Js.toLowerCase a)) (Js.trim (Js.toLowerCase b)).

Definition join_room (sid : SocketId) (name : string) (roomCode : RoomCode)
    (w : World) : World * list Effect :=
  match getRoom w roomCode with
  | None => (w, [SocketEmit sid (Msg.room_error "Room does not exist.")])
  | Some (ref, room) =>
      if String.eqb sid (hostId room) then (w, []) else
      let live := filter (λ p, p_id p ∈ sockets w) (players room) in
      let w1 := putRoom ref (set_players live room) w in
      if maxPlayers room <=? Z.of_nat (length live) then
        (w1, [SocketEmit sid (Msg.room_full "Room is full.")])
      else if existsb (λ p, sameName (p_name p) name) live then
        (w1, [SocketEmit sid (Msg.room_error "Name already taken.")])
      else
        let newPlayer := mkPlayer (nextObj w) sid name 0 in
        let roster := live ++ [newPlayer] in
        (mkWorld (rooms w) (<[ref := set_players roster room]> (heap w))
                 (sockets w) (timers w) (nextTimer w) (S (nextObj w)) (clock w),
         [SocketJoin sid roomCode;
          RoomEmit roomCode (Msg.lobby_update roster (maxPlayers room))])
  end.

(** [{ ...q, correct: q.correct?.trim() || 'N/A' }] *)
Definition ingest (q : RawQuestion) : Question :=
  mkQuestion (raw_text q) (raw_options q)
    (Js.orElse (match raw_correct q with
                | Some c => Js.trim c
                | None => ""
                end) "N/A")
    (raw_timeLimit q).

Definition send_multiple_questions (roomCode : RoomCode)
    (qs : list RawQuestion) (w : World) : World * list Effect :=
  match getRoom w roomCode with
  | None => (w, [])
  | Some (ref, room) =>
      (putRoom ref (set_currentIndex 0 (set_questions (map ingest qs) room)) w, [])
  end.

(** [option.trim().toLowerCase() === question.correct.trim().toLowerCase()] *)
Definition isCorrect (option : string) (question : Question) : bool :=
  String.eqb (Js.toLowerCase (Js.trim option))
             (Js.toLowerCase (Js.trim (correct question))).

(** The score of a correct answer received at [now].  With a zero
    [timeLimit] the source divides by zero and the award is not finite; the
    statements about awards below assume a positive limit. *)
Definition points (room : Room) (question : Question) (now : Z) : Z :=
  let timeTaken := (inject_Z (now - questionStartTime room) / 1000)%Q in
  let timeLeft := (inject_Z (timeLimit question) - timeTaken)%Q in
  if firstCorrectAnswered room
  then Qfloor (500 + (timeLeft / inject_Z (timeLimit question)) * 500)%Q
  else 1000.

(** [setTimeout(() => endCurrentQuestion(roomCode), 2500)] after the reveal;
    the host-paced version announces [question-locked] first. *)
Definition reveal (flow : Flow) (roomCode : RoomCode) (shown : string)
    (w : World) : World * list Effect :=
  let (_, w') := setTimer (EndQuestion roomCode) 2500 w in
  (w', match flow with
       | AutoAdvance => []
       | HostPaced => [RoomEmit roomCode Msg.question_locked]
       end ++ [RoomEmit roomCode (Msg.all_answered shown)]).

Definition answer (flow : Flow) (sid : SocketId) (option : string)
    (roomCode : RoomCode) (w : World) : World * list Effect :=
  match getRoom w roomCode with
  | None => (w, [])
  | Some (ref, room) =>
      match findPlayer sid (players room), questions room !! currentIndex room with
      | Some player, Some question =>
          if decide (sid ∈ answeredPlayers room) then (w, []) else
          let room1 := set_answeredPlayers ({[sid]} ∪ answeredPlayers room) room in
          let score := points room question (clock w) in
          let room2 :=
            if isCorrect option question
            then set_firstCorrectAnswered true
                   (set_players (addScore (p_obj player) score (players room1)) room1)
            else room1 in
          let w1 :=
            if isCorrect option question
            then set_timers (map (addScoreInTask (p_obj player) score) (timers w)) w
            else w in
          let w2 := putRoom ref room2 w1 in
          if Nat.eqb (size (answeredPlayers room2)) (length (players room2)) then
            reveal flow roomCode (correct question)
                   (clearTimer (countdownInterval room2) (clearTimer (timer room2) w2))
          else (w2, [])
      | _, _ => (w, [])
      end
  end.

(** One turn of the [for (const roomCode in rooms)] loop of [disconnect]. *)
Definition leaveRoom (sid : SocketId) (acc : World * list Effect)
    (roomCode : RoomCode) : World * list Effect :=
  let (w, effs) := acc in
  match getRoom w roomCode with
  | None => acc
  | Some (ref, room) =>
      if String.eqb (hostId room) sid
      then (set_rooms (registryDelete roomCode (rooms w)) w, effs)
      else
        match findPlayer sid (players room) with
        | Some _ =>
            let ps := filter (λ p, p_id p ≠ sid) (players room) in
            (putRoom ref
               (set_answeredPlayers (answeredPlayers room ∖ {[sid]})
                  (set_players ps room)) w,
             effs ++ [RoomEmit roomCode (Msg.lobby_update ps (maxPlayers room))])
        | None => acc
        end
  end.

Definition disconnect (sid : SocketId) (w : World) : World * list Effect :=
  fold_left (leaveRoom sid) (map fst (rooms w)) (w, []).

(** The connection [sid] goes away: it leaves [io.sockets.sockets] and its
    [disconnect] handler runs. *)
Definition dropSocket (sid : SocketId) (w : World) : World * list Effect :=
  disconnect sid (set_sockets (sockets w ∖ {[sid]}) w).

Definition kick_player (roomCode : RoomCode) (playerId : SocketId)
    (w : World) : World * list Effect :=
  match getRoom w roomCode with
  | None => (w, [])
  | Some (ref, room) =>
      let ps := filter (λ p, p_id p ≠ playerId) (players room) in
      let w1 := putRoom ref (set_players ps room) w in
      let effs := [RoomEmit roomCode (Msg.lobby_update ps (maxPlayers room));
                   RoomEmit playerId Msg.kicked] in
      (* io.sockets.sockets.get(playerId)?.disconnect(true) *)
      if decide (playerId ∈ sockets w)
      then let (w2, effs2) := dropSocket playerId w1 in (w2, effs ++ effs2)
      else (w1, effs)
  end.

Definition end_quiz (flow : Flow) (roomCode : RoomCode) (w : World)
  : World * list Effect :=
  match getRoom w roomCode with
  | None => (w, [])
  | Some (ref, room) =>
      let w1 := clearTimer (countdownInterval room) (clearTimer (timer room) w) in
      let board := match flow with
                   | AutoAdvance => take 5 (sortByScore (players room))
                   | HostPaced => sortByScore (players room)
                   end in
      (set_rooms (registryDelete roomCode (rooms w1)) w1,
       [RoomEmit roomCode (Msg.final_leaderboard board);
        RoomEmit roomCode Msg.quiz_end])
  end.

(** The part shared by [startNextQuestion] (auto-advance version) and the
    [next-question] handler (host-paced version): reset the per-question
    state, send the question, arm the countdown and the deadline. *)
Definition beginQuestion (roomCode : RoomCode) (ref : RoomRef) (room : Room)
    (question : Question) (w : World) : World * list Effect :=
  let room1 := set_questionStartTime (clock w)
                 (set_firstCorrectAnswered false
                    (set_answeredPlayers ∅ room)) in
  let timeLeft := if timeLimit question =? 0 then 15 else timeLimit question in
  let (interval, w1) := setTimer (CountdownTick roomCode ref timeLeft) 1000 w in
  let room2 := set_countdownInterval (Some interval) room1 in
  let (timeout, w2) :=
    setTimer (Deadline roomCode ref question) (timeLeft * 1000) w1 in
  (putRoom ref (set_timer (Some timeout) room2) w2,
   [RoomEmit roomCode (Msg.question question)]).

Definition startNextQuestion (roomCode : RoomCode) (w : World)
  : World * list Effect :=
  match getRoom w roomCode with
  | None => (w, [])
  | Some (ref, room) =>
      if (length (questions room) <=? currentIndex room)%nat then
        (w, [RoomEmit roomCode
               (Msg.final_leaderboard (take 5 (sortByScore (players room))));
             RoomEmit roomCode Msg.quiz_end])
      else
        match questions room !! currentIndex room with
        | Some question => beginQuestion roomCode ref room question w
        | None => (w, [])
        end
  end.

Definition start_quiz (flow : Flow) (roomCode : RoomCode) (w : World)
  : World * list Effect :=
  match getRoom w roomCode with
  | None => (w, [])
  | Some (ref, room) =>
      let w1 := putRoom ref (set_quizStarted true room) w in
      match flow with
      | AutoAdvance => startNextQuestion roomCode w1
      | HostPaced => (w1, [RoomEmit roomCode Msg.quiz_started])
      end
  end.

(** Only the host-paced version registers [next-question]. *)
Definition next_question (flow : Flow) (roomCode : RoomCode) (w : World)
  : World * list Effect :=
  match flow with
  | AutoAdvance => (w, [])
  | HostPaced =>
      match getRoom w roomCode with
      | None => (w, [])
      | Some (ref, room) =>
          if negb (quizStarted room) then (w, [])
          else if (length (questions room) <=? currentIndex room)%nat then (w, [])
          else
            match questions room !! currentIndex room with
            | Some question => beginQuestion roomCode ref room question w
            | None => (w, [])
            end
      end
  end.

Definition endCurrentQuestion (flow : Flow) (roomCode : RoomCode) (w : World)
  : World * list Effect :=
  match getRoom w roomCode with
  | None => (w, [])
  | Some (ref, room) =>
      let sorted := sortByScore (players room) in
      let effs := [RoomEmit roomCode Msg.question_ended;
                   RoomEmit roomCode (Msg.leaderboard sorted)] in
      let w1 := putRoom ref (set_currentIndex (S (currentIndex room)) room) w in
      match flow with
      | AutoAdvance =>
          let (_, w2) := setTimer (NextQuestion roomCode) 5000 w1 in (w2, effs)
      | HostPaced =>
          (* isLastQuestion = currentIndex >= questions.length - 1 *)
          if (length (questions room) <=? currentIndex room + 1)%nat
          then let (_, w2) := setTimer (FinalBoard roomCode sorted) 8000 w1 in
               (w2, effs)
          else (w1, effs)
      end
  end.

(** ** Timer callbacks *)

(** [clearInterval(room.countdownInterval)] inside a closure: [room] is the
    object the closure captured. *)
Definition clearCountdownOf (ref : RoomRef) (w : World) : World :=
  match heap w !! ref with
  | Some room => clearTimer (countdownInterval room) w
  | None => w
  end.

(** The body of a callback.  [self] is the handle of the timer that runs it;
    an interval stays in the queue with its captured [timeLeft] decremented. *)
Definition runTask (flow : Flow) (self : Timer) (w : World)
  : World * list Effect :=
  match t_task self with
  | CountdownTick roomCode ref timeLeft =>
      let timeLeft' := timeLeft - 1 in
      let again := mkTimer (t_id self) (t_due self + 1000)
                           (CountdownTick roomCode ref timeLeft') in
      let w1 := set_timers
                  (map (λ t, if Nat.eqb (t_id t) (t_id self) then again else t)
                       (timers w)) w in
      (if timeLeft' <=? 0 then clearCountdownOf ref w1 else w1,
       [RoomEmit roomCode (Msg.time_left timeLeft')])
  | Deadline roomCode ref question =>
      let w1 := set_timers (filter (λ t, t_id t ≠ t_id self) (timers w)) w in
      reveal flow roomCode (Js.orElse (correct question) "N/A")
             (clearCountdownOf ref w1)
  | EndQuestion roomCode =>
      let w1 := set_timers (filter (λ t, t_id t ≠ t_id self) (timers w)) w in
      endCurrentQuestion flow roomCode w1
  | NextQuestion roomCode =>
      let w1 := set_timers (filter (λ t, t_id t ≠ t_id self) (timers w)) w in
      startNextQuestion roomCode w1
  | FinalBoard roomCode sorted =>
      let w1 := set_timers (filter (λ t, t_id t ≠ t_id self) (timers w)) w in
      (set_rooms (registryDelete roomCode (rooms w1)) w1,
       [RoomEmit roomCode (Msg.final_leaderboard sorted);
        RoomEmit roomCode Msg.quiz_end])
  end.

(** The event loop runs a pending timer once it is due. *)
Definition fire (flow : Flow) (tid : TimerId) (w : World)
  : World * list Effect :=
  match find (λ t, Nat.eqb (t_id t) tid) (timers w) with
  | Some t => if clock w <? t_due t then (w, []) else runTask flow t w
  | None => (w, [])
  end.

(** ** The server as a transition system *)

Definition handle (flow : Flow) (sid : SocketId) (ev : Ev.t) (w : World)
  : World * list Effect :=
  match ev with
  | Ev.create_room roomCode requested => create_room sid roomCode requested w
  | Ev.join_room name roomCode => join_room sid name roomCode w
  | Ev.send_multiple_questions roomCode qs => send_multiple_questions roomCode qs w
  | Ev.start_quiz roomCode => start_quiz flow roomCode w
  | Ev.next_question roomCode => next_question flow roomCode w
  | Ev.answer option roomCode => answer flow sid option roomCode w
  | Ev.kick_player roomCode playerId => kick_player roomCode playerId w
  | Ev.end_quiz roomCode => end_quiz flow roomCode w
  end.

Inductive Input :=
| Connect (sid : SocketId)               (* io.on('connection') *)
| Receive (sid : SocketId) (ev : Ev.t)   (* an event from a live socket *)
| Disconnect (sid : SocketId)            (* the transport lost the socket *)
| Elapse (ms : N)                        (* the clock moves on *)
| Fire (tid : TimerId).                  (* a due timer runs *)

Definition step (flow : Flow) (i : Input) (w : World) : World * list Effect :=
  match i with
  | Connect sid => (set_sockets ({[sid]} ∪ sockets w) w, [])
  | Receive sid ev =>
      if decide (sid ∈ sockets w) then handle flow sid ev w else (w, [])
  | Disconnect sid =>
      if decide (sid ∈ sockets w) then dropSocket sid w else (w, [])
  | Elapse ms => (set_clock (clock w + Z.of_N ms) w, [])
  | Fire tid => fire flow tid w
  end.

Fixpoint run (flow : Flow) (inputs : list Input) (w : World)
  : World * list Effect :=
  match inputs with
  | [] => (w, [])
  | i :: rest =>
      let (w1, effs1) := step flow i w in
      let (w2, effs2) := run flow rest w1 in
      (w2, effs1 ++ effs2)
  end.

(** The server right after start-up: [const rooms = {}], nobody connected. *)
Definition startup : World :=
  mkWorld [] [] ∅ [] 0%nat 0%nat 0.

(** ** The [answer] handler of [src/unnamed/part_001]

    The earliest snapshot scores a later correct answer with
    [Math.max(100, Math.floor(timeLeft * 10))], reports the score to the
    sender, and ends the question at once when everybody has answered (its
    [endCurrentQuestion] is the one of the auto-advance version).  Its rooms
    have no host and no cap (those two fields are not read here), and its
    questions are stored as sent, so the handler is modelled on questions
    that carry a [correct] option. *)

Module Part001.

Definition points (room : Room) (question : Question) (now : Z) : Z :=
  let timeTaken := (inject_Z (now - questionStartTime room) / 1000)%Q in
  let timeLeft := (inject_Z (timeLimit question) - timeTaken)%Q in
  if firstCorrectAnswered room
  then Z.max 100 (Qfloor (timeLeft * 10)%Q)
  else 1000.

Definition answer (sid : SocketId) (option : string) (roomCode : RoomCode)
    (w : World) : World * list Effect :=
  match getRoom w roomCode with
  | None => (w, [])
  | Some (ref, room) =>
      match findPlayer sid (players room), questions room !! currentIndex room with
      | Some player, Some question =>
          if decide (sid ∈ answeredPlayers room) then (w, []) else
          let room1 := set_answeredPlayers ({[sid]} ∪ answeredPlayers room) room in
          let score := if isCorrect option question
                       then points room question (clock w) else 0 in
          let room2 :=
            if isCorrect option question
            then set_firstCorrectAnswered true
                   (set_players (addScore (p_obj player) score (players room1)) room1)
            else room1 in
          let w2 := putRoom ref room2 w in
          let told := [SocketEmit sid (Msg.answer_result score)] in
          if Nat.eqb (size (answeredPlayers room2)) (length (players room2)) then
            let (w3, effs) :=
              endCurrentQuestion AutoAdvance roomCode
                (clearTimer (countdownInterval room2) (clearTimer (timer room2) w2)) in
            (w3, told ++ effs)
          else (w2, told)
      | _, _ => (w, [])
      end
  end.

End Part001.

(** ** Observations used in the statements *)

(** The score a handler reads for [sid]: that of the first roster entry with
    this identity. *)
Definition scoreOf (sid : SocketId) (ps : list Player) : option Z :=
  p_score <$> findPlayer sid ps.

(** The roster of a registered room. *)
Definition rosterOf (w : World) (roomCode : RoomCode) : option (list Player) :=
  (λ x, players x.2) <$> getRoom w roomCode.

(** The room object after an accepted submission. *)
Definition answeredRoom (sid : SocketId) (option : string) (player : Player)
    (question : Question) (now : Z) (room : Room) : Room :=
  let room1 := set_answeredPlayers ({[sid]} ∪ answeredPlayers room) room in
  if isCorrect option question
  then set_firstCorrectAnswered true
         (set_players (addScore (p_obj player) (points room question now)
                                (players room1)) room1)
  else room1.



(** The order of a leaderboard: [a] may stand before [b]. *)
Definition ranksBefore (a b : Player) : Prop := p_score b ≤ p_score a.

(** The inclusion claimed for a room: everybody recorded as having answered
    is on the roster. *)
Definition answeredWithinRoster (room : Room) : Prop :=
  ∀ sid, sid ∈ answeredPlayers room → sid ∈ map p_id (players room).

(** The room an event is addressed to. *)
Definition targetOf (ev : Ev.t) : RoomCode :=
  match ev with
  | Ev.create_room roomCode _ => roomCode
  | Ev.join_room _ roomCode => roomCode
  | Ev.send_multiple_questions roomCode _ => roomCode
  | Ev.start_quiz roomCode => roomCode
  | Ev.next_question roomCode => roomCode
  | Ev.answer _ roomCode => roomCode
  | Ev.kick_player roomCode _ => roomCode
  | Ev.end_quiz roomCode => roomCode
  end.

(** What becomes of an event addressed to a code that is not registered:
    [create-room] registers a fresh room, [join-room] is turned down with a
    message to the sender, every other event changes and emits nothing. *)
Definition unknownRoomOutcome (flow : Flow) (sender : SocketId) (ev : Ev.t)
    (w : World) : Prop :=
  match ev with
  | Ev.create_room roomCode requested =>
      getRoom (handle flow sender ev w).1 roomCode
        = Some (length (heap w), newRoom sender requested)
  | Ev.join_room _ _ =>
      handle flow sender ev w
        = (w, [SocketEmit sender (Msg.room_error "Room does not exist.")])
  | _ => handle flow sender ev w = (w, [])
  end.

(** While the loop of [disconnect] runs for a host [sid], the host's room is
    either already deleted or still registered with [sid] as its host. *)
Definition stillHosted (sid : SocketId) (roomCode : RoomCode) (ref : RoomRef)
    (acc : World * list Effect) : Prop :=
  registryGet roomCode (rooms acc.1) = None
  ∨ (registryGet roomCode (rooms acc.1) = Some ref
     ∧ hostId <$> heap acc.1 !! ref = Some sid).

(** Every question of a world was started in the past. *)
Definition startedInPast (w : World) : Prop :=
  0 ≤ clock w
  ∧ ∀ ref room, heap w !! ref = Some room → questionStartTime room ≤ clock w.

(** Every player of a registered room has a live socket. *)
Definition rostersLive (w : World) : Prop :=
  ∀ roomCode ref room p,
    registryGet roomCode (rooms w) = Some ref →
    heap w !! ref = Some room →
    p ∈ players room → p_id p ∈ sockets w.

(** The inclusion holds for every room object of a world. *)
Definition answeredWithinRosters (w : World) : Prop :=
  ∀ ref room, heap w !! ref = Some room → answeredWithinRoster room.

(** An input other than a [kick-player] event. *)
Definition notKick (i : Input) : Prop :=
  match i with
  | Receive _ (Ev.kick_player _ _) => False
  | _ => True
  end.

(** ** Scenarios

    A host ["h"] opens room ["ABCD"] for three players, ["p1"] (Ann) and
    ["p2"] (Bo) join, the host loads the questions and starts the quiz.  With
    the handlers of lines 1-246 the first question starts at once: timer 0
    is its countdown and timer 1 its deadline. *)

Definition lobby (qs : list RawQuestion) : list Input :=
  [Connect "h"; Connect "p1"; Connect "p2";
   Receive "h" (Ev.create_room "ABCD" (Some 3));
   Receive "p1" (Ev.join_room "Ann" "ABCD");
   Receive "p2" (Ev.join_room "Bo" "ABCD");
   Receive "h" (Ev.send_multiple_questions "ABCD" qs);
   Receive "h" (Ev.start_quiz "ABCD")].

(** One second passes and the countdown ticks. *)
Definition second : list Input := [Elapse 1000; Fire 0].

Fixpoint seconds (n : nat) : list Input :=
  match n with
  | O => []
  | S n' => second ++ seconds n'
  end.

Definition question_a (limit : Z) : RawQuestion :=
  mkRaw "Q1" ["a"; "b"] (Some "a") limit.

Definition question_b (limit : Z) : RawQuestion :=
  mkRaw "Q2" ["a"; "b"] (Some "b") limit.

(** The quiz is running (first question, one second in). *)
Definition quiz_running : World :=
  (run AutoAdvance (lobby [question_a 10] ++ second) startup).1.

(** Ann has answered the running question. *)
Definition ann_has_answered : World :=
  (run AutoAdvance
     (lobby [question_a 10] ++ second ++ [Receive "p1" (Ev.answer "a" "ABCD")])
     startup).1.

(** Ann has answered the running question, Bo has not, and a third socket
    has connected. *)
Definition bo_is_last : World :=
  (step AutoAdvance (Connect "p3") ann_has_answered).1.



(** Two ten-second questions; Ann answers the first after one second, nobody
    else does, and the ten seconds run out (the deadline, timer 1, is due). *)
Definition deadline_due : World :=
  (run AutoAdvance
     (lobby [question_a 10; question_b 10] ++ second
      ++ [Receive "p1" (Ev.answer "a" "ABCD")] ++ seconds 9)
     startup).1.

(** The deadline fires; one second later Bo, the last player missing, sends
    his answer; then the two pending [endCurrentQuestion] calls run. *)
Definition late_last_answer : list Input :=
  [Fire 1;
   Elapse 1000; Receive "p2" (Ev.answer "a" "ABCD");
   Elapse 1500; Fire 2;
   Elapse 1000; Fire 3].

(** One-second question; Ann answers correctly at once, the second runs out
    and the deadline fires: the correct option is revealed. *)
Definition revealed_after_one_second : World :=
  (run AutoAdvance
     (lobby [question_a 1] ++ [Receive "p1" (Ev.answer "a" "ABCD")]
      ++ second ++ [Fire 1])
     startup).1.

(** A question sent without a correct option is running. *)
Definition no_correct_option : World :=
  (run AutoAdvance (lobby [mkRaw "Q1" ["a"; "b"] None 10] ++ second) startup).1.

(** Lines 1-246, one question: deadline, reveal and leaderboard are over and
    the timer that calls [startNextQuestion] (timer 3) is due. *)
Definition no_question_left : World :=
  (run AutoAdvance
     (lobby [question_a 1] ++ second
      ++ [Fire 1; Elapse 2500; Fire 2; Elapse 5000])
     startup).1.

(** Lines 247-501, one question: the host starts the quiz and the question,
    Ann answers correctly, the deadline passes and the reveal pause is over
    (timer 2, the call of [endCurrentQuestion], is due). *)
Definition paced_last_reveal_over : World :=
  (run HostPaced
     (lobby [question_a 1] ++ [Receive "h" (Ev.next_question "ABCD");
                               Receive "p1" (Ev.answer "a" "ABCD")]
      ++ second ++ [Fire 1; Elapse 2500])
     startup).1.

(** The host has opened a room for two and nobody has joined. *)
Definition empty_room_for_two : World :=
  (run AutoAdvance
     [Connect "h"; Receive "h" (Ev.create_room "ABCD" (Some 2))] startup).1.

(** A room for two with Ann and Bo in it; a third socket is connected. *)
Definition full_room_for_two : World :=
  (run AutoAdvance
     [Connect "h"; Connect "p1"; Connect "p2"; Connect "p3";
      Receive "h" (Ev.create_room "ABCD" (Some 2));
      Receive "p1" (Ev.join_room "Ann" "ABCD");
      Receive "p2" (Ev.join_room "Bo" "ABCD")] startup).1.

(** The end-to-end scenario of the specification: two ten-second questions;
    Ann answers the first correctly after one second and Bo after six; both
    answer the second one wrongly. *)
Definition spec_scenario : list Input :=
  lobby [question_a 10; question_b 10]
  ++ second ++ [Receive "p1" (Ev.answer "a" "ABCD")]
  ++ seconds 5 ++ [Receive "p2" (Ev.answer "a" "ABCD")]
  ++ [Elapse 2500; Fire 2; Elapse 5000; Fire 3]
  ++ [Elapse 1000; Fire 4; Receive "p1" (Ev.answer "a" "ABCD");
      Elapse 1000; Fire 4; Receive "p2" (Ev.answer "A" "ABCD")]
  ++ [Elapse 2500; Fire 6; Elapse 5000; Fire 7].

(** ** Observations used for the handlers as a whole *)

(** The registry names every code once, no room object twice, and only
    objects that exist. *)
Definition registryWellFormed (w : World) : Prop :=
  NoDup (map fst (rooms w))
  ∧ NoDup (map snd (rooms w))
  ∧ ∀ e, e ∈ rooms w → (e.2 < length (heap w))%nat.

(** Every room object of [w] is still there in [w'], changed at most as [R]
    allows. *)
Definition framed (R : Room → Room → Prop) (w w' : World) : Prop :=
  ∀ ref room, heap w !! ref = Some room →
    ∃ room', heap w' !! ref = Some room' ∧ R room room'.

Definition isAnswer (i : Input) : bool :=
  match i with
  | Receive _ (Ev.answer _ _) => true
  | _ => false
  end.

Definition isLoad (i : Input) : bool :=
  match i with
  | Receive _ (Ev.send_multiple_questions _ _) => true
  | _ => false
  end.

Definition isJoin (i : Input) : bool :=
  match i with
  | Receive _ (Ev.join_room _ _) => true
  | _ => false
  end.

(** The writes of the three handlers that a statement may want to rule out:
    an accepted submission, a new question list, a new player. *)
Definition answerEdits (R : Room → Room → Prop) : Prop :=
  ∀ room sid chosen player question now,
    findPlayer sid (players room) = Some player →
    questions room !! currentIndex room = Some question →
    sid ∉ answeredPlayers room →
    R room (answeredRoom sid chosen player question now room).

Definition loadEdits (R : Room → Room → Prop) : Prop :=
  ∀ room qs, R room (set_currentIndex 0 (set_questions (map ingest qs) room)).

Definition joinEdits (R : Room → Room → Prop) : Prop :=
  ∀ room ps obj sid name,
    ps `sublist_of` players room →
    R room (set_players (ps ++ [mkPlayer obj sid name 0]) room).

Definition permits (R : Room → Room → Prop) (i : Input) : Prop :=
  (isAnswer i = true → answerEdits R)
  ∧ (isLoad i = true → loadEdits R)
  ∧ (isJoin i = true → joinEdits R).

(** The per-question state [startNextQuestion] and [next-question] write
    before they arm the timers. *)
Definition questionReset (now : Z) (interval timeout : TimerId) (room : Room)
  : Room :=
  set_timer (Some timeout)
    (set_countdownInterval (Some interval)
       (set_questionStartTime now
          (set_firstCorrectAnswered false (set_answeredPlayers ∅ room)))).

(** What [disconnect] does to a room the socket is a player of. *)
Definition withoutPlayer (sid : SocketId) (room : Room) : Room :=
  set_answeredPlayers (answeredPlayers room ∖ {[sid]})
    (set_players (filter (λ p, p_id p ≠ sid) (players room)) room).


Definition isCreate (i : Input) : bool :=
  match i with
  | Receive _ (Ev.create_room _ _) => true
  | _ => false
  end.

(** No code is registered from [w] to [w'] and no room object is made: the
    registry of [w'] is what is left of that of [w], in the same order. *)
Definition registryShrinks (w w' : World) : Prop :=
  rooms w' `sublist_of` rooms w ∧ length (heap w') = length (heap w).

(** What of a roster entry never changes. *)
Definition identityOf (p : Player) : nat * SocketId * string :=
  (p_obj p, p_id p, p_name p).

(** From [w] to [w'] nothing has changed for the rooms registered under a
    code other than [roomCode]. *)
Definition apart (roomCode : RoomCode) (w w' : World) : Prop :=
  ∀ other, other ≠ roomCode → getRoom w' other = getRoom w other.

(** An emission that goes to the socket [sid] or to the channel of the room
    [roomCode]. *)
Definition addressedTo (sid : SocketId) (roomCode : RoomCode) (e : Effect) : Prop :=
  match e with
  | SocketEmit to _ => to = sid
  | RoomEmit channel _ => channel = roomCode
  | SocketJoin s channel => s = sid ∧ channel = roomCode
  end.

(** Two rooms side by side: the lobby of ["ABCD"] with its quiz started,
    and a second host ["g"] with room ["WXYZ"] and one player. *)
Definition two_rooms : list Input :=
  lobby [question_a 10]
  ++ [Connect "g"; Connect "p3";
      Receive "g" (Ev.create_room "WXYZ" None);
      Receive "p3" (Ev.join_room "Cy" "WXYZ")].

(** What [send-multiple-questions] guarantees of a stored question: the
    correct option is not empty and has no white space around it. *)
Definition wellStored (q : Question) : Prop :=
  correct q ≠ "" ∧ Js.trim (correct q) = correct q.




(** [n] seconds, with the interval [tid] ticking after each. *)
Fixpoint ticks (tid : TimerId) (n : nat) : list Input :=
  match n with
  | O => []
  | S n' => Elapse 1000 :: Fire tid :: ticks tid n'
  end.

(** [n - 1, ..., 1, 0] *)
Fixpoint countdownFrom (n : nat) : list Z :=
  match n with
  | O => []
  | S n' => Z.of_nat n' :: countdownFrom n'
  end.


(** The first question of the scenarios has just started (auto-advance
    version, a three-second question). *)
Definition three_second_question : World :=
  (run AutoAdvance (lobby [question_a 3]) startup).1.

(** The host left while the first question was running; its deadline has
    fired all the same, and the call of [endCurrentQuestion] it scheduled
    (timer 2) is due. *)
Definition host_left_reveal_over : World :=
  (run AutoAdvance [Disconnect "h"; Elapse 9000; Fire 1; Elapse 2500]
       quiz_running).1.

(** One socket has joined the room under two names; the quiz is running. *)
Definition joined_twice : World :=
  (run AutoAdvance
     [Connect "h"; Connect "p1";
      Receive "h" (Ev.create_room "ABCD" (Some 3));
      Receive "p1" (Ev.join_room "Ann" "ABCD");
      Receive "p1" (Ev.join_room "Anna" "ABCD");
      Receive "h" (Ev.send_multiple_questions "ABCD" [question_a 10]);
      Receive "h" (Ev.start_quiz "ABCD")] startup).1.

(** ** The lobby handlers of [src/unnamed/part_001]

    The earliest snapshot keeps an [emoji] with each player, has no host and
    no cap, and its [join-room] and [disconnect] (lines 40-55 and 122-131)
    read and write the roster and [answeredPlayers] only: [rest] stands for
    the other fields of a room, which they do not touch.  The registry is
    the object [rooms] with its codes in insertion order; these two handlers
    never add or delete a code. *)

Module Part001Lobby.

(** A player object [{ id, name, emoji, score }]; [emoji] may be missing. *)
Record Player := mkPlayer {
  p_id : SocketId;
  p_name : string;
  p_emoji : option string;
  p_score : Z
}.

Inductive Effect :=
| SocketJoin (s : SocketId) (channel : RoomCode)     (* socket.join(roomCode) *)
| RoomError (to : SocketId) (message : string)       (* socket.emit('room-error', ...) *)
| LobbyUpdate (channel : RoomCode) (ps : list Player). (* io.to(roomCode).emit('lobby-update', ...) *)

Section Rooms.
Variable Rest : Type.

Record Room := mkRoom {
  players : list Player;
  answeredPlayers : gset SocketId;
  rest : Rest
}.

(** [rooms[roomCode]] *)
Fixpoint lookupRoom (roomCode : RoomCode) (rs : list (RoomCode * Room))
  : option Room :=
  match rs with
  | [] => None
  | (c, room) :: rs' =>
      if String.eqb c roomCode then Some room else lookupRoom roomCode rs'
  end.

(** A write to the room registered under [roomCode]. *)
Fixpoint updateRoom (roomCode : RoomCode) (room' : Room)
    (rs : list (RoomCode * Room)) : list (RoomCode * Room) :=
  match rs with
  | [] => []
  | (c, room) :: rs' =>
      if String.eqb c roomCode then (c, room') :: rs'
      else (c, room) :: updateRoom roomCode room' rs'
  end.

(** [room.players.push(p)] *)
Definition withPlayer (p : Player) (room : Room) : Room :=
  mkRoom (players room ++ [p]) (answeredPlayers room) (rest room).

Definition join_room (sid : SocketId) (name : string) (emoji : option string)
    (roomCode : RoomCode) (rs : list (RoomCode * Room))
  : list (RoomCode * Room) * list Effect :=
  match lookupRoom roomCode rs with
  | None => (rs, [RoomError sid "Room does not exist."])
  | Some room =>
      let room' :=
        match find (λ p, String.eqb (p_id p) sid) (players room) with
        | Some _ => room
        | None => withPlayer (mkPlayer sid name emoji 0) room
        end in
      (updateRoom roomCode room' rs,
       [SocketJoin sid roomCode; LobbyUpdate roomCode (players room')])
  end.

(** The body of the loop of [disconnect]. *)
Definition without (sid : SocketId) (room : Room) : Room :=
  mkRoom (filter (λ p, p_id p ≠ sid) (players room))
         (answeredPlayers room ∖ {[sid]}) (rest room).

Definition disconnect (sid : SocketId) (rs : list (RoomCode * Room))
  : list (RoomCode * Room) * list Effect :=
  (map (λ e, (e.1, without sid e.2)) rs,
   map (λ e, LobbyUpdate e.1 (players (without sid e.2))) rs).

End Rooms.

Arguments mkRoom {Rest}.
Arguments players {Rest}.
Arguments answeredPlayers {Rest}.
Arguments rest {Rest}.
Arguments lookupRoom {Rest}.
Arguments updateRoom {Rest}.
Arguments withPlayer {Rest}.
Arguments join_room {Rest}.
Arguments without {Rest}.
Arguments disconnect {Rest}.

End Part001Lobby.

(** Timer handles are handed out in order: every pending timer is older
    than the next handle. *)
Definition timersFresh (w : World) : Prop :=
  ∀ t, t ∈ timers w → (t_id t < nextTimer w)%nat.

(** The deadline (timer 1) of the first of two questions is due; nobody has
    answered. *)
Definition first_deadline_due : World :=
  (run AutoAdvance
     (lobby [question_a 3; question_b 10] ++ [Elapse 3000]) startup).1.

(** The same moment in the host-paced version: the host has started the
    first of two questions and its deadline (timer 1) is due. *)
Definition paced_first_deadline_due : World :=
  (run HostPaced
     (lobby [question_a 3; question_b 10]
      ++ [Receive "h" (Ev.next_question "ABCD"); Elapse 3000]) startup).1.

(** * Properties *)

(** Closed facts about the scenarios are settled by evaluation. *)
Ltac evaluated := vm_compute; first [reflexivity | discriminate | lia].
Ltac decided := apply (bool_decide_unpack _); vm_compute; exact I.
Ltac refuted H := apply (bool_decide_pack _) in H; vm_compute in H; exact H.

(** ** The scenario of the specification

    Ann gets the 1000 points of the first correct answer, Bo
    [floor(500 + (4/10) * 500) = 700]; the wrong answers to the second
    question change nothing, and the quiz ends with the final leaderboard
    Ann 1000, Bo 700. *)
Example spec_scenario_scores :
  let over := run AutoAdvance spec_scenario startup in
  rosterOf over.1 "ABCD"
    = Some [mkPlayer 0 "p1" "Ann" 1000; mkPlayer 1 "p2" "Bo" 700]
  ∧ take 2 (rev over.2)
    = [RoomEmit "ABCD" Msg.quiz_end;
       RoomEmit "ABCD" (Msg.final_leaderboard [mkPlayer 0 "p1" "Ann" 1000;
                                               mkPlayer 1 "p2" "Bo" 700])].
Proof. vm_compute. repeat split. Qed.

(** ** The registry and the heap *)

Lemma registryGet_delete_eq roomCode rs :
  registryGet roomCode (registryDelete roomCode rs) = None.
Proof.
  unfold registryDelete. induction rs as [|[c ref] rs IH]; [done|].
  rewrite filter_cons. cbn [fst]. destruct (decide (c ≠ roomCode)) as [Hne|Heq].
  - cbn [registryGet]. destruct (String.eqb_spec c roomCode); [done|exact IH].
  - exact IH.
Qed.

Lemma registryGet_delete_ne roomCode other rs :
  other ≠ roomCode →
  registryGet roomCode (registryDelete other rs) = registryGet roomCode rs.
Proof.
  intros Hne. unfold registryDelete.
  induction rs as [|[c ref] rs IH]; [done|].
  rewrite filter_cons. cbn [fst registryGet].
  destruct (decide (c ≠ other)) as [Hc|Hc].
  - cbn [registryGet]. by rewrite IH.
  - apply dec_stable in Hc. subst c.
    destruct (String.eqb_spec other roomCode); [done|exact IH].
Qed.

Lemma registryGet_In roomCode ref rs :
  registryGet roomCode rs = Some ref → In roomCode (map fst rs).
Proof.
  induction rs as [|[c r] rs IH]; [done|]. cbn [registryGet map fst].
  destruct (String.eqb_spec c roomCode); [by left|]. intros H. right. auto.
Qed.

Lemma getRoom_None w roomCode :
  registryGet roomCode (rooms w) = None → getRoom w roomCode = None.
Proof. unfold getRoom. by intros ->. Qed.

Lemma getRoom_Some w roomCode ref room :
  getRoom w roomCode = Some (ref, room) ↔
  registryGet roomCode (rooms w) = Some ref ∧ heap w !! ref = Some room.
Proof.
  unfold getRoom. split.
  - destruct (registryGet roomCode (rooms w)) as [r|]; [|done]. cbn.
    destruct (heap w !! r) as [x|] eqn:E; [|done]. cbn. intros [= <- <-]. done.
  - intros [-> H]. cbn. by rewrite H.
Qed.

Lemma getRoom_same w w' roomCode :
  rooms w' = rooms w → heap w' = heap w → getRoom w' roomCode = getRoom w roomCode.
Proof. unfold getRoom. by intros -> ->. Qed.

Lemma getRoom_putRoom w roomCode ref room room' :
  getRoom w roomCode = Some (ref, room) →
  getRoom (putRoom ref room' w) roomCode = Some (ref, room').
Proof.
  rewrite !getRoom_Some. intros [Hreg Hheap]. split; [exact Hreg|].
  cbn. apply list_lookup_insert_eq. by eapply lookup_lt_Some.
Qed.

Lemma rooms_clearTimer h w : rooms (clearTimer h w) = rooms w.
Proof. by destruct h. Qed.

Lemma heap_clearTimer h w : heap (clearTimer h w) = heap w.
Proof. by destruct h. Qed.

Lemma clock_clearTimer h w : clock (clearTimer h w) = clock w.
Proof. by destruct h. Qed.

Lemma nextTimer_clearTimer h w : nextTimer (clearTimer h w) = nextTimer w.
Proof. by destruct h. Qed.

Lemma getRoom_clearTimer h w roomCode :
  getRoom (clearTimer h w) roomCode = getRoom w roomCode.
Proof. apply getRoom_same; [apply rooms_clearTimer|apply heap_clearTimer]. Qed.

Lemma getRoom_reveal flow roomCode shown w code :
  getRoom (reveal flow roomCode shown w).1 code = getRoom w code.
Proof. done. Qed.

Lemma getRoom_set_timers ts w code :
  getRoom (set_timers ts w) code = getRoom w code.
Proof. done. Qed.


(** ** Players and scores *)

Lemma findPlayer_Some sid ps p :
  findPlayer sid ps = Some p → In p ps ∧ p_id p = sid.
Proof.
  unfold findPlayer. intros H. apply find_some in H as [Hin Heq].
  split; [done|]. by apply String.eqb_eq.
Qed.



Lemma length_addScore obj pts ps : length (addScore obj pts ps) = length ps.
Proof. unfold addScore. by rewrite length_map. Qed.

Lemma ids_addScore obj pts ps : map p_id (addScore obj pts ps) = map p_id ps.
Proof.
  unfold addScore. rewrite map_map. apply map_ext. intros p.
  by destruct (Nat.eqb (p_obj p) obj).
Qed.

(** ** The [answer] handler, step by step *)

Lemma answer_ignored flow sid option roomCode w :
  (getRoom w roomCode = None ∨
   ∃ ref room, getRoom w roomCode = Some (ref, room) ∧
     (findPlayer sid (players room) = None ∨
      questions room !! currentIndex room = None ∨
      sid ∈ answeredPlayers room)) →
  answer flow sid option roomCode w = (w, []).
Proof.
  unfold answer. intros [->|(ref & room & -> & H)]; [done|].
  destruct (findPlayer sid (players room)) as [player|]; [|done].
  destruct (questions room !! currentIndex room) as [question|]; [|done].
  destruct (decide (sid ∈ answeredPlayers room)); [done|].
  destruct H as [H|[H|H]]; done.
Qed.

Lemma answer_accepted flow sid option roomCode w ref room player question :
  getRoom w roomCode = Some (ref, room) →
  findPlayer sid (players room) = Some player →
  questions room !! currentIndex room = Some question →
  sid ∉ answeredPlayers room →
  getRoom (answer flow sid option roomCode w).1 roomCode =
    Some (ref, answeredRoom sid option player question (clock w) room)
  ∧ rooms (answer flow sid option roomCode w).1 = rooms w
  ∧ clock (answer flow sid option roomCode w).1 = clock w.
Proof.
  intros Hroom Hplayer Hq Hnew. unfold answer.
  rewrite Hroom, Hplayer, Hq. destruct (decide (sid ∈ answeredPlayers room)); [done|].
  fold (answeredRoom sid option player question (clock w) room).
  set (room2 := answeredRoom sid option player question (clock w) room).
  set (w1 := if isCorrect option question then _ else w).
  assert (Hw1 : getRoom w1 roomCode = Some (ref, room)).
  { subst w1. destruct (isCorrect option question); [|done].
    by rewrite getRoom_set_timers. }
  assert (Hr1 : rooms w1 = rooms w) by (subst w1; by destruct (isCorrect _ _)).
  assert (Hc1 : clock w1 = clock w) by (subst w1; by destruct (isCorrect _ _)).
  pose proof (getRoom_putRoom _ _ _ _ room2 Hw1) as Hput.
  destruct (Nat.eqb _ _).
  - rewrite getRoom_reveal, !getRoom_clearTimer. split; [done|].
    cbn. rewrite !rooms_clearTimer, !clock_clearTimer. done.
  - done.
Qed.










(** ** Strings *)

Lemma lowerChar_n c : Js.lowerChar c = "n"%char ↔ c = "n"%char ∨ c = "N"%char.
Proof.
  destruct c as [[] [] [] [] [] [] [] []]; vm_compute;
    (split; [intros [=]; auto | intros [[=]|[=]]; reflexivity]).
Qed.

Lemma lowerChar_a c : Js.lowerChar c = "a"%char ↔ c = "a"%char ∨ c = "A"%char.
Proof.
  destruct c as [[] [] [] [] [] [] [] []]; vm_compute;
    (split; [intros [=]; auto | intros [[=]|[=]]; reflexivity]).
Qed.

Lemma lowerChar_slash c : Js.lowerChar c = "/"%char ↔ c = "/"%char.
Proof.
  destruct c as [[] [] [] [] [] [] [] []]; vm_compute;
    (split; [intros [=]; auto | intros [=]; reflexivity]).
Qed.

Lemma toLowerCase_n_a s :
  Js.toLowerCase s = "n/a" ↔ s = "N/A" ∨ s = "N/a" ∨ s = "n/A" ∨ s = "n/a".
Proof.
  split.
  - destruct s as [|c1 [|c2 [|c3 [|c4 s]]]]; cbn; try discriminate.
    intros [= H1 H2 H3].
    apply (proj1 (lowerChar_n _)) in H1. apply (proj1 (lowerChar_slash _)) in H2.
    apply (proj1 (lowerChar_a _)) in H3.
    subst c2. destruct H1 as [-> | ->], H3 as [-> | ->]; auto.
  - intros [-> | [-> | [-> | ->]]]; reflexivity.
Qed.

(** C5 (as amended): a question loaded without a correct option is stored
    with the correct option ["N/A"], and a submitted option is judged correct
    for it exactly when, trimmed, it reads N/A in upper or lower case; every
    other option is judged incorrect. *)
Theorem C5_missing_correct_option_is_N_A :
  ∀ (text : string) (options : list string) (limit : Z),
    let question := ingest (mkRaw text options None limit) in
    correct question = "N/A"
    ∧ ∀ option : string,
        isCorrect option question = true ↔
        Js.trim option = "N/A" ∨ Js.trim option = "N/a"
        ∨ Js.trim option = "n/A" ∨ Js.trim option = "n/a".
Proof.
  intros text options limit question. split; [reflexivity|].
  intros option. unfold isCorrect. rewrite String.eqb_eq.
  change (Js.toLowerCase (Js.trim (correct question))) with "n/a".
  apply toLowerCase_n_a.
Qed.

(** Where C5 as stated fails: the question was sent without a correct
    option, Ann submits [" n/a "], the answer counts as correct and she gets
    the 1000 points of the first correct answer. *)
Lemma C5_sentinel_can_be_answered :
  let w := no_correct_option in
  let w' := (step AutoAdvance (Receive "p1" (Ev.answer " n/a " "ABCD")) w).1 in
  (heap w !! 0%nat ≫= λ room, correct <$> questions room !! currentIndex room)
    = Some "N/A"
  ∧ isCorrect " n/a " (ingest (mkRaw "Q1" ["a"; "b"] None 10)) = true
  ∧ (rosterOf w "ABCD" ≫= scoreOf "p1") = Some 0
  ∧ (rosterOf w' "ABCD" ≫= scoreOf "p1") = Some 1000.
Proof. vm_compute. repeat split. Qed.

(** ** Leaderboards *)

Lemma insertByScore_perm p l : insertByScore p l ≡ₚ p :: l.
Proof.
  induction l as [|q l IH]; [done|]. cbn.
  destruct (p_score q <=? p_score p); [done|].
  rewrite IH. apply Permutation_swap.
Qed.

Lemma sortByScore_perm l : sortByScore l ≡ₚ l.
Proof.
  induction l as [|p l IH]; [done|]. cbn.
  rewrite insertByScore_perm. by rewrite IH.
Qed.

Lemma insertByScore_sorted p l :
  Sorted ranksBefore l → Sorted ranksBefore (insertByScore p l).
Proof.
  induction 1 as [|q l Hs IH Hq]; cbn.
  - repeat constructor.
  - destruct (p_score q <=? p_score p) eqn:E.
    + constructor; [by constructor|]. constructor. unfold ranksBefore. lia.
    + constructor; [exact IH|].
      destruct l as [|q' l]; cbn.
      * constructor. unfold ranksBefore. lia.
      * destruct (p_score q' <=? p_score p); constructor.
        -- unfold ranksBefore. lia.
        -- by inversion Hq.
Qed.

Lemma sortByScore_sorted l : Sorted ranksBefore (sortByScore l).
Proof.
  induction l as [|p l IH]; cbn; [constructor|]. by apply insertByScore_sorted.
Qed.

(** ** Events for a code that is not registered *)

Lemma registryGet_app_new roomCode ref rs :
  registryGet roomCode rs = None →
  registryGet roomCode (rs ++ [(roomCode, ref)]) = Some ref.
Proof.
  induction rs as [|[c r] rs IH]; cbn.
  - by rewrite String.eqb_refl.
  - destruct (String.eqb c roomCode); [done|exact IH].
Qed.

Lemma unknown_room flow sender ev w :
  registryGet (targetOf ev) (rooms w) = None →
  unknownRoomOutcome flow sender ev w.
Proof.
  intros Hnone. pose proof (getRoom_None _ _ Hnone) as Hget.
  destruct ev; cbn in *;
    try (unfold send_multiple_questions, start_quiz, answer, kick_player, end_quiz;
         by rewrite Hget).
  - unfold create_room. rewrite Hnone. cbn [fst]. apply getRoom_Some. cbn. split.
    + by apply registryGet_app_new.
    + rewrite lookup_app_r by lia. by rewrite Nat.sub_diag.
  - unfold join_room. by rewrite Hget.
  - unfold next_question. destruct flow; [done|]. by rewrite Hget.
Qed.

(** ** The [disconnect] loop *)

Section DisconnectLoop.
Variables (sid : SocketId) (roomCode : RoomCode) (ref : RoomRef).


Lemma leaveRoom_absent acc c :
  registryGet roomCode (rooms acc.1) = None →
  registryGet roomCode (rooms (leaveRoom sid acc c).1) = None.
Proof.
  destruct acc as [w effs]. cbn [fst]. intros Hnone. unfold leaveRoom.
  destruct (getRoom w c) as [[r room]|]; [|done].
  destruct (String.eqb (hostId room) sid).
  - cbn. destruct (decide (c = roomCode)) as [->|Hne].
    + apply registryGet_delete_eq.
    + by rewrite registryGet_delete_ne.
  - by destruct (findPlayer sid (players room)).
Qed.

Lemma leaveRoom_hosted acc c : stillHosted sid roomCode ref acc →
  stillHosted sid roomCode ref (leaveRoom sid acc c).
Proof.
  intros [Hnone|[Hreg Hhost]]; [left; by apply leaveRoom_absent|].
  destruct acc as [w effs]. cbn [fst] in *. unfold leaveRoom.
  destruct (getRoom w c) as [[r room]|] eqn:Hget; [|by right].
  destruct (String.eqb_spec (hostId room) sid) as [Heq|Hne].
  - destruct (decide (c = roomCode)) as [->|Hc].
    + left. apply registryGet_delete_eq.
    + right. cbn. by rewrite registryGet_delete_ne.
  - destruct (findPlayer sid (players room)); [|by right].
    right. cbn. split; [done|].
    apply getRoom_Some in Hget as [_ Hheap].
    destruct (decide (r = ref)) as [->|Hr].
    + rewrite Hheap in Hhost. cbn in Hhost. congruence.
    + by rewrite list_lookup_insert_ne.
Qed.

Lemma leaveRoom_deletes acc :
  stillHosted sid roomCode ref acc →
  registryGet roomCode (rooms (leaveRoom sid acc roomCode).1) = None.
Proof.
  intros [Hnone|[Hreg Hhost]]; [by apply leaveRoom_absent|].
  destruct acc as [w effs]. cbn [fst] in *. unfold leaveRoom.
  destruct (heap w !! ref) as [room|] eqn:Hheap; [|done].
  assert (Hget : getRoom w roomCode = Some (ref, room)) by by apply getRoom_Some.
  rewrite Hget. cbn in Hhost. injection Hhost as ->.
  rewrite String.eqb_refl. apply registryGet_delete_eq.
Qed.

Lemma loop_absent l acc :
  registryGet roomCode (rooms acc.1) = None →
  registryGet roomCode (rooms (fold_left (leaveRoom sid) l acc).1) = None.
Proof.
  revert acc. induction l as [|c l IH]; intros acc H; [done|].
  cbn. apply IH. by apply leaveRoom_absent.
Qed.

Lemma loop_deletes l acc :
  stillHosted sid roomCode ref acc → In roomCode l →
  registryGet roomCode (rooms (fold_left (leaveRoom sid) l acc).1) = None.
Proof.
  revert acc. induction l as [|c l IH]; intros acc H Hin; [done|].
  cbn. destruct Hin as [->|Hin].
  - apply loop_absent. by apply leaveRoom_deletes.
  - apply IH; [by apply leaveRoom_hosted|done].
Qed.
End DisconnectLoop.

Lemma disconnect_deletes_hosted_room sid roomCode w ref room :
  getRoom w roomCode = Some (ref, room) → hostId room = sid →
  registryGet roomCode (rooms (disconnect sid w).1) = None.
Proof.
  intros Hget Hhost. apply getRoom_Some in Hget as [Hreg Hheap].
  unfold disconnect. apply loop_deletes with (ref := ref).
  - right. cbn. split; [done|]. rewrite Hheap. cbn. by rewrite Hhost.
  - by eapply registryGet_In.
Qed.

(** C7 (as amended): when the socket that disconnects is the host of a
    room, the room is deleted from the registry.  From then on an [answer],
    [kick-player], [end-quiz], [start-quiz], [next-question] or
    [send-multiple-questions] event for that code changes nothing and emits
    nothing, a [join-room] is answered to its sender with "Room does not
    exist." and a [create-room] registers a new room. *)
Theorem C7_host_disconnect_deletes_room :
  ∀ (flow : Flow) (sid : SocketId) (roomCode : RoomCode) (w : World)
    (ref : RoomRef) (room : Room),
    sid ∈ sockets w →
    getRoom w roomCode = Some (ref, room) →
    hostId room = sid →
    let w' := (step flow (Disconnect sid) w).1 in
    registryGet roomCode (rooms w') = None
    ∧ getRoom w' roomCode = None
    ∧ ∀ (sender : SocketId) (ev : Ev.t),
        targetOf ev = roomCode → unknownRoomOutcome flow sender ev w'.
Proof.
  intros flow sid roomCode w ref room Hlive Hget Hhost w'.
  assert (Hgone : registryGet roomCode (rooms w') = None).
  { subst w'. cbn [step]. destruct (decide (sid ∈ sockets w)); [|done].
    unfold dropSocket. eapply disconnect_deletes_hosted_room; [|exact Hhost].
    exact Hget. }
  split; [exact Hgone|]. split; [by apply getRoom_None|].
  intros sender ev <-. by apply unknown_room.
Qed.

(** The witness of C7: the host of the running quiz disconnects. *)
Lemma C7_host_disconnect_deletes_room_witness :
  let w' := (step AutoAdvance (Disconnect "h") quiz_running).1 in
  registryGet "ABCD" (rooms w') = None
  ∧ getRoom w' "ABCD" = None
  ∧ ∀ (sender : SocketId) (ev : Ev.t),
      targetOf ev = "ABCD" → unknownRoomOutcome AutoAdvance sender ev w'.
Proof.
  apply (C7_host_disconnect_deletes_room AutoAdvance "h" "ABCD" quiz_running 0%nat
           (default (newRoom "" None) (heap quiz_running !! 0%nat))).
  - decided.
  - evaluated.
  - evaluated.
Defined.

(** Where C7 as stated fails: the host leaves while a question runs.  The
    room is deleted, but the countdown and the deadline stay pending, the
    deadline still broadcasts the reveal to the room when it fires, and a
    [join-room] for the deleted code is answered with an error message. *)
Lemma C7_teardown_is_not_silent :
  let w' := (step AutoAdvance (Disconnect "h") quiz_running).1 in
  getRoom w' "ABCD" = None
  ∧ map t_id (timers quiz_running) = [0%nat; 1%nat]
  ∧ map t_id (timers w') = [0%nat; 1%nat]
  ∧ (run AutoAdvance [Elapse 9000; Fire 1] w').2
      = [RoomEmit "ABCD" (Msg.all_answered "a")]
  ∧ (step AutoAdvance (Receive "p1" (Ev.join_room "Ann" "ABCD")) w').2
      = [SocketEmit "p1" (Msg.room_error "Room does not exist.")].
Proof. vm_compute. repeat split. Qed.

(** ** The end of the quiz *)

Lemma fire_final_board tid self roomCode board w :
  find (λ t, Nat.eqb (t_id t) tid) (timers w) = Some self →
  t_task self = FinalBoard roomCode board →
  t_due self ≤ clock w →
  (fire HostPaced tid w).2
    = [RoomEmit roomCode (Msg.final_leaderboard board);
       RoomEmit roomCode Msg.quiz_end]
  ∧ registryGet roomCode (rooms (fire HostPaced tid w).1) = None.
Proof.
  intros Hfind Htask Hdue. unfold fire. rewrite Hfind.
  destruct (Z.ltb_spec (clock w) (t_due self)); [lia|].
  unfold runTask. rewrite Htask. cbn. split; [done|].
  apply registryGet_delete_eq.
Qed.

(** C6 (as amended): when no question is left, [startNextQuestion] of the
    auto-advance version broadcasts the five best players, in descending order of
    score, as the final leaderboard and then the quiz-end signal.  In the
    host-paced version the end of the last question arms a timer of 8 seconds
    holding the whole roster in descending order of score; when that timer
    fires, this list goes out as the final leaderboard, followed by the
    quiz-end signal, and the room is deleted from the registry, after which
    [answer], [kick-player], [end-quiz], [start-quiz], [next-question] and
    [send-multiple-questions] events for the code change and emit nothing. *)
Theorem C6_quiz_completion :
  ∀ (roomCode : RoomCode) (w : World) (ref : RoomRef) (room : Room),
    getRoom w roomCode = Some (ref, room) →
    let sorted := sortByScore (players room) in
    (sorted ≡ₚ players room ∧ Sorted ranksBefore sorted)
    ∧ ((length (questions room) ≤ currentIndex room)%nat →
       startNextQuestion roomCode w
         = (w, [RoomEmit roomCode (Msg.final_leaderboard (take 5 sorted));
                RoomEmit roomCode Msg.quiz_end]))
    ∧ ((length (questions room) ≤ currentIndex room + 1)%nat →
       let ending := endCurrentQuestion HostPaced roomCode w in
       ending.2 = [RoomEmit roomCode Msg.question_ended;
                   RoomEmit roomCode (Msg.leaderboard sorted)]
       ∧ timers ending.1
           = timers w ++ [mkTimer (nextTimer w) (clock w + 8000)
                                  (FinalBoard roomCode sorted)]
       ∧ ∀ (later : World) (tid : TimerId) (self : Timer) (board : list Player),
           find (λ t, Nat.eqb (t_id t) tid) (timers later) = Some self →
           t_task self = FinalBoard roomCode board →
           t_due self ≤ clock later →
           let over := fire HostPaced tid later in
           over.2 = [RoomEmit roomCode (Msg.final_leaderboard board);
                     RoomEmit roomCode Msg.quiz_end]
           ∧ getRoom over.1 roomCode = None
           ∧ ∀ (sender : SocketId) (ev : Ev.t),
               targetOf ev = roomCode →
               unknownRoomOutcome HostPaced sender ev over.1).
Proof.
  intros roomCode w ref room Hget sorted. split; [|split].
  - split; [apply sortByScore_perm|apply sortByScore_sorted].
  - intros Hlen. unfold startNextQuestion. rewrite Hget.
    destruct (Nat.leb_spec (length (questions room)) (currentIndex room)); [done|lia].
  - intros Hlast ending. subst ending. unfold endCurrentQuestion. rewrite Hget.
    destruct (Nat.leb_spec (length (questions room)) (currentIndex room + 1)); [|lia].
    cbn. split; [done|]. split; [done|].
    intros later tid self board Hfind Htask Hdue.
    destruct (fire_final_board tid self roomCode board later Hfind Htask Hdue)
      as [Heffs Hgone].
    split; [exact Heffs|]. split; [by apply getRoom_None|].
    intros sender ev <-. by apply unknown_room.
Qed.

(** The witness of C6: the one-question quiz of the auto-advance version reaches
    [startNextQuestion] with no question left, and in the host-paced version
    the last question ends. *)
Lemma C6_quiz_completion_witness :
  startNextQuestion "ABCD" no_question_left
    = (no_question_left,
       [RoomEmit "ABCD" (Msg.final_leaderboard
                           [mkPlayer 0 "p1" "Ann" 0; mkPlayer 1 "p2" "Bo" 0]);
        RoomEmit "ABCD" Msg.quiz_end])
  ∧ timers (endCurrentQuestion HostPaced "ABCD" paced_last_reveal_over).1
    = timers paced_last_reveal_over
      ++ [mkTimer 3 11500
            (FinalBoard "ABCD" [mkPlayer 0 "p1" "Ann" 1000; mkPlayer 1 "p2" "Bo" 0])].
Proof.
  split.
  - destruct (C6_quiz_completion "ABCD" no_question_left 0%nat
                (default (newRoom "" None) (heap no_question_left !! 0%nat)))
      as (_ & Hfirst & _).
    + evaluated.
    + rewrite Hfirst; [reflexivity|]. evaluated.
  - destruct (C6_quiz_completion "ABCD" paced_last_reveal_over 0%nat
                (default (newRoom "" None) (heap paced_last_reveal_over !! 0%nat)))
      as (_ & _ & Hsecond).
    + evaluated.
    + destruct Hsecond as (_ & Htimers & _); [evaluated|].
      rewrite Htimers. reflexivity.
Defined.

(** Where C6 as stated fails: in the auto-advance version the quiz has run to its
    end, the final leaderboard and the quiz-end signal have gone out, and the
    room is still registered; a [join-room] that arrives afterwards is
    processed and adds a player. *)
Lemma C6_room_outlives_quiz_end :
  let over := fire AutoAdvance 3 no_question_left in
  let after := run AutoAdvance [Connect "p3"; Receive "p3" (Ev.join_room "Cy" "ABCD")]
                   over.1 in
  over.2 = [RoomEmit "ABCD" (Msg.final_leaderboard
                               [mkPlayer 0 "p1" "Ann" 0; mkPlayer 1 "p2" "Bo" 0]);
            RoomEmit "ABCD" Msg.quiz_end]
  ∧ registryGet "ABCD" (rooms over.1) = Some 0%nat
  ∧ after.2 = [SocketJoin "p3" "ABCD";
               RoomEmit "ABCD"
                 (Msg.lobby_update [mkPlayer 0 "p1" "Ann" 0; mkPlayer 1 "p2" "Bo" 0;
                                    mkPlayer 2 "p3" "Cy" 0] 3)]
  ∧ rosterOf after.1 "ABCD"
    = Some [mkPlayer 0 "p1" "Ann" 0; mkPlayer 1 "p2" "Bo" 0; mkPlayer 2 "p3" "Cy" 0].
Proof. vm_compute. repeat split. Qed.

(** ** Joining *)

Lemma filter_all {A} (P : A → Prop) `{∀ x, Decision (P x)} (l : list A) :
  (∀ x, x ∈ l → P x) → filter P l = l.
Proof.
  induction l as [|x l IH]; intros Hall; [done|].
  rewrite filter_cons_True by (apply Hall; left).
  f_equal. apply IH. intros y Hy. apply Hall. by right.
Qed.

Lemma nameTaken_spec name (ps : list Player) :
  existsb (λ p, sameName (p_name p) name) ps = true ↔
  ∃ p, p ∈ ps ∧ Js.trim (Js.toLowerCase (p_name p)) = Js.trim (Js.toLowerCase name).
Proof.
  rewrite existsb_exists. unfold sameName. split.
  - intros (p & Hin & Heq). exists p. split; [by apply list_elem_of_In|].
    by apply String.eqb_eq.
  - intros (p & Hin & Heq). exists p. split; [by apply list_elem_of_In|].
    by apply String.eqb_eq.
Qed.

Lemma rosterOf_putRoom w roomCode ref room room' :
  getRoom w roomCode = Some (ref, room) →
  rosterOf (putRoom ref room' w) roomCode = Some (players room').
Proof.
  intros H. unfold rosterOf. by rewrite (getRoom_putRoom _ _ _ _ room' H).
Qed.

(** ** Joining while a question runs *)

Lemma t_id_addScoreInTask obj pts ts :
  map t_id (map (addScoreInTask obj pts) ts) = map t_id ts.
Proof.
  rewrite map_map. apply map_ext. intros t. unfold addScoreInTask.
  by destruct (t_task t).
Qed.

Lemma answeredRoom_size sid option player question now room :
  sid ∉ answeredPlayers room →
  size (answeredPlayers (answeredRoom sid option player question now room))
    = S (size (answeredPlayers room))
  ∧ length (players (answeredRoom sid option player question now room))
    = length (players room).
Proof.
  intros Hnew. unfold answeredRoom.
  assert (Hsize : size ({[sid]} ∪ answeredPlayers room) = S (size (answeredPlayers room))).
  { rewrite size_union by set_solver. by rewrite size_singleton. }
  destruct (isCorrect option question); cbn; (split; [exact Hsize|]);
    [apply length_map|reflexivity].
Qed.

Lemma answer_lock_decision flow sid option roomCode w ref room player question :
  getRoom w roomCode = Some (ref, room) →
  findPlayer sid (players room) = Some player →
  questions room !! currentIndex room = Some question →
  sid ∉ answeredPlayers room →
  (S (size (answeredPlayers room)) = length (players room) →
   (answer flow sid option roomCode w).2
     = match flow with
       | AutoAdvance => []
       | HostPaced => [RoomEmit roomCode Msg.question_locked]
       end ++ [RoomEmit roomCode (Msg.all_answered (correct question))])
  ∧ (S (size (answeredPlayers room)) ≠ length (players room) →
     (answer flow sid option roomCode w).2 = []
     ∧ map t_id (timers (answer flow sid option roomCode w).1) = map t_id (timers w)).
Proof.
  intros Hroom Hplayer Hq Hnew. unfold answer.
  rewrite Hroom, Hplayer, Hq. destruct (decide (sid ∈ answeredPlayers room)); [done|].
  fold (answeredRoom sid option player question (clock w) room).
  destruct (answeredRoom_size sid option player question (clock w) room Hnew)
    as [-> ->].
  destruct (Nat.eqb_spec (S (size (answeredPlayers room))) (length (players room))).
  - split; [done|]. intros; lia.
  - split; [intros; lia|]. intros _. split; [done|]. cbn.
    destruct (isCorrect option question); [|done]. apply t_id_addScoreInTask.
Qed.

Lemma join_room_ignores_phase sid name roomCode w ref room
    qs idx answered t ci started qst first :
  getRoom w roomCode = Some (ref, room) →
  let room' := mkRoom (hostId room) (players room) qs idx answered t ci started
                      (maxPlayers room) qst first in
  (join_room sid name roomCode (putRoom ref room' w)).2
    = (join_room sid name roomCode w).2
  ∧ rosterOf (join_room sid name roomCode (putRoom ref room' w)).1 roomCode
    = rosterOf (join_room sid name roomCode w).1 roomCode.
Proof.
  intros Hget room'.
  pose proof (getRoom_putRoom _ _ _ _ room' Hget) as Hget'.
  unfold join_room. rewrite Hget, Hget'.
  change (sockets (putRoom ref room' w)) with (sockets w).
  change (nextObj (putRoom ref room' w)) with (nextObj w).
  change (players room') with (players room).
  change (hostId room') with (hostId room).
  change (maxPlayers room') with (maxPlayers room).
  destruct (String.eqb sid (hostId room)).
  { split; [done|]. unfold rosterOf. cbn [fst]. by rewrite Hget, Hget'. }
  set (live := filter (λ p, p_id p ∈ sockets w) (players room)).
  destruct (maxPlayers room <=? Z.of_nat (length live)).
  { split; [done|]. cbn [fst].
    rewrite (rosterOf_putRoom w roomCode ref room _ Hget).
    etrans; [exact (rosterOf_putRoom (putRoom ref room' w) roomCode ref room' _ Hget')|].
    reflexivity. }
  destruct (existsb (λ p, sameName (p_name p) name) live).
  { split; [done|]. cbn [fst].
    rewrite (rosterOf_putRoom w roomCode ref room _ Hget).
    etrans; [exact (rosterOf_putRoom (putRoom ref room' w) roomCode ref room' _ Hget')|].
    reflexivity. }
  split; [done|]. cbn [fst].
  set (roster := live ++ [mkPlayer (nextObj w) sid name 0]).
  unfold rosterOf.
  rewrite (getRoom_same (putRoom ref (set_players roster room) w)
             (mkWorld (rooms w) (<[ref := set_players roster room]> (heap w)) _ _ _ _ _))
    by done.
  rewrite (getRoom_putRoom _ _ _ _ (set_players roster room) Hget).
  rewrite (getRoom_same (putRoom ref (set_players roster room') (putRoom ref room' w))
             (mkWorld _ (<[ref := set_players roster room']> _) _ _ _ _ _))
    by done.
  by rewrite (getRoom_putRoom _ _ _ _ (set_players roster room') Hget').
Qed.

Lemma join_room_accepted sid name roomCode w ref room :
  getRoom w roomCode = Some (ref, room) →
  sid ≠ hostId room →
  (∀ p, p ∈ players room → p_id p ∈ sockets w) →
  Z.of_nat (length (players room)) < maxPlayers room →
  (¬ ∃ p, p ∈ players room
          ∧ Js.trim (Js.toLowerCase (p_name p)) = Js.trim (Js.toLowerCase name)) →
  let roster := players room ++ [mkPlayer (nextObj w) sid name 0] in
  join_room sid name roomCode w
    = (mkWorld (rooms w) (<[ref := set_players roster room]> (heap w))
               (sockets w) (timers w) (nextTimer w) (S (nextObj w)) (clock w),
       [SocketJoin sid roomCode;
        RoomEmit roomCode (Msg.lobby_update roster (maxPlayers room))]).
Proof.
  intros Hget Hother Hlive Hfree Hfresh roster. unfold join_room. rewrite Hget.
  destruct (String.eqb_spec sid (hostId room)); [done|].
  rewrite (filter_all _ _ Hlive).
  destruct (Z.leb_spec (maxPlayers room) (Z.of_nat (length (players room)))); [lia|].
  destruct (existsb _ _) eqn:Hdup; [|done].
  apply nameTaken_spec in Hdup. by destruct Hfresh.
Qed.

Lemma findPlayer_app sid ps more p :
  findPlayer sid ps = Some p → findPlayer sid (ps ++ more) = Some p.
Proof.
  unfold findPlayer. induction ps as [|q ps IH]; [done|]. cbn.
  destruct (String.eqb (p_id q) sid); [done|exact IH].
Qed.

(** C10: [join-room] looks at the host, the roster and the cap only, so its
    outcome is the same whatever the quiz is doing (started or not, which
    question, who has answered, which timers are armed).  While a question
    runs and exactly one player has yet to answer, that player's answer
    would reveal the correct option at once; if another socket joins first,
    the newcomer is on the roster, the count of answers no longer equals the
    number of players, and the same answer emits nothing and leaves every
    timer as it is: the question stays open until the deadline. *)
Theorem C10_join_mid_question_blocks_early_lock :
  ∀ (flow : Flow) (joiner last : SocketId) (name chosen : string)
    (roomCode : RoomCode) (w : World) (ref : RoomRef) (room : Room)
    (player : Player) (question : Question),
    getRoom w roomCode = Some (ref, room) →
    (∀ (qs : list Question) (idx : nat) (answered : gset SocketId)
       (t ci : option TimerId) (started : bool) (qst : Z) (first : bool),
       let room' := mkRoom (hostId room) (players room) qs idx answered t ci
                           started (maxPlayers room) qst first in
       (join_room joiner name roomCode (putRoom ref room' w)).2
         = (join_room joiner name roomCode w).2
       ∧ rosterOf (join_room joiner name roomCode (putRoom ref room' w)).1 roomCode
         = rosterOf (join_room joiner name roomCode w).1 roomCode)
    ∧ (questions room !! currentIndex room = Some question →
       findPlayer last (players room) = Some player →
       last ∉ answeredPlayers room →
       S (size (answeredPlayers room)) = length (players room) →
       joiner ≠ hostId room →
       (∀ p, p ∈ players room → p_id p ∈ sockets w) →
       Z.of_nat (length (players room)) < maxPlayers room →
       (¬ ∃ p, p ∈ players room
               ∧ Js.trim (Js.toLowerCase (p_name p)) = Js.trim (Js.toLowerCase name)) →
       let joined := (join_room joiner name roomCode w).1 in
       (answer flow last chosen roomCode w).2
         = match flow with
           | AutoAdvance => []
           | HostPaced => [RoomEmit roomCode Msg.question_locked]
           end ++ [RoomEmit roomCode (Msg.all_answered (correct question))]
       ∧ rosterOf joined roomCode
         = Some (players room ++ [mkPlayer (nextObj w) joiner name 0])
       ∧ (answer flow last chosen roomCode joined).2 = []
       ∧ map t_id (timers (answer flow last chosen roomCode joined).1)
         = map t_id (timers w)).
Proof.
  intros flow joiner last name chosen roomCode w ref room player question Hget.
  split.
  { intros. by apply (join_room_ignores_phase joiner name roomCode w ref room). }
  intros Hq Hplayer Hnew Hlast Hother Hlive Hfree Hfresh joined.
  split.
  { by apply (answer_lock_decision flow last chosen roomCode w ref room player question). }
  subst joined.
  rewrite (join_room_accepted joiner name roomCode w ref room) by done.
  cbn [fst].
  set (roster := players room ++ [mkPlayer (nextObj w) joiner name 0]).
  set (joined := mkWorld _ _ _ _ _ _ _).
  assert (Hjoined : getRoom joined roomCode = Some (ref, set_players roster room)).
  { rewrite (getRoom_same (putRoom ref (set_players roster room) w) joined) by done.
    by apply (getRoom_putRoom w roomCode ref room). }
  split.
  { unfold rosterOf. by rewrite Hjoined. }
  destruct (answer_lock_decision flow last chosen roomCode joined ref
              (set_players roster room) player question) as [_ Hopen]; try done.
  { cbn. by apply findPlayer_app. }
  apply Hopen. cbn. subst roster. rewrite length_app. cbn. lia.
Qed.

(** The witness of C10: Ann has answered, Bo has not; his answer would end
    the question early, but not after a third socket has joined. *)
Lemma C10_join_mid_question_blocks_early_lock_witness :
  let joined := (join_room "p3" "Cy" "ABCD" bo_is_last).1 in
  (answer AutoAdvance "p2" "b" "ABCD" bo_is_last).2
    = [RoomEmit "ABCD" (Msg.all_answered "a")]
  ∧ rosterOf joined "ABCD"
    = Some [mkPlayer 0 "p1" "Ann" 1000; mkPlayer 1 "p2" "Bo" 0; mkPlayer 2 "p3" "Cy" 0]
  ∧ (answer AutoAdvance "p2" "b" "ABCD" joined).2 = []
  ∧ map t_id (timers (answer AutoAdvance "p2" "b" "ABCD" joined).1) = [0%nat; 1%nat].
Proof.
  destruct (C10_join_mid_question_blocks_early_lock AutoAdvance "p3" "p2" "Cy" "b"
              "ABCD" bo_is_last 0%nat
              (default (newRoom "" None) (heap bo_is_last !! 0%nat))
              (mkPlayer 1 "p2" "Bo" 0)
              (mkQuestion "Q1" ["a"; "b"] "a" 10)) as [_ H].
  - evaluated.
  - apply H.
    + evaluated.
    + evaluated.
    + intros Hin. refuted Hin.
    + evaluated.
    + evaluated.
    + apply (proj1 (Forall_forall _ _)). decided.
    + evaluated.
    + intros (p & Hin & Heq). revert Heq. revert p Hin.
      apply (proj1 (Forall_forall (λ p, Js.trim (Js.toLowerCase (p_name p))
                                        ≠ Js.trim (Js.toLowerCase "Cy")) _)).
      decided.
Defined.

(** ** Late answers: the lock transition and the score *)

(** C2 (the code breaks it): the ten seconds of the first of two questions
    run out, the deadline fires and reveals the correct option; one second
    later the last missing player answers, the all-answered path fires as
    well: the reveal goes out a second time and [endCurrentQuestion] runs
    twice for the same question, so [currentIndex] moves from 0 to 2 and the
    second question is never asked. *)
Theorem C2_late_last_answer_locks_twice :
  let ended := run AutoAdvance late_last_answer deadline_due in
  (currentIndex <$> heap deadline_due !! 0%nat) = Some 0%nat
  ∧ (elements ∘ answeredPlayers <$> heap deadline_due !! 0%nat) = Some ["p1"]
  ∧ ended.2
    = [RoomEmit "ABCD" (Msg.all_answered "a");
       RoomEmit "ABCD" (Msg.all_answered "a");
       RoomEmit "ABCD" Msg.question_ended;
       RoomEmit "ABCD" (Msg.leaderboard [mkPlayer 0 "p1" "Ann" 1000;
                                         mkPlayer 1 "p2" "Bo" 450]);
       RoomEmit "ABCD" Msg.question_ended;
       RoomEmit "ABCD" (Msg.leaderboard [mkPlayer 0 "p1" "Ann" 1000;
                                         mkPlayer 1 "p2" "Bo" 450])]
  ∧ (currentIndex <$> heap ended.1 !! 0%nat) = Some 2%nat
  ∧ (length ∘ questions <$> heap ended.1 !! 0%nat) = Some 2%nat
  ∧ (run AutoAdvance [Elapse 4000; Fire 4] ended.1).2
    = [RoomEmit "ABCD" (Msg.final_leaderboard [mkPlayer 0 "p1" "Ann" 1000;
                                               mkPlayer 1 "p2" "Bo" 450]);
       RoomEmit "ABCD" Msg.quiz_end].
Proof. vm_compute. repeat split. Qed.

(** C3 (the code breaks it): the one second of the question is over and the
    correct option has been revealed; two seconds later Bo sends the correct
    option.  He is not the first, [remaining] is 1 - 3 = -2 seconds, the
    award is [floor(500 + (-2/1) * 500) = -500], and his score falls from 0
    to -500. *)
Theorem C3_late_answer_scores_negative :
  let w := (step AutoAdvance (Elapse 2000) revealed_after_one_second).1 in
  let w' := (step AutoAdvance (Receive "p2" (Ev.answer "a" "ABCD")) w).1 in
  clock w = 3000
  ∧ (heap w !! 0%nat ≫= λ room, questions room !! currentIndex room)
    = Some (mkQuestion "Q1" ["a"; "b"] "a" 1)
  ∧ (heap w !! 0%nat ≫= λ room,
       (λ q, points room q (clock w)) <$> questions room !! currentIndex room)
    = Some (-500)
  ∧ (rosterOf w "ABCD" ≫= scoreOf "p2") = Some 0
  ∧ (rosterOf w' "ABCD" ≫= scoreOf "p2") = Some (-500).
Proof. vm_compute. repeat split. Qed.

(** *** What holds of the award when the answer is in time *)

Lemma points_at_most_1000 room question now :
  0 < timeLimit question →
  questionStartTime room ≤ now →
  points room question now ≤ 1000.
Proof.
  intros Hlimit Hclock. unfold points.
  destruct (firstCorrectAnswered room); [|lia].
  apply (Z.le_trans _ (Qfloor 1000%Q)); [apply Qfloor_resp_le|done].
  set (limit := inject_Z (timeLimit question)).
  set (taken := (inject_Z (now - questionStartTime room) / 1000)%Q).
  assert (Hl : (0 < limit)%Q)
    by (subst limit; change 0%Q with (inject_Z 0); by rewrite <- Zlt_Qlt).
  assert (Ht : (0 <= taken)%Q).
  { subst taken. apply Qle_shift_div_l; [reflexivity|].
    rewrite Qmult_0_l. change 0%Q with (inject_Z 0). rewrite <- Zle_Qle. lia. }
  clearbody limit taken.
  assert (Hfrac : ((limit - taken) / limit <= 1)%Q).
  { apply Qle_shift_div_r; [exact Hl|]. lra. }
  set (frac := ((limit - taken) / limit)%Q) in *. clearbody frac. lra.
Qed.

Lemma points_at_least_500 room question now :
  0 < timeLimit question →
  now - questionStartTime room ≤ 1000 * timeLimit question →
  500 ≤ points room question now.
Proof.
  intros Hlimit Hintime. unfold points.
  destruct (firstCorrectAnswered room); [|lia].
  apply (Z.le_trans _ (Qfloor 500%Q)); [done|apply Qfloor_resp_le].
  set (limit := inject_Z (timeLimit question)).
  set (taken := (inject_Z (now - questionStartTime room) / 1000)%Q).
  assert (Hl : (0 < limit)%Q)
    by (subst limit; change 0%Q with (inject_Z 0); by rewrite <- Zlt_Qlt).
  assert (Ht : (taken <= limit)%Q).
  { subst taken limit. apply Qle_shift_div_r; [reflexivity|].
    change 1000%Q with (inject_Z 1000). rewrite <- inject_Z_mult, <- Zle_Qle. lia. }
  clearbody limit taken.
  assert (Hfrac : (0 <= (limit - taken) / limit)%Q).
  { apply Qle_shift_div_l; [exact Hl|]. lra. }
  set (frac := ((limit - taken) / limit)%Q) in *. clearbody frac. lra.
Qed.

Lemma points_negative_when_late room question now :
  0 < timeLimit question →
  firstCorrectAnswered room = true →
  2000 * timeLimit question < now - questionStartTime room →
  points room question now < 0.
Proof.
  intros Hlimit Hfirst Hlate. unfold points. rewrite Hfirst.
  set (limit := inject_Z (timeLimit question)).
  set (taken := (inject_Z (now - questionStartTime room) / 1000)%Q).
  assert (Hl : (0 < limit)%Q)
    by (subst limit; change 0%Q with (inject_Z 0); by rewrite <- Zlt_Qlt).
  assert (Ht : (2 * limit < taken)%Q).
  { subst taken limit. apply Qlt_shift_div_l; [reflexivity|].
    change 2%Q with (inject_Z 2). change 1000%Q with (inject_Z 1000).
    rewrite <- !inject_Z_mult, <- Zlt_Qlt. lia. }
  clearbody limit taken.
  assert (Hfrac : ((limit - taken) / limit < -1)%Q).
  { apply Qlt_shift_div_r; [exact Hl|]. lra. }
  set (frac := ((limit - taken) / limit)%Q) in *. clearbody frac.
  apply Z.lt_nge. intros Hge.
  pose proof (Qfloor_le (500 + frac * 500)%Q) as Hfloor.
  assert (H0 : (0 <= inject_Z (Qfloor (500 + frac * 500)))%Q).
  { change 0%Q with (inject_Z 0). by rewrite <- Zle_Qle. }
  lra.
Qed.

(** *** The direction of the race that the code leaves open *)

(** The deadline callback touches the timer queue only: the registry, the
    room objects and the live sockets stay as they are, so the [answer]
    handler finds the question, the roster and [answeredPlayers] exactly as
    before the deadline. *)
Lemma deadline_changes_no_room flow self roomCode ref question w :
  t_task self = Deadline roomCode ref question →
  let w' := (runTask flow self w).1 in
  rooms w' = rooms w ∧ heap w' = heap w ∧ sockets w' = sockets w
  ∧ ∀ code, getRoom w' code = getRoom w code.
Proof.
  intros Htask w'. subst w'. unfold runTask. rewrite Htask.
  unfold reveal, clearCountdownOf. cbn [setTimer fst snd heap set_timers].
  destruct (heap w !! ref) as [room|]; [destruct (countdownInterval room)|];
    done.
Qed.

(** *** The direction of the race that the code does close *)

Lemma find_not_there {A} (f : A → bool) (l : list A) :
  (∀ x, x ∈ l → f x = false) → find f l = None.
Proof.
  induction l as [|x l IH]; intros H; [done|]. cbn.
  rewrite (H x) by left. apply IH. intros y Hy. apply H. by right.
Qed.

Lemma answeredRoom_handles sid option player question now room :
  timer (answeredRoom sid option player question now room) = timer room
  ∧ countdownInterval (answeredRoom sid option player question now room)
    = countdownInterval room.
Proof. unfold answeredRoom. by destruct (isCorrect option question). Qed.

(** When the last answer arrives before the deadline, the all-answered path
    cancels the deadline timer held in [room.timer]: that timer no longer
    runs, whenever the event loop gets to it. *)
Lemma lock_by_answer_disarms_deadline
    flow sid option roomCode w ref room player question tid :
  getRoom w roomCode = Some (ref, room) →
  findPlayer sid (players room) = Some player →
  questions room !! currentIndex room = Some question →
  sid ∉ answeredPlayers room →
  S (size (answeredPlayers room)) = length (players room) →
  timer room = Some tid →
  (tid < nextTimer w)%nat →
  let w' := (answer flow sid option roomCode w).1 in
  fire flow tid w' = (w', []).
Proof.
  intros Hroom Hplayer Hq Hnew Hall Htimer Hold w'. subst w'. unfold answer.
  rewrite Hroom, Hplayer, Hq. destruct (decide (sid ∈ answeredPlayers room)); [done|].
  fold (answeredRoom sid option player question (clock w) room).
  destruct (answeredRoom_size sid option player question (clock w) room Hnew)
    as [-> ->].
  destruct (answeredRoom_handles sid option player question (clock w) room)
    as [-> ->].
  rewrite Hall, Nat.eqb_refl, Htimer.
  set (w1 := if isCorrect option question then _ else w).
  set (w2 := putRoom ref _ w1).
  assert (Hnext : nextTimer w2 = nextTimer w).
  { subst w2 w1. by destruct (isCorrect option question). }
  unfold reveal, setTimer. cbn [fst snd]. unfold fire. cbn [timers].
  rewrite find_not_there; [done|].
  intros t Ht. apply Nat.eqb_neq.
  apply elem_of_app in Ht as [Ht|Ht].
  - destruct (countdownInterval room) as [ci|]; cbn in Ht.
    + apply list_elem_of_filter in Ht as [_ Ht].
      apply list_elem_of_filter in Ht as [Ht _]. exact Ht.
    + apply list_elem_of_filter in Ht as [Ht _]. exact Ht.
  - apply list_elem_of_singleton in Ht as ->. cbn.
    rewrite !nextTimer_clearTimer.
    change (nextTimer w2 ≠ tid). rewrite Hnext. lia.
Qed.

(** ** [answeredPlayers] and the roster

    The operations other than [kick-player] keep everybody who has answered
    on the roster. *)

Lemma answeredRoom_within sid option player question now room :
  findPlayer sid (players room) = Some player →
  answeredWithinRoster room →
  answeredWithinRoster (answeredRoom sid option player question now room).
Proof.
  intros Hplayer Hinv x. apply findPlayer_Some in Hplayer as [Hin Hid].
  assert (Hsid : sid ∈ map p_id (players room)).
  { subst sid. apply list_elem_of_In, in_map, Hin. }
  assert (Hold : x ∈ {[sid]} ∪ answeredPlayers room → x ∈ map p_id (players room)).
  { intros [Hx|Hx]%elem_of_union; [|by apply Hinv].
    apply elem_of_singleton in Hx. by subst x. }
  unfold answeredRoom. destruct (isCorrect option question); intros Hx.
  - change (x ∈ map p_id (addScore (p_obj player) (points room question now)
                                   (players room))).
    rewrite ids_addScore. by apply Hold.
  - by apply Hold.
Qed.

Lemma answer_keeps_answered_within_roster flow sid option roomCode w ref room :
  getRoom w roomCode = Some (ref, room) →
  answeredWithinRoster room →
  ∃ room', getRoom (answer flow sid option roomCode w).1 roomCode = Some (ref, room')
           ∧ answeredWithinRoster room'.
Proof.
  intros Hroom Hinv.
  destruct (findPlayer sid (players room)) as [player|] eqn:Hplayer.
  2:{ exists room. by rewrite answer_ignored by (right; exists ref, room; auto). }
  destruct (questions room !! currentIndex room) as [question|] eqn:Hq.
  2:{ exists room. by rewrite answer_ignored by (right; exists ref, room; auto). }
  destruct (decide (sid ∈ answeredPlayers room)) as [Hin|Hnew].
  { exists room. by rewrite answer_ignored by (right; exists ref, room; auto). }
  destruct (answer_accepted flow sid option roomCode w ref room player question
              Hroom Hplayer Hq Hnew) as (Hget & _ & _).
  eexists. split; [exact Hget|]. by apply answeredRoom_within.
Qed.

Lemma leaving_keeps_within sid room :
  answeredWithinRoster room →
  answeredWithinRoster
    (set_answeredPlayers (answeredPlayers room ∖ {[sid]})
       (set_players (filter (λ p, p_id p ≠ sid) (players room)) room)).
Proof.
  intros Hinv x. cbn. intros [Hx Hne]%elem_of_difference.
  apply Hinv in Hx. apply list_elem_of_fmap in Hx as (p & -> & Hp).
  apply list_elem_of_fmap. exists p. split; [done|].
  apply list_elem_of_filter. split; [set_solver|done].
Qed.

Lemma leaveRoom_keeps_within sid acc c :
  (∀ ref room, heap acc.1 !! ref = Some room → answeredWithinRoster room) →
  ∀ ref room, heap (leaveRoom sid acc c).1 !! ref = Some room →
              answeredWithinRoster room.
Proof.
  destruct acc as [w effs]. cbn [fst]. intros Hinv. unfold leaveRoom.
  destruct (getRoom w c) as [[r rm]|] eqn:Hget; [|exact Hinv].
  destruct (String.eqb (hostId rm) sid); [exact Hinv|].
  destruct (findPlayer sid (players rm)); [|exact Hinv].
  apply getRoom_Some in Hget as [_ Hheap].
  intros ref room. cbn. destruct (decide (r = ref)) as [->|Hne].
  - rewrite list_lookup_insert_eq by (by eapply lookup_lt_Some).
    intros [= <-]. apply leaving_keeps_within. by eapply Hinv.
  - rewrite list_lookup_insert_ne by done. apply Hinv.
Qed.

Lemma disconnect_keeps_answered_within_roster sid w :
  (∀ ref room, heap w !! ref = Some room → answeredWithinRoster room) →
  ∀ ref room, heap (disconnect sid w).1 !! ref = Some room →
              answeredWithinRoster room.
Proof.
  unfold disconnect. intros Hinv.
  assert (Hloop : ∀ l acc,
            (∀ ref room, heap acc.1 !! ref = Some room → answeredWithinRoster room) →
            ∀ ref room, heap (fold_left (leaveRoom sid) l acc).1 !! ref = Some room →
                        answeredWithinRoster room).
  { induction l as [|c l IH]; intros acc Hacc; [exact Hacc|].
    cbn. apply IH. by apply leaveRoom_keeps_within. }
  by apply Hloop.
Qed.

Lemma question_reset_empties_answered roomCode ref room question w room' :
  getRoom w roomCode = Some (ref, room) →
  getRoom (beginQuestion roomCode ref room question w).1 roomCode = Some (ref, room') →
  answeredPlayers room' = ∅ ∧ answeredWithinRoster room'.
Proof.
  intros Hget. unfold beginQuestion. cbn [setTimer fst snd].
  set (room3 := set_timer _ _). set (w2 := mkWorld _ _ _ _ _ _ _).
  assert (H2 : getRoom w2 roomCode = Some (ref, room)) by exact Hget.
  rewrite (getRoom_putRoom _ _ _ _ room3 H2). intros [= <-].
  split; [done|]. intros x. cbn. set_solver.
Qed.

(** ** The clock

    In every world the server can reach, the running question was started in
    the past, so an award never exceeds 1000. *)

Lemma past_same w w' :
  heap w' = heap w → clock w' = clock w → startedInPast w → startedInPast w'.
Proof. unfold startedInPast. by intros -> ->. Qed.

Lemma past_putRoom ref room w :
  startedInPast w → questionStartTime room ≤ clock w →
  startedInPast (putRoom ref room w).
Proof.
  intros [Hclock Hheap] Hroom. split; [exact Hclock|].
  intros r room'. cbn. intros H.
  apply list_lookup_insert_Some in H as [(-> & <- & _)|[_ H]]; [done|].
  by eapply Hheap.
Qed.

Lemma past_clearTimer h w : startedInPast w → startedInPast (clearTimer h w).
Proof. by destruct h. Qed.

Lemma past_setTimer task delay w :
  startedInPast w → startedInPast (setTimer task delay w).2.
Proof. done. Qed.

Lemma past_getRoom w roomCode ref room :
  startedInPast w → getRoom w roomCode = Some (ref, room) →
  questionStartTime room ≤ clock w.
Proof. intros [_ H] [_ Hheap]%getRoom_Some. by eapply H. Qed.

Lemma past_reveal flow roomCode shown w :
  startedInPast w → startedInPast (reveal flow roomCode shown w).1.
Proof. done. Qed.

Lemma past_beginQuestion roomCode ref room question w :
  startedInPast w → startedInPast (beginQuestion roomCode ref room question w).1.
Proof.
  intros H. unfold beginQuestion. cbn [setTimer fst snd].
  apply past_putRoom; [exact H|]. cbn. lia.
Qed.

Lemma past_startNextQuestion roomCode w :
  startedInPast w → startedInPast (startNextQuestion roomCode w).1.
Proof.
  intros H. unfold startNextQuestion.
  destruct (getRoom w roomCode) as [[ref room]|]; [|done].
  destruct (length (questions room) <=? currentIndex room)%nat; [done|].
  destruct (questions room !! currentIndex room); [|done].
  by apply past_beginQuestion.
Qed.

Lemma past_endCurrentQuestion flow roomCode w :
  startedInPast w → startedInPast (endCurrentQuestion flow roomCode w).1.
Proof.
  intros H. unfold endCurrentQuestion.
  destruct (getRoom w roomCode) as [[ref room]|] eqn:Hget; [|done].
  assert (Hput : startedInPast
                   (putRoom ref (set_currentIndex (S (currentIndex room)) room) w)).
  { apply past_putRoom; [exact H|]. cbn. by eapply past_getRoom. }
  destruct flow; [done|].
  by destruct (length (questions room) <=? currentIndex room + 1)%nat.
Qed.

Lemma past_answer flow sid option roomCode w :
  startedInPast w → startedInPast (answer flow sid option roomCode w).1.
Proof.
  intros H. unfold answer.
  destruct (getRoom w roomCode) as [[ref room]|] eqn:Hget; [|done].
  destruct (findPlayer sid (players room)) as [player|]; [|done].
  destruct (questions room !! currentIndex room) as [question|]; [|done].
  destruct (decide (sid ∈ answeredPlayers room)); [done|].
  fold (answeredRoom sid option player question (clock w) room).
  set (w1 := if isCorrect option question then _ else w).
  assert (H1 : startedInPast w1).
  { subst w1. by destruct (isCorrect option question). }
  assert (Hc : clock w1 = clock w).
  { subst w1. by destruct (isCorrect option question). }
  assert (H2 : startedInPast
                 (putRoom ref (answeredRoom sid option player question (clock w) room) w1)).
  { apply past_putRoom; [exact H1|]. rewrite Hc.
    pose proof (past_getRoom _ _ _ _ H Hget).
    unfold answeredRoom. by destruct (isCorrect option question). }
  destruct (Nat.eqb _ _); [|exact H2].
  by apply past_reveal, past_clearTimer, past_clearTimer.
Qed.

Lemma past_leaveRoom sid acc roomCode :
  startedInPast acc.1 → startedInPast (leaveRoom sid acc roomCode).1.
Proof.
  destruct acc as [w effs]. cbn [fst]. intros H. unfold leaveRoom.
  destruct (getRoom w roomCode) as [[ref room]|] eqn:Hget; [|done].
  destruct (String.eqb (hostId room) sid); [done|].
  destruct (findPlayer sid (players room)); [|done].
  apply past_putRoom; [exact H|]. cbn. by eapply past_getRoom.
Qed.

Lemma past_disconnect sid w :
  startedInPast w → startedInPast (disconnect sid w).1.
Proof.
  unfold disconnect. intros H.
  assert (Hloop : ∀ l acc, startedInPast acc.1 →
                           startedInPast (fold_left (leaveRoom sid) l acc).1).
  { induction l as [|c l IH]; intros acc Hacc; [done|].
    cbn. apply IH. by apply past_leaveRoom. }
  by apply Hloop.
Qed.

Lemma past_handle flow sid ev w :
  startedInPast w → startedInPast (handle flow sid ev w).1.
Proof.
  intros H. destruct ev; cbn [handle].
  - unfold create_room. destruct (registryGet roomCode (rooms w)); [done|].
    destruct H as [Hclock Hheap]. split; [done|]. cbn.
    intros ref room [Hold|[_ Hnew]]%lookup_app_Some; [by eapply Hheap|].
    apply list_lookup_singleton_Some in Hnew as [_ <-]. done.
  - unfold join_room.
    destruct (getRoom w roomCode) as [[ref room]|] eqn:Hget; [|done].
    pose proof (past_getRoom _ _ _ _ H Hget) as Hroom.
    destruct (String.eqb sid (hostId room)); [done|].
    destruct (maxPlayers room <=? _); [by apply past_putRoom|].
    destruct (existsb _ _); [by apply past_putRoom|].
    cbn [fst].
    set (room' := set_players _ room).
    apply (past_same (putRoom ref room' w)); [done|done|].
    by apply past_putRoom.
  - unfold send_multiple_questions.
    destruct (getRoom w roomCode) as [[ref room]|] eqn:Hget; [|done].
    apply past_putRoom; [exact H|]. cbn. by eapply past_getRoom.
  - unfold start_quiz.
    destruct (getRoom w roomCode) as [[ref room]|] eqn:Hget; [|done].
    assert (H1 : startedInPast (putRoom ref (set_quizStarted true room) w)).
    { apply past_putRoom; [exact H|]. cbn. by eapply past_getRoom. }
    destruct flow; [by apply past_startNextQuestion|done].
  - unfold next_question. destruct flow; [done|].
    destruct (getRoom w roomCode) as [[ref room]|]; [|done].
    destruct (negb (quizStarted room)); [done|].
    destruct (length (questions room) <=? currentIndex room)%nat; [done|].
    destruct (questions room !! currentIndex room); [|done].
    by apply past_beginQuestion.
  - by apply past_answer.
  - unfold kick_player.
    destruct (getRoom w roomCode) as [[ref room]|] eqn:Hget; [|done].
    set (ps := filter _ (players room)).
    assert (H1 : startedInPast (putRoom ref (set_players ps room) w)).
    { apply past_putRoom; [exact H|]. cbn. by eapply past_getRoom. }
    destruct (decide (playerId ∈ sockets w)); [|done].
    unfold dropSocket.
    destruct (disconnect playerId _) as [w2 effs2] eqn:Hdrop.
    change w2 with (w2, effs2).1. rewrite <- Hdrop. by apply past_disconnect.
  - unfold end_quiz.
    destruct (getRoom w roomCode) as [[ref room]|]; [|done].
    cbn [fst]. apply (past_same w); [|  |done].
    + cbn. by rewrite !heap_clearTimer.
    + cbn. by rewrite !clock_clearTimer.
Qed.

Lemma past_fire flow tid w : startedInPast w → startedInPast (fire flow tid w).1.
Proof.
  intros H. unfold fire.
  destruct (find _ (timers w)) as [self|]; [|done].
  destruct (clock w <? t_due self); [done|].
  unfold runTask. destruct (t_task self) as [code ref tl|code ref q|code|code|code board].
  - cbn [fst]. destruct (tl - 1 <=? 0); [|done].
    unfold clearCountdownOf. cbn [heap set_timers].
    destruct (heap w !! ref); [|done]. by apply past_clearTimer.
  - apply past_reveal. unfold clearCountdownOf. cbn [heap set_timers].
    destruct (heap w !! ref); [|done]. by apply past_clearTimer.
  - by apply past_endCurrentQuestion.
  - by apply past_startNextQuestion.
  - done.
Qed.

Lemma past_step flow i w : startedInPast w → startedInPast (step flow i w).1.
Proof.
  intros H. destruct i; cbn [step].
  - done.
  - destruct (decide (sid ∈ sockets w)); [by apply past_handle|done].
  - destruct (decide (sid ∈ sockets w)); [|done].
    unfold dropSocket. by apply past_disconnect.
  - destruct H as [Hclock Hheap]. split; cbn; [lia|].
    intros ref room Hroom. specialize (Hheap ref room Hroom). lia.
  - by apply past_fire.
Qed.

Lemma past_run flow inputs w :
  startedInPast w → startedInPast (run flow inputs w).1.
Proof.
  revert w. induction inputs as [|i rest IH]; intros w H; [done|].
  cbn [run]. pose proof (past_step flow i w H) as H1.
  destruct (step flow i w) as [w1 effs1]. specialize (IH w1 H1).
  by destruct (run flow rest w1) as [w2 effs2].
Qed.

(** Whatever the clients send and whenever the timers fire, the award of a
    correct answer to a question with a positive time limit is at most
    1000. *)
Lemma reachable_award_at_most_1000 flow inputs roomCode ref room question :
  let w := (run flow inputs startup).1 in
  getRoom w roomCode = Some (ref, room) →
  0 < timeLimit question →
  points room question (clock w) ≤ 1000.
Proof.
  intros w Hget Hlimit. apply points_at_most_1000; [exact Hlimit|].
  eapply past_getRoom; [|exact Hget].
  apply past_run. split; [done|]. intros r x. cbn. by rewrite lookup_nil.
Qed.

(** ** Rosters and live sockets

    In every world the server can reach, the players of a registered room
    are connected: the pruning at the head of [join-room] removes nobody. *)

Lemma registryGet_delete_Some roomCode other ref rs :
  registryGet roomCode (registryDelete other rs) = Some ref →
  registryGet roomCode rs = Some ref.
Proof.
  destruct (decide (other = roomCode)) as [->|Hne].
  - by rewrite registryGet_delete_eq.
  - by rewrite registryGet_delete_ne.
Qed.

Lemma live_same w w' :
  rooms w' = rooms w → heap w' = heap w → sockets w' = sockets w →
  rostersLive w → rostersLive w'.
Proof. unfold rostersLive. by intros -> -> ->. Qed.

Lemma live_putRoom ref room w :
  rostersLive w →
  (∀ p, p ∈ players room → p_id p ∈ sockets w) →
  rostersLive (putRoom ref room w).
Proof.
  intros Hlive Hroom c r room' p Hreg Hheap Hp. cbn in *.
  apply list_lookup_insert_Some in Hheap as [(-> & <- & _)|[_ Hheap]].
  - by apply Hroom.
  - by eapply Hlive.
Qed.

Lemma live_getRoom w roomCode ref room :
  rostersLive w → getRoom w roomCode = Some (ref, room) →
  ∀ p, p ∈ players room → p_id p ∈ sockets w.
Proof. intros Hlive [Hreg Hheap]%getRoom_Some p Hp. by eapply Hlive. Qed.

Lemma live_delete roomCode w :
  rostersLive w → rostersLive (set_rooms (registryDelete roomCode (rooms w)) w).
Proof.
  intros Hlive c r room p Hreg Hheap Hp. cbn in *.
  apply registryGet_delete_Some in Hreg. by eapply Hlive.
Qed.

Lemma live_clearTimer h w : rostersLive w → rostersLive (clearTimer h w).
Proof. by destruct h. Qed.

Lemma elem_of_addScore p obj pts ps :
  p ∈ addScore obj pts ps → ∃ q, q ∈ ps ∧ p_id q = p_id p.
Proof.
  unfold addScore. intros (q & -> & Hq)%list_elem_of_fmap. exists q.
  split; [done|]. by destruct (Nat.eqb (p_obj q) obj).
Qed.

Lemma live_beginQuestion roomCode ref room question w :
  rostersLive w → getRoom w roomCode = Some (ref, room) →
  rostersLive (beginQuestion roomCode ref room question w).1.
Proof.
  intros H Hget. unfold beginQuestion. cbn [setTimer fst snd].
  apply live_putRoom; [exact H|]. cbn. by eapply live_getRoom.
Qed.

Lemma live_startNextQuestion roomCode w :
  rostersLive w → rostersLive (startNextQuestion roomCode w).1.
Proof.
  intros H. unfold startNextQuestion.
  destruct (getRoom w roomCode) as [[ref room]|] eqn:Hget; [|done].
  destruct (length (questions room) <=? currentIndex room)%nat; [done|].
  destruct (questions room !! currentIndex room); [|done].
  by eapply live_beginQuestion.
Qed.

Lemma live_endCurrentQuestion flow roomCode w :
  rostersLive w → rostersLive (endCurrentQuestion flow roomCode w).1.
Proof.
  intros H. unfold endCurrentQuestion.
  destruct (getRoom w roomCode) as [[ref room]|] eqn:Hget; [|done].
  assert (Hput : rostersLive
                   (putRoom ref (set_currentIndex (S (currentIndex room)) room) w)).
  { apply live_putRoom; [exact H|]. cbn. by eapply live_getRoom. }
  destruct flow; [done|].
  by destruct (length (questions room) <=? currentIndex room + 1)%nat.
Qed.

Lemma live_answer flow sid option roomCode w :
  rostersLive w → rostersLive (answer flow sid option roomCode w).1.
Proof.
  intros H. unfold answer.
  destruct (getRoom w roomCode) as [[ref room]|] eqn:Hget; [|done].
  destruct (findPlayer sid (players room)) as [player|]; [|done].
  destruct (questions room !! currentIndex room) as [question|]; [|done].
  destruct (decide (sid ∈ answeredPlayers room)); [done|].
  fold (answeredRoom sid option player question (clock w) room).
  set (w1 := if isCorrect option question then _ else w).
  assert (H1 : rostersLive w1 ∧ sockets w1 = sockets w).
  { subst w1. by destruct (isCorrect option question). }
  destruct H1 as [H1 Hs].
  assert (H2 : rostersLive
                 (putRoom ref (answeredRoom sid option player question (clock w) room) w1)).
  { apply live_putRoom; [exact H1|]. rewrite Hs.
    pose proof (live_getRoom _ _ _ _ H Hget) as Hroom.
    unfold answeredRoom. destruct (isCorrect option question); cbn; [|exact Hroom].
    intros p (q & Hq & <-)%elem_of_addScore. by apply Hroom. }
  destruct (Nat.eqb _ _); [|exact H2].
  change (rostersLive (setTimer (EndQuestion roomCode) 2500
            (clearTimer (countdownInterval (answeredRoom sid option player question
                                              (clock w) room))
               (clearTimer (timer (answeredRoom sid option player question
                                     (clock w) room))
                  (putRoom ref (answeredRoom sid option player question (clock w) room)
                           w1)))).2).
  by apply live_clearTimer, live_clearTimer.
Qed.

(** One turn of the [disconnect] loop never adds a registry entry, a room
    object or a player, and leaves the set of live sockets alone. *)
Lemma leaveRoom_shrinks sid acc c :
  sockets (leaveRoom sid acc c).1 = sockets acc.1
  ∧ (∀ code ref, registryGet code (rooms (leaveRoom sid acc c).1) = Some ref →
                 registryGet code (rooms acc.1) = Some ref)
  ∧ (∀ ref room', heap (leaveRoom sid acc c).1 !! ref = Some room' →
       ∃ room, heap acc.1 !! ref = Some room
               ∧ ∀ p, p ∈ players room' → p ∈ players room).
Proof.
  destruct acc as [w effs]. cbn [fst]. unfold leaveRoom.
  destruct (getRoom w c) as [[r rm]|] eqn:Hget; [|by eauto].
  destruct (String.eqb (hostId rm) sid).
  { cbn. split; [done|]. split; [|by eauto].
    intros code ref. apply registryGet_delete_Some. }
  destruct (findPlayer sid (players rm)) as [found|]; [|by eauto].
  cbn. split; [done|]. split; [done|].
  apply getRoom_Some in Hget as [_ Hheap].
  intros ref room' [(-> & <- & _)|[_ H]]%list_lookup_insert_Some; [|by eauto].
  exists rm. split; [done|]. cbn. intros p Hp.
  by apply list_elem_of_filter in Hp as [_ Hp].
Qed.

Lemma loop_shrinks sid l acc :
  sockets (fold_left (leaveRoom sid) l acc).1 = sockets acc.1
  ∧ (∀ code ref,
       registryGet code (rooms (fold_left (leaveRoom sid) l acc).1) = Some ref →
       registryGet code (rooms acc.1) = Some ref)
  ∧ (∀ ref room', heap (fold_left (leaveRoom sid) l acc).1 !! ref = Some room' →
       ∃ room, heap acc.1 !! ref = Some room
               ∧ ∀ p, p ∈ players room' → p ∈ players room).
Proof.
  revert acc. induction l as [|c l IH]; intros acc; [by eauto|].
  cbn [fold_left].
  destruct (IH (leaveRoom sid acc c)) as (Hs & Hr & Hh).
  destruct (leaveRoom_shrinks sid acc c) as (Hs1 & Hr1 & Hh1).
  split; [congruence|]. split; [by eauto|].
  intros ref room' H. destruct (Hh ref room' H) as (room1 & H1 & Hsub1).
  destruct (Hh1 ref room1 H1) as (room & H0 & Hsub0). eauto.
Qed.

(** After the turn for its code, a room that stays registered no longer has
    the socket on its roster. *)
Lemma leaveRoom_removes sid acc c ref room p :
  registryGet c (rooms (leaveRoom sid acc c).1) = Some ref →
  heap (leaveRoom sid acc c).1 !! ref = Some room →
  p ∈ players room → p_id p ≠ sid.
Proof.
  destruct acc as [w effs]. cbn [fst]. unfold leaveRoom.
  destruct (getRoom w c) as [[r rm]|] eqn:Hget.
  - pose proof Hget as [Hreg Hheap]%getRoom_Some.
    destruct (String.eqb (hostId rm) sid).
    { cbn. by rewrite registryGet_delete_eq. }
    destruct (findPlayer sid (players rm)) as [found|] eqn:Hfind.
    + cbn. rewrite Hreg. intros [= <-].
      rewrite list_lookup_insert_eq by (by eapply lookup_lt_Some).
      intros [= <-]. cbn. intros Hp.
      by apply list_elem_of_filter in Hp as [Hp _].
    + cbn. rewrite Hreg. intros [= <-]. rewrite Hheap. intros [= <-] Hp Hid.
      unfold findPlayer in Hfind.
      apply list_elem_of_In in Hp. apply (find_none _ _ Hfind p) in Hp.
      by rewrite Hid, String.eqb_refl in Hp.
  - cbn. intros Hreg Hheap. unfold getRoom in Hget. rewrite Hreg in Hget.
    cbn in Hget. by rewrite Hheap in Hget.
Qed.

Lemma loop_removes sid l acc c ref room p :
  In c l →
  registryGet c (rooms (fold_left (leaveRoom sid) l acc).1) = Some ref →
  heap (fold_left (leaveRoom sid) l acc).1 !! ref = Some room →
  p ∈ players room → p_id p ≠ sid.
Proof.
  revert acc. induction l as [|c' l IH]; intros acc Hin Hreg Hheap Hp; [done|].
  cbn [fold_left] in *.
  destruct (decide (c' = c)) as [->|Hne].
  - destruct (loop_shrinks sid l (leaveRoom sid acc c)) as (_ & Hr & Hh).
    destruct (Hh ref room Hheap) as (room1 & H1 & Hsub).
    eapply leaveRoom_removes; [by apply Hr|exact H1|by apply Hsub].
  - destruct Hin as [Heq|Hin]; [done|]. by eapply IH.
Qed.

Lemma live_dropSocket sid w : rostersLive w → rostersLive (dropSocket sid w).1.
Proof.
  intros Hlive. unfold dropSocket, disconnect.
  set (w0 := set_sockets (sockets w ∖ {[sid]}) w).
  destruct (loop_shrinks sid (map fst (rooms w0)) (w0, [])) as (Hs & Hr & Hh).
  intros c r room p Hreg Hheap Hp. rewrite Hs. cbn.
  apply elem_of_difference. split.
  - destruct (Hh r room Hheap) as (room0 & H0 & Hsub).
    eapply Hlive; [exact (Hr c r Hreg)|exact H0|by apply Hsub].
  - rewrite elem_of_singleton.
    eapply loop_removes; [|exact Hreg|exact Hheap|exact Hp].
    eapply registryGet_In. exact (Hr c r Hreg).
Qed.

Lemma live_handle flow sid ev w :
  sid ∈ sockets w → rostersLive w → rostersLive (handle flow sid ev w).1.
Proof.
  intros Hsid H. destruct ev; cbn [handle].
  - unfold create_room. destruct (registryGet roomCode (rooms w)) eqn:Hold; [done|].
    intros c r room p. cbn. intros Hreg Hheap Hp.
    apply lookup_app_Some in Hheap as [Hheap|[_ Hnew]].
    + assert (Hc : registryGet c (rooms w) = Some r).
      { destruct (decide (c = roomCode)) as [->|Hne].
        - rewrite (registryGet_app_new _ _ _ Hold) in Hreg. injection Hreg as <-.
          apply lookup_lt_Some in Hheap. lia.
        - clear -Hreg Hne. induction (rooms w) as [|[c' r'] rs IH]; cbn in *.
          + destruct (String.eqb_spec roomCode c); [congruence|done].
          + destruct (String.eqb c' c); [done|auto]. }
      by eapply H.
    + apply list_lookup_singleton_Some in Hnew as [_ <-]. by apply elem_of_nil in Hp.
  - unfold join_room.
    destruct (getRoom w roomCode) as [[ref room]|] eqn:Hget; [|done].
    destruct (String.eqb sid (hostId room)); [done|].
    set (live := filter (λ p, p_id p ∈ sockets w) (players room)).
    assert (Hlive : ∀ p, p ∈ live → p_id p ∈ sockets w).
    { intros p Hp. by apply list_elem_of_filter in Hp as [Hp _]. }
    destruct (maxPlayers room <=? _); [by apply live_putRoom|].
    destruct (existsb _ _); [by apply live_putRoom|].
    cbn [fst].
    set (room' := set_players _ room).
    apply (live_same (putRoom ref room' w)); [done|done|done|].
    apply live_putRoom; [exact H|]. cbn.
    intros p [Hp|Hp]%elem_of_app; [by apply Hlive|].
    apply list_elem_of_singleton in Hp as ->. exact Hsid.
  - unfold send_multiple_questions.
    destruct (getRoom w roomCode) as [[ref room]|] eqn:Hget; [|done].
    apply live_putRoom; [exact H|]. cbn. by eapply live_getRoom.
  - unfold start_quiz.
    destruct (getRoom w roomCode) as [[ref room]|] eqn:Hget; [|done].
    assert (H1 : rostersLive (putRoom ref (set_quizStarted true room) w)).
    { apply live_putRoom; [exact H|]. cbn. by eapply live_getRoom. }
    destruct flow; [by apply live_startNextQuestion|done].
  - unfold next_question. destruct flow; [done|].
    destruct (getRoom w roomCode) as [[ref room]|] eqn:Hget; [|done].
    destruct (negb (quizStarted room)); [done|].
    destruct (length (questions room) <=? currentIndex room)%nat; [done|].
    destruct (questions room !! currentIndex room); [|done].
    by eapply live_beginQuestion.
  - by apply live_answer.
  - unfold kick_player.
    destruct (getRoom w roomCode) as [[ref room]|] eqn:Hget; [|done].
    set (ps := filter _ (players room)).
    assert (H1 : rostersLive (putRoom ref (set_players ps room) w)).
    { apply live_putRoom; [exact H|]. cbn. intros p Hp.
      apply list_elem_of_filter in Hp as [_ Hp]. by eapply live_getRoom. }
    destruct (decide (playerId ∈ sockets w)); [|done].
    destruct (dropSocket playerId _) as [w2 effs2] eqn:Hdrop.
    change w2 with (w2, effs2).1. rewrite <- Hdrop. by apply live_dropSocket.
  - unfold end_quiz.
    destruct (getRoom w roomCode) as [[ref room]|]; [|done].
    cbn [fst]. apply live_delete. by apply live_clearTimer, live_clearTimer.
Qed.

Lemma live_fire flow tid w : rostersLive w → rostersLive (fire flow tid w).1.
Proof.
  intros H. unfold fire.
  destruct (find _ (timers w)) as [self|]; [|done].
  destruct (clock w <? t_due self); [done|].
  unfold runTask. destruct (t_task self) as [code ref tl|code ref q|code|code|code board].
  - cbn [fst]. destruct (tl - 1 <=? 0); [|done].
    unfold clearCountdownOf. cbn [heap set_timers].
    destruct (heap w !! ref); [|done]. by apply live_clearTimer.
  - unfold clearCountdownOf. cbn [heap set_timers].
    destruct (heap w !! ref); [|done].
    change (rostersLive (clearTimer (countdownInterval r)
              (set_timers (filter (λ t, t_id t ≠ t_id self) (timers w)) w))).
    by apply live_clearTimer.
  - by apply live_endCurrentQuestion.
  - by apply live_startNextQuestion.
  - cbn [fst]. by apply (live_delete code (set_timers _ w)).
Qed.

Lemma live_step flow i w : rostersLive w → rostersLive (step flow i w).1.
Proof.
  intros H. destruct i; cbn [step].
  - intros c r room p Hreg Hheap Hp. cbn. apply elem_of_union. right.
    by eapply H.
  - destruct (decide (sid ∈ sockets w)); [by apply live_handle|done].
  - destruct (decide (sid ∈ sockets w)); [|done]. by apply live_dropSocket.
  - done.
  - by apply live_fire.
Qed.

Lemma live_run flow inputs w : rostersLive w → rostersLive (run flow inputs w).1.
Proof.
  revert w. induction inputs as [|i rest IH]; intros w H; [done|].
  cbn [run]. pose proof (live_step flow i w H) as H1.
  destruct (step flow i w) as [w1 effs1]. specialize (IH w1 H1).
  by destruct (run flow rest w1) as [w2 effs2].
Qed.

Lemma reachable_rosters_live flow inputs :
  rostersLive (run flow inputs startup).1.
Proof. apply live_run. intros c r room p. by cbn. Qed.

(** *** [answeredPlayers] stays within the roster as long as nobody is kicked *)

Lemma within_same w w' :
  heap w' = heap w → answeredWithinRosters w → answeredWithinRosters w'.
Proof. unfold answeredWithinRosters. by intros ->. Qed.

Lemma within_putRoom ref room w :
  answeredWithinRosters w → answeredWithinRoster room →
  answeredWithinRosters (putRoom ref room w).
Proof.
  intros Hall Hroom r room'. cbn.
  intros [(-> & <- & _)|[_ H]]%list_lookup_insert_Some; [done|]. by eapply Hall.
Qed.

Lemma within_getRoom w roomCode ref room :
  answeredWithinRosters w → getRoom w roomCode = Some (ref, room) →
  answeredWithinRoster room.
Proof. intros Hall [_ Hheap]%getRoom_Some. by eapply Hall. Qed.

Lemma within_fields room room' :
  players room' = players room → answeredPlayers room' = answeredPlayers room →
  answeredWithinRoster room → answeredWithinRoster room'.
Proof. unfold answeredWithinRoster. by intros -> ->. Qed.

Lemma within_clearTimer h w :
  answeredWithinRosters w → answeredWithinRosters (clearTimer h w).
Proof. by destruct h. Qed.

Lemma within_beginQuestion roomCode ref room question w :
  answeredWithinRosters w →
  answeredWithinRosters (beginQuestion roomCode ref room question w).1.
Proof.
  intros H. unfold beginQuestion. cbn [setTimer fst snd].
  apply within_putRoom; [exact H|]. intros x. cbn. set_solver.
Qed.

Lemma within_startNextQuestion roomCode w :
  answeredWithinRosters w → answeredWithinRosters (startNextQuestion roomCode w).1.
Proof.
  intros H. unfold startNextQuestion.
  destruct (getRoom w roomCode) as [[ref room]|]; [|done].
  destruct (length (questions room) <=? currentIndex room)%nat; [done|].
  destruct (questions room !! currentIndex room); [|done].
  by apply within_beginQuestion.
Qed.

Lemma within_endCurrentQuestion flow roomCode w :
  answeredWithinRosters w →
  answeredWithinRosters (endCurrentQuestion flow roomCode w).1.
Proof.
  intros H. unfold endCurrentQuestion.
  destruct (getRoom w roomCode) as [[ref room]|] eqn:Hget; [|done].
  assert (Hput : answeredWithinRosters
                   (putRoom ref (set_currentIndex (S (currentIndex room)) room) w)).
  { apply within_putRoom; [exact H|].
    apply (within_fields room); [done|done|]. by eapply (within_getRoom w). }
  destruct flow; [done|].
  by destruct (length (questions room) <=? currentIndex room + 1)%nat.
Qed.

Lemma within_answer flow sid option roomCode w :
  answeredWithinRosters w → answeredWithinRosters (answer flow sid option roomCode w).1.
Proof.
  intros H. unfold answer.
  destruct (getRoom w roomCode) as [[ref room]|] eqn:Hget; [|done].
  destruct (findPlayer sid (players room)) as [player|] eqn:Hplayer; [|done].
  destruct (questions room !! currentIndex room) as [question|]; [|done].
  destruct (decide (sid ∈ answeredPlayers room)); [done|].
  fold (answeredRoom sid option player question (clock w) room).
  set (w1 := if isCorrect option question then _ else w).
  assert (H1 : answeredWithinRosters w1).
  { subst w1. by destruct (isCorrect option question). }
  assert (H2 : answeredWithinRosters
                 (putRoom ref (answeredRoom sid option player question (clock w) room) w1)).
  { apply within_putRoom; [exact H1|]. apply answeredRoom_within; [exact Hplayer|].
    by eapply (within_getRoom w). }
  destruct (Nat.eqb _ _); [|exact H2].
  change (answeredWithinRosters (setTimer (EndQuestion roomCode) 2500
            (clearTimer (countdownInterval (answeredRoom sid option player question
                                              (clock w) room))
               (clearTimer (timer (answeredRoom sid option player question
                                     (clock w) room))
                  (putRoom ref (answeredRoom sid option player question (clock w) room)
                           w1)))).2).
  by apply within_clearTimer, within_clearTimer.
Qed.

Lemma within_step flow i w :
  notKick i → rostersLive w → answeredWithinRosters w →
  answeredWithinRosters (step flow i w).1.
Proof.
  intros Hkick Hlive H. destruct i as [sid|sid ev|sid|ms|tid]; cbn [step].
  - done.
  - destruct (decide (sid ∈ sockets w)); [|done].
    destruct ev; cbn [handle]; [| | | | | |done|].
    + unfold create_room. destruct (registryGet roomCode (rooms w)); [done|].
      intros r room. cbn.
      intros [Hold|[_ Hnew]]%lookup_app_Some; [by eapply H|].
      apply list_lookup_singleton_Some in Hnew as [_ <-]. intros x. cbn. set_solver.
    + unfold join_room.
      destruct (getRoom w roomCode) as [[ref room]|] eqn:Hget; [|done].
      destruct (String.eqb sid (hostId room)); [done|].
      rewrite (filter_all _ _ (live_getRoom _ _ _ _ Hlive Hget)).
      pose proof (within_getRoom _ _ _ _ H Hget) as Hroom.
      destruct (maxPlayers room <=? _);
        [by apply within_putRoom, (within_fields room)|].
      destruct (existsb _ _);
        [by apply within_putRoom, (within_fields room)|].
      cbn [fst]. set (room' := set_players _ room).
      apply (within_same (putRoom ref room' w)); [done|].
      apply within_putRoom; [exact H|]. intros x Hx. cbn.
      rewrite map_app. apply elem_of_app. left. by apply Hroom.
    + unfold send_multiple_questions.
      destruct (getRoom w roomCode) as [[ref room]|] eqn:Hget; [|done].
      apply within_putRoom; [exact H|].
      apply (within_fields room); [done|done|]. by eapply (within_getRoom w).
    + unfold start_quiz.
      destruct (getRoom w roomCode) as [[ref room]|] eqn:Hget; [|done].
      assert (H1 : answeredWithinRosters (putRoom ref (set_quizStarted true room) w)).
      { apply within_putRoom; [exact H|].
        apply (within_fields room); [done|done|]. by eapply (within_getRoom w). }
      destruct flow; [by apply within_startNextQuestion|done].
    + unfold next_question. destruct flow; [done|].
      destruct (getRoom w roomCode) as [[ref room]|]; [|done].
      destruct (negb (quizStarted room)); [done|].
      destruct (length (questions room) <=? currentIndex room)%nat; [done|].
      destruct (questions room !! currentIndex room); [|done].
      by apply within_beginQuestion.
    + by apply within_answer.
    + unfold end_quiz.
      destruct (getRoom w roomCode) as [[ref room]|]; [|done].
      cbn [fst]. apply (within_same w); [|done].
      cbn. by rewrite !heap_clearTimer.
  - destruct (decide (sid ∈ sockets w)); [|done].
    unfold dropSocket. intros r room.
    apply disconnect_keeps_answered_within_roster. exact H.
  - done.
  - unfold fire.
    destruct (find _ (timers w)) as [self|]; [|done].
    destruct (clock w <? t_due self); [done|].
    unfold runTask.
    destruct (t_task self) as [code ref tl|code ref q|code|code|code board].
    + cbn [fst]. destruct (tl - 1 <=? 0); [|done].
      unfold clearCountdownOf. cbn [heap set_timers].
      destruct (heap w !! ref); [|done]. by apply within_clearTimer.
    + unfold clearCountdownOf. cbn [heap set_timers].
      destruct (heap w !! ref) as [room|]; [|done].
      change (answeredWithinRosters (clearTimer (countdownInterval room)
                (set_timers (filter (λ t, t_id t ≠ t_id self) (timers w)) w))).
      by apply within_clearTimer.
    + by apply within_endCurrentQuestion.
    + by apply within_startNextQuestion.
    + done.
Qed.

(** On every run without a [kick-player] event, everybody recorded as having
    answered is on the roster, in every room. *)
Lemma answered_within_roster_without_kick flow inputs :
  Forall notKick inputs →
  answeredWithinRosters (run flow inputs startup).1.
Proof.
  assert (Hrun : ∀ inputs w,
            Forall notKick inputs → rostersLive w → answeredWithinRosters w →
            answeredWithinRosters (run flow inputs w).1).
  { induction inputs0 as [|i rest IH]; intros w Hall Hlive H; [done|].
    apply Forall_cons in Hall as [Hi Hrest]. cbn [run].
    pose proof (within_step flow i w Hi Hlive H) as H1.
    pose proof (live_step flow i w Hlive) as Hlive1.
    destruct (step flow i w) as [w1 effs1]. specialize (IH w1 Hrest Hlive1 H1).
    by destruct (run flow rest w1) as [w2 effs2]. }
  intros Hall. apply Hrun; [exact Hall| |].
  - intros c r room p. by cbn.
  - intros r room. cbn. by rewrite lookup_nil.
Qed.

(** *** The operation that breaks the inclusion *)

(** C4 (the code breaks it): Ann has answered the running question and the
    host removes her with [kick-player].  She leaves the roster, and her
    socket is disconnected, but her identity stays in [answeredPlayers]:
    the [disconnect] handler only clears it for sockets it still finds on
    the roster. *)
Theorem C4_kick_leaves_answered_identity :
  let w := ann_has_answered in
  let w' := (step AutoAdvance (Receive "h" (Ev.kick_player "ABCD" "p1")) w).1 in
  (elements ∘ answeredPlayers <$> heap w !! 0%nat) = Some ["p1"]
  ∧ (map p_id <$> rosterOf w "ABCD") = Some ["p1"; "p2"]
  ∧ (elements ∘ answeredPlayers <$> heap w' !! 0%nat) = Some ["p1"]
  ∧ (map p_id <$> rosterOf w' "ABCD") = Some ["p2"]
  ∧ elements (sockets w') = ["h"; "p2"]
  ∧ ∃ room', heap w' !! 0%nat = Some room' ∧ ¬ answeredWithinRoster room'.
Proof.
  repeat split; try evaluated.
  eexists. split; [evaluated|].
  intros Hinv. specialize (Hinv "p1").
  assert (Hin : "p1" ∈ map p_id [mkPlayer 1 "p2" "Bo" 0]).
  { apply Hinv. decided. }
  refuted Hin.
Qed.

(** *** The outcomes of [join-room] *)

(** C8 (as amended): a [join-room] from the host of the room is dropped
    without any effect.  For every other socket the roster is first pruned to
    the players whose socket is live; if it then holds [maxPlayers] players
    or more, the sender gets the room-full error; otherwise, if a player on
    it has the same lower-cased, trimmed name, the sender gets the
    name-taken error; in both cases the roster stays the pruned roster.
    Otherwise a player with the sender's identity, the given name and score 0
    is appended and the new roster is broadcast together with [maxPlayers].
    In every state the server can reach the pruning removes nobody, so a
    rejected join leaves the roster unchanged. *)
Theorem C8_join_room :
  ∀ (sid : SocketId) (name : string) (roomCode : RoomCode) (w : World)
    (ref : RoomRef) (room : Room),
    getRoom w roomCode = Some (ref, room) →
    let live := filter (λ p, p_id p ∈ sockets w) (players room) in
    let taken := ∃ p, p ∈ live ∧ Js.trim (Js.toLowerCase (p_name p))
                                 = Js.trim (Js.toLowerCase name) in
    let result := join_room sid name roomCode w in
    (sid = hostId room → result = (w, []))
    ∧ (sid ≠ hostId room → maxPlayers room ≤ Z.of_nat (length live) →
       result.2 = [SocketEmit sid (Msg.room_full "Room is full.")]
       ∧ rosterOf result.1 roomCode = Some live)
    ∧ (sid ≠ hostId room → Z.of_nat (length live) < maxPlayers room → taken →
       result.2 = [SocketEmit sid (Msg.room_error "Name already taken.")]
       ∧ rosterOf result.1 roomCode = Some live)
    ∧ (sid ≠ hostId room → Z.of_nat (length live) < maxPlayers room → ¬ taken →
       ∃ obj : nat,
         let roster := live ++ [mkPlayer obj sid name 0] in
         rosterOf result.1 roomCode = Some roster
         ∧ result.2 = [SocketJoin sid roomCode;
                       RoomEmit roomCode (Msg.lobby_update roster (maxPlayers room))])
    ∧ (∀ (flow : Flow) (inputs : list Input),
         w = (run flow inputs startup).1 → live = players room).
Proof.
  intros sid name roomCode w ref room Hget live taken result.
  assert (Hreach : ∀ (flow : Flow) (inputs : list Input),
            w = (run flow inputs startup).1 → live = players room).
  { intros flow inputs ->. apply filter_all.
    eapply live_getRoom; [apply reachable_rosters_live|exact Hget]. }
  subst result. unfold join_room. rewrite Hget. fold live.
  destruct (String.eqb_spec sid (hostId room)) as [Hhost|Hother].
  { repeat split; try done. }
  split; [done|].
  pose proof (nameTaken_spec name live) as Htaken. fold taken in Htaken.
  destruct (Z.leb_spec (maxPlayers room) (Z.of_nat (length live))) as [Hfull|Hfree].
  { split; [|split; [|split]]; try (intros; lia); [|exact Hreach].
    intros _ _. split; [done|]. by eapply rosterOf_putRoom. }
  split; [intros; lia|].
  destruct (existsb (λ p, sameName (p_name p) name) live) eqn:Hdup.
  - pose proof (proj1 Htaken eq_refl) as Hyes. split; [|split].
    + intros _ _ _. split; [done|]. by eapply rosterOf_putRoom.
    + intros _ _ Hnot. by destruct Hnot.
    + exact Hreach.
  - split; [|split].
    + intros _ _ Hyes. apply (proj2 Htaken) in Hyes. discriminate.
    + intros _ _ _. exists (nextObj w). cbn zeta. split; [|done].
      unfold rosterOf. cbn [fst].
      set (room' := set_players (live ++ [mkPlayer (nextObj w) sid name 0]) room).
      rewrite (getRoom_same (putRoom ref room' w)) by done.
      by rewrite (getRoom_putRoom _ _ _ _ room' Hget).
    + exact Hreach.
Qed.

(** The witness of C8: a room for two holds Ann and Bo; a third socket asks
    to join and is turned down, the roster keeps its two players. *)
Lemma C8_join_room_witness :
  (join_room "p3" "Cy" "ABCD" full_room_for_two).2
    = [SocketEmit "p3" (Msg.room_full "Room is full.")]
  ∧ rosterOf (join_room "p3" "Cy" "ABCD" full_room_for_two).1 "ABCD"
    = Some [mkPlayer 0 "p1" "Ann" 0; mkPlayer 1 "p2" "Bo" 0].
Proof.
  destruct (C8_join_room "p3" "Cy" "ABCD" full_room_for_two 0%nat
              (default (newRoom "" None) (heap full_room_for_two !! 0%nat)))
    as (_ & Hfull & _).
  - evaluated.
  - apply Hfull; evaluated.
Defined.

(** Where C8 as stated fails: the host asks to join its own room, which has
    room for two and no player yet.  Nothing is appended and nothing is
    broadcast. *)
Lemma C8_host_join_is_dropped :
  let w := empty_room_for_two in
  (hostId <$> heap w !! 0%nat) = Some "h"
  ∧ (maxPlayers <$> heap w !! 0%nat) = Some 2
  ∧ rosterOf w "ABCD" = Some []
  ∧ (step AutoAdvance (Receive "h" (Ev.join_room "Host" "ABCD")) w).2 = []
  ∧ rosterOf (step AutoAdvance (Receive "h" (Ev.join_room "Host" "ABCD")) w).1 "ABCD"
    = Some [].
Proof. vm_compute. repeat split. Qed.


(** * The handlers as a whole

    What every run of the server keeps, what no input can do, and what the
    handlers for rooms, rosters, timers and leaderboards guarantee. *)

(** ** What an input can do to a room object

    [R] is a relation between the states of one room object that holds
    across every write the handlers make, except possibly those of [answer],
    [send-multiple-questions] and [join-room], which a statement admits
    input by input. *)

Section RoomFrame.

Variable R : Room → Room → Prop.
Hypothesis R_refl : ∀ room, R room room.
Hypothesis R_trans : ∀ a b c, R a b → R b c → R a c.
Hypothesis R_roster :
  ∀ room ps, ps `sublist_of` players room → R room (set_players ps room).
Hypothesis R_leave : ∀ room sid, R room (withoutPlayer sid room).
Hypothesis R_started : ∀ room, R room (set_quizStarted true room).
Hypothesis R_begin :
  ∀ room now interval timeout, R room (questionReset now interval timeout room).
Hypothesis R_end :
  ∀ room, R room (set_currentIndex (S (currentIndex room)) room).

Lemma framed_refl w : framed R w w.
Proof. intros ref room H. eauto. Qed.

Lemma framed_trans w1 w2 w3 : framed R w1 w2 → framed R w2 w3 → framed R w1 w3.
Proof.
  intros H12 H23 ref room H.
  destruct (H12 ref room H) as (room2 & H2 & HR2).
  destruct (H23 ref room2 H2) as (room3 & H3 & HR3). eauto.
Qed.

Lemma framed_same w w' : heap w' = heap w → framed R w w'.
Proof. intros Heq ref room H. exists room. by rewrite Heq. Qed.

Lemma framed_insert w w' ref room room' :
  heap w !! ref = Some room → R room room' →
  heap w' = <[ref := room']> (heap w) → framed R w w'.
Proof.
  intros Hheap HR Heq r x Hx. destruct (decide (ref = r)) as [->|Hne].
  - exists room'. rewrite Heq.
    rewrite list_lookup_insert_eq by (by eapply lookup_lt_Some).
    split; [done|]. congruence.
  - exists x. rewrite Heq. rewrite list_lookup_insert_ne by done. eauto.
Qed.

Lemma framed_append w w' new :
  heap w' = heap w ++ new → framed R w w'.
Proof.
  intros Heq ref room H. exists room. rewrite Heq. split; [|done].
  by apply lookup_app_l_Some.
Qed.

Lemma framed_beginQuestion roomCode ref room question w :
  heap w !! ref = Some room →
  framed R w (beginQuestion roomCode ref room question w).1.
Proof.
  intros Hheap. unfold beginQuestion. cbn [setTimer fst snd].
  eapply framed_insert; [exact Hheap| |reflexivity].
  apply (R_begin room (clock w) (nextTimer w) (S (nextTimer w))).
Qed.

Lemma framed_startNextQuestion roomCode w :
  framed R w (startNextQuestion roomCode w).1.
Proof.
  unfold startNextQuestion.
  destruct (getRoom w roomCode) as [[ref room]|] eqn:Hget; [|apply framed_refl].
  apply getRoom_Some in Hget as [_ Hheap].
  destruct (length (questions room) <=? currentIndex room)%nat; [apply framed_refl|].
  destruct (questions room !! currentIndex room); [|apply framed_refl].
  by apply framed_beginQuestion.
Qed.

Lemma framed_endCurrentQuestion flow roomCode w :
  framed R w (endCurrentQuestion flow roomCode w).1.
Proof.
  unfold endCurrentQuestion.
  destruct (getRoom w roomCode) as [[ref room]|] eqn:Hget; [|apply framed_refl].
  apply getRoom_Some in Hget as [_ Hheap].
  assert (Hput : ∀ w', heap w' = <[ref := set_currentIndex (S (currentIndex room)) room]> (heap w) →
                       framed R w w').
  { intros w'. eapply framed_insert; [exact Hheap|apply R_end]. }
  destruct flow; [by apply Hput|].
  destruct (length (questions room) <=? currentIndex room + 1)%nat; by apply Hput.
Qed.

Lemma framed_answer flow sid chosen roomCode w :
  answerEdits R → framed R w (answer flow sid chosen roomCode w).1.
Proof.
  intros R_answer. unfold answer.
  destruct (getRoom w roomCode) as [[ref room]|] eqn:Hget; [|apply framed_refl].
  apply getRoom_Some in Hget as [_ Hheap].
  destruct (findPlayer sid (players room)) as [player|] eqn:Hfind; [|apply framed_refl].
  destruct (questions room !! currentIndex room) as [question|] eqn:Hq;
    [|apply framed_refl].
  destruct (decide (sid ∈ answeredPlayers room)) as [|Hnew]; [apply framed_refl|].
  fold (answeredRoom sid chosen player question (clock w) room).
  eapply framed_insert;
    [exact Hheap|exact (R_answer room sid chosen player question (clock w) Hfind Hq Hnew)|].
  set (room2 := answeredRoom _ _ _ _ _ _).
  set (w1 := if isCorrect chosen question then _ else w).
  assert (H1 : heap w1 = heap w) by (subst w1; by destruct (isCorrect chosen question)).
  destruct (Nat.eqb _ _).
  - cbn [reveal setTimer fst heap]. rewrite !heap_clearTimer. cbn. by rewrite H1.
  - cbn. by rewrite H1.
Qed.

Lemma framed_leaveRoom sid acc roomCode :
  framed R acc.1 (leaveRoom sid acc roomCode).1.
Proof.
  destruct acc as [w effs]. cbn [fst]. unfold leaveRoom.
  destruct (getRoom w roomCode) as [[ref room]|] eqn:Hget; [|apply framed_refl].
  apply getRoom_Some in Hget as [_ Hheap].
  destruct (String.eqb (hostId room) sid); [by apply framed_same|].
  destruct (findPlayer sid (players room)); [|apply framed_refl].
  eapply framed_insert; [exact Hheap|apply (R_leave room sid)|reflexivity].
Qed.

Lemma framed_loop sid l acc :
  framed R acc.1 (fold_left (leaveRoom sid) l acc).1.
Proof.
  revert acc. induction l as [|c l IH]; intros acc; [apply framed_refl|].
  cbn [fold_left]. eapply framed_trans; [apply framed_leaveRoom|apply IH].
Qed.

Lemma framed_dropSocket sid w : framed R w (dropSocket sid w).1.
Proof.
  unfold dropSocket, disconnect.
  apply (framed_loop sid _ (set_sockets (sockets w ∖ {[sid]}) w, [])).
Qed.

Lemma framed_handle flow sid ev w :
  permits R (Receive sid ev) → framed R w (handle flow sid ev w).1.
Proof.
  intros (R_answer & R_load & R_join). destruct ev; cbn [handle].
  - unfold create_room. destruct (registryGet roomCode (rooms w)); [apply framed_refl|].
    by eapply framed_append.
  - specialize (R_join eq_refl). unfold join_room.
    destruct (getRoom w roomCode) as [[ref room]|] eqn:Hget; [|apply framed_refl].
    apply getRoom_Some in Hget as [_ Hheap].
    destruct (String.eqb sid (hostId room)); [apply framed_refl|].
    set (live := filter (λ p, p_id p ∈ sockets w) (players room)).
    assert (Hsub : live `sublist_of` players room) by apply sublist_filter.
    destruct (maxPlayers room <=? _).
    { eapply framed_insert; [exact Hheap|by apply R_roster|reflexivity]. }
    destruct (existsb _ _).
    { eapply framed_insert; [exact Hheap|by apply R_roster|reflexivity]. }
    eapply framed_insert; [exact Hheap|by apply R_join|reflexivity].
  - specialize (R_load eq_refl). unfold send_multiple_questions.
    destruct (getRoom w roomCode) as [[ref room]|] eqn:Hget; [|apply framed_refl].
    apply getRoom_Some in Hget as [_ Hheap].
    eapply framed_insert; [exact Hheap|apply R_load|reflexivity].
  - unfold start_quiz.
    destruct (getRoom w roomCode) as [[ref room]|] eqn:Hget; [|apply framed_refl].
    apply getRoom_Some in Hget as [_ Hheap].
    assert (H1 : framed R w (putRoom ref (set_quizStarted true room) w)).
    { eapply framed_insert; [exact Hheap|apply R_started|reflexivity]. }
    destruct flow; [|exact H1].
    eapply framed_trans; [exact H1|apply framed_startNextQuestion].
  - unfold next_question. destruct flow; [apply framed_refl|].
    destruct (getRoom w roomCode) as [[ref room]|] eqn:Hget; [|apply framed_refl].
    apply getRoom_Some in Hget as [_ Hheap].
    destruct (negb (quizStarted room)); [apply framed_refl|].
    destruct (length (questions room) <=? currentIndex room)%nat; [apply framed_refl|].
    destruct (questions room !! currentIndex room); [|apply framed_refl].
    by apply framed_beginQuestion.
  - apply framed_answer. by apply R_answer.
  - unfold kick_player.
    destruct (getRoom w roomCode) as [[ref room]|] eqn:Hget; [|apply framed_refl].
    apply getRoom_Some in Hget as [_ Hheap].
    set (ps := filter _ (players room)).
    assert (H1 : framed R w (putRoom ref (set_players ps room) w)).
    { eapply framed_insert; [exact Hheap| |reflexivity].
      apply R_roster, sublist_filter. }
    destruct (decide (playerId ∈ sockets w)); [|exact H1].
    pose proof (framed_dropSocket playerId (putRoom ref (set_players ps room) w)) as H2.
    destruct (dropSocket playerId _) as [w2 effs2]. cbn [fst] in *.
    by eapply framed_trans.
  - unfold end_quiz.
    destruct (getRoom w roomCode) as [[ref room]|]; [|apply framed_refl].
    apply framed_same. cbn. by rewrite !heap_clearTimer.
Qed.

Lemma framed_fire flow tid w : framed R w (fire flow tid w).1.
Proof.
  unfold fire.
  destruct (find _ (timers w)) as [self|]; [|apply framed_refl].
  destruct (clock w <? t_due self); [apply framed_refl|].
  unfold runTask. destruct (t_task self) as [code ref tl|code ref q|code|code|code board].
  - cbn [fst]. apply framed_same. destruct (tl - 1 <=? 0); [|done].
    unfold clearCountdownOf. cbn [heap set_timers].
    destruct (heap w !! ref); [|done]. by rewrite heap_clearTimer.
  - apply framed_same. cbn [reveal setTimer fst heap].
    unfold clearCountdownOf. cbn [heap set_timers].
    destruct (heap w !! ref); [|done]. by rewrite heap_clearTimer.
  - apply (framed_endCurrentQuestion flow code (set_timers _ w)).
  - apply (framed_startNextQuestion code (set_timers _ w)).
  - by apply framed_same.
Qed.

Lemma framed_step flow i w : permits R i → framed R w (step flow i w).1.
Proof.
  intros Hi. destruct i; cbn [step].
  - by apply framed_same.
  - destruct (decide (sid ∈ sockets w)); [by apply framed_handle|apply framed_refl].
  - destruct (decide (sid ∈ sockets w)); [apply framed_dropSocket|apply framed_refl].
  - by apply framed_same.
  - apply framed_fire.
Qed.

Lemma framed_run flow inputs w :
  Forall (permits R) inputs → framed R w (run flow inputs w).1.
Proof.
  revert w. induction inputs as [|i rest IH]; intros w Hall; [apply framed_refl|].
  apply Forall_cons in Hall as [Hi Hrest]. cbn [run].
  pose proof (framed_step flow i w Hi) as H1.
  destruct (step flow i w) as [w1 effs1]. specialize (IH w1 Hrest).
  destruct (run flow rest w1) as [w2 effs2]. by eapply framed_trans.
Qed.

End RoomFrame.

Ltac frame_edits :=
  repeat match goal with
         | |- Forall _ _ => apply Forall_true; intros ?
         | |- permits _ _ => split; [|split]; intros ?
         | |- answerEdits _ => intros ? ? ? ? ? ? ? ? ?; unfold answeredRoom
         | |- loadEdits _ => intros ? ?
         | |- joinEdits _ => intros ? ? ? ? ? ?
         end.

(** X1: a room object keeps its host and its player cap for as long as the
    server runs, whatever the clients send and whichever timers fire, and a
    quiz that has been started is never marked as not started again. *)
Theorem room_keeps_host_and_cap flow inputs w ref room :
  heap w !! ref = Some room →
  ∃ room', heap (run flow inputs w).1 !! ref = Some room'
           ∧ hostId room' = hostId room
           ∧ maxPlayers room' = maxPlayers room
           ∧ (quizStarted room = true → quizStarted room' = true).
Proof.
  apply (framed_run
           (λ a b, hostId b = hostId a ∧ maxPlayers b = maxPlayers a
                   ∧ (quizStarted a = true → quizStarted b = true))).
  - done.
  - intros a b c (? & ? & ?) (? & ? & ?). split; [congruence|]. split; [congruence|auto].
  - done.
  - done.
  - done.
  - done.
  - done.
  - frame_edits; try done.
    by destruct (isCorrect _ _).
Qed.

Lemma room_keeps_host_and_cap_witness :
  ∃ room',
    heap (run AutoAdvance
            ([Receive "p1" (Ev.answer "a" "ABCD");
              Receive "h" (Ev.kick_player "ABCD" "p2")] ++ seconds 3)
            quiz_running).1 !! 0%nat = Some room'
    ∧ hostId room' = "h"
    ∧ maxPlayers room' = 3
    ∧ (true = true → quizStarted room' = true).
Proof.
  destruct (room_keeps_host_and_cap AutoAdvance
              ([Receive "p1" (Ev.answer "a" "ABCD");
                Receive "h" (Ev.kick_player "ABCD" "p2")] ++ seconds 3)
              quiz_running 0%nat
              (default (newRoom "" None) (heap quiz_running !! 0%nat)))
    as (room' & Hheap & Hhost & Hcap & Hstarted).
  - evaluated.
  - exists room'. split; [exact Hheap|]. split; [rewrite Hhost; evaluated|].
    split; [rewrite Hcap; evaluated|]. intros _. apply Hstarted. evaluated.
Defined.

(** X2: only [send-multiple-questions] touches the questions of a room.
    Over any run without that event the question list of a room object
    stays what it was and its [currentIndex] never goes back. *)
Theorem questions_change_only_by_load flow inputs w ref room :
  Forall (λ i, isLoad i = false) inputs →
  heap w !! ref = Some room →
  ∃ room', heap (run flow inputs w).1 !! ref = Some room'
           ∧ questions room' = questions room
           ∧ (currentIndex room ≤ currentIndex room')%nat.
Proof.
  intros Hquiet.
  apply (framed_run
           (λ a b, questions b = questions a
                   ∧ (currentIndex a ≤ currentIndex b)%nat)).
  - done.
  - intros a b c [? ?] [? ?]. split; [congruence|lia].
  - done.
  - done.
  - done.
  - done.
  - intros a. cbn. split; [done|lia].
  - eapply Forall_impl; [exact Hquiet|]. intros i Hi.
    frame_edits; try done; try congruence.
    by destruct (isCorrect _ _).
Qed.

Lemma questions_change_only_by_load_witness :
  ∃ room',
    heap (run AutoAdvance
            ([Receive "p1" (Ev.answer "a" "ABCD");
              Receive "p2" (Ev.answer "b" "ABCD");
              Elapse 2500; Fire 2; Elapse 5000; Fire 3])
            quiz_running).1 !! 0%nat = Some room'
    ∧ questions room' = [mkQuestion "Q1" ["a"; "b"] "a" 10]
    ∧ (0 ≤ currentIndex room')%nat.
Proof.
  destruct (questions_change_only_by_load AutoAdvance
              ([Receive "p1" (Ev.answer "a" "ABCD");
                Receive "p2" (Ev.answer "b" "ABCD");
                Elapse 2500; Fire 2; Elapse 5000; Fire 3])
              quiz_running 0%nat
              (default (newRoom "" None) (heap quiz_running !! 0%nat)))
    as (room' & Hheap & Hqs & Hidx).
  - repeat constructor.
  - evaluated.
  - exists room'. split; [exact Hheap|]. split; [rewrite Hqs; evaluated|exact Hidx].
Defined.



Lemma identityOf_addScore obj pts ps :
  map identityOf (addScore obj pts ps) = map identityOf ps.
Proof.
  unfold addScore. rewrite map_map. apply map_ext. intros p.
  by destruct (Nat.eqb (p_obj p) obj).
Qed.

Lemma identityOf_sublist (ps qs : list Player) :
  ps `sublist_of` qs → map identityOf ps `sublist_of` map identityOf qs.
Proof. intros H. by apply (fmap_sublist identityOf). Qed.

(** X4: only [join-room] adds players.  Over any run without a [join-room]
    event the entries of a roster, taken as player object, socket identity
    and name, are entries it had before, in the order they had. *)
Theorem roster_grows_only_by_join flow inputs w ref room :
  Forall (λ i, isJoin i = false) inputs →
  heap w !! ref = Some room →
  ∃ room', heap (run flow inputs w).1 !! ref = Some room'
           ∧ map identityOf (players room')
               `sublist_of` map identityOf (players room).
Proof.
  intros Hquiet.
  apply (framed_run
           (λ a b, map identityOf (players b)
                     `sublist_of` map identityOf (players a))).
  - done.
  - intros a b c Hab Hbc. by etrans.
  - intros a ps Hsub. by apply identityOf_sublist.
  - intros a sid. cbn. apply identityOf_sublist, sublist_filter.
  - done.
  - done.
  - done.
  - eapply Forall_impl; [exact Hquiet|]. intros i Hi.
    frame_edits; try congruence; [|done].
    destruct (isCorrect _ _); [|done].
    cbn [players set_firstCorrectAnswered set_players set_answeredPlayers].
    by rewrite identityOf_addScore.
Qed.

Lemma roster_grows_only_by_join_witness :
  ∃ room',
    heap (run AutoAdvance
            ([Receive "p2" (Ev.answer "a" "ABCD"); Disconnect "p1"])
            ann_has_answered).1 !! 0%nat = Some room'
    ∧ map identityOf (players room')
        `sublist_of` [(0%nat, "p1", "Ann"); (1%nat, "p2", "Bo")].
Proof.
  destruct (roster_grows_only_by_join AutoAdvance
              ([Receive "p2" (Ev.answer "a" "ABCD"); Disconnect "p1"])
              ann_has_answered 0%nat
              (default (newRoom "" None) (heap ann_has_answered !! 0%nat)))
    as (room' & Hheap & Hsub).
  - repeat constructor.
  - evaluated.
  - exists room'. split; [exact Hheap|exact Hsub].
Defined.

(** ** The registry *)

Lemma shrinks_refl w : registryShrinks w w.
Proof. by split. Qed.

Lemma shrinks_trans w1 w2 w3 :
  registryShrinks w1 w2 → registryShrinks w2 w3 → registryShrinks w1 w3.
Proof. intros [? ?] [? ?]. split; [by etrans|congruence]. Qed.

Lemma shrinks_same w w' :
  rooms w' = rooms w → length (heap w') = length (heap w) → registryShrinks w w'.
Proof. intros Hr Hh. split; [by rewrite Hr|exact Hh]. Qed.

Lemma shrinks_delete roomCode w w' :
  rooms w' = registryDelete roomCode (rooms w) →
  length (heap w') = length (heap w) → registryShrinks w w'.
Proof. intros Hr Hh. split; [rewrite Hr; apply sublist_filter|exact Hh]. Qed.

Ltac same_registry :=
  apply shrinks_same;
  repeat first [ rewrite rooms_clearTimer | rewrite heap_clearTimer
               | rewrite length_insert | progress cbn ];
  done.

Lemma shrinks_beginQuestion roomCode ref room question w :
  registryShrinks w (beginQuestion roomCode ref room question w).1.
Proof. unfold beginQuestion. cbn [setTimer fst snd]. same_registry. Qed.

Lemma shrinks_startNextQuestion roomCode w :
  registryShrinks w (startNextQuestion roomCode w).1.
Proof.
  unfold startNextQuestion.
  destruct (getRoom w roomCode) as [[ref room]|]; [|apply shrinks_refl].
  destruct (length (questions room) <=? currentIndex room)%nat; [apply shrinks_refl|].
  destruct (questions room !! currentIndex room); [|apply shrinks_refl].
  apply shrinks_beginQuestion.
Qed.

Lemma shrinks_endCurrentQuestion flow roomCode w :
  registryShrinks w (endCurrentQuestion flow roomCode w).1.
Proof.
  unfold endCurrentQuestion.
  destruct (getRoom w roomCode) as [[ref room]|]; [|apply shrinks_refl].
  destruct flow; [same_registry|].
  destruct (length (questions room) <=? currentIndex room + 1)%nat; same_registry.
Qed.

Lemma shrinks_answer flow sid chosen roomCode w :
  registryShrinks w (answer flow sid chosen roomCode w).1.
Proof.
  unfold answer.
  destruct (getRoom w roomCode) as [[ref room]|]; [|apply shrinks_refl].
  destruct (findPlayer sid (players room)) as [player|]; [|apply shrinks_refl].
  destruct (questions room !! currentIndex room) as [question|]; [|apply shrinks_refl].
  destruct (decide (sid ∈ answeredPlayers room)); [apply shrinks_refl|].
  destruct (isCorrect chosen question), (Nat.eqb _ _); same_registry.
Qed.

Lemma shrinks_leaveRoom sid acc roomCode :
  registryShrinks acc.1 (leaveRoom sid acc roomCode).1.
Proof.
  destruct acc as [w effs]. cbn [fst]. unfold leaveRoom.
  destruct (getRoom w roomCode) as [[ref room]|]; [|apply shrinks_refl].
  destruct (String.eqb (hostId room) sid); [by eapply shrinks_delete|].
  destruct (findPlayer sid (players room)); [same_registry|apply shrinks_refl].
Qed.

Lemma shrinks_loop sid l acc :
  registryShrinks acc.1 (fold_left (leaveRoom sid) l acc).1.
Proof.
  revert acc. induction l as [|c l IH]; intros acc; [apply shrinks_refl|].
  cbn [fold_left]. eapply shrinks_trans; [apply shrinks_leaveRoom|apply IH].
Qed.

Lemma shrinks_dropSocket sid w : registryShrinks w (dropSocket sid w).1.
Proof.
  unfold dropSocket, disconnect.
  apply (shrinks_loop sid _ (set_sockets (sockets w ∖ {[sid]}) w, [])).
Qed.

Lemma shrinks_handle flow sid ev w :
  isCreate (Receive sid ev) = false →
  registryShrinks w (handle flow sid ev w).1.
Proof.
  intros Hev. destruct ev; cbn [handle]; [done| | | | | | |].
  - unfold join_room.
    destruct (getRoom w roomCode) as [[ref room]|]; [|apply shrinks_refl].
    destruct (String.eqb sid (hostId room)); [apply shrinks_refl|].
    destruct (maxPlayers room <=? _); [same_registry|].
    destruct (existsb _ _); same_registry.
  - unfold send_multiple_questions.
    destruct (getRoom w roomCode) as [[ref room]|]; [same_registry|apply shrinks_refl].
  - unfold start_quiz.
    destruct (getRoom w roomCode) as [[ref room]|]; [|apply shrinks_refl].
    destruct flow; [|same_registry].
    eapply shrinks_trans; [|apply shrinks_startNextQuestion]. same_registry.
  - unfold next_question. destruct flow; [apply shrinks_refl|].
    destruct (getRoom w roomCode) as [[ref room]|]; [|apply shrinks_refl].
    destruct (negb (quizStarted room)); [apply shrinks_refl|].
    destruct (length (questions room) <=? currentIndex room)%nat; [apply shrinks_refl|].
    destruct (questions room !! currentIndex room); [|apply shrinks_refl].
    apply shrinks_beginQuestion.
  - apply shrinks_answer.
  - unfold kick_player.
    destruct (getRoom w roomCode) as [[ref room]|]; [|apply shrinks_refl].
    set (ps := filter _ (players room)).
    destruct (decide (playerId ∈ sockets w)); [|same_registry].
    pose proof (shrinks_dropSocket playerId (putRoom ref (set_players ps room) w)) as H2.
    destruct (dropSocket playerId _) as [w2 effs2]. cbn [fst] in *.
    eapply shrinks_trans; [|exact H2]. same_registry.
  - unfold end_quiz.
    destruct (getRoom w roomCode) as [[ref room]|]; [|apply shrinks_refl].
    eapply shrinks_delete; cbn; by rewrite ?rooms_clearTimer, ?heap_clearTimer.
Qed.

Lemma shrinks_fire flow tid w : registryShrinks w (fire flow tid w).1.
Proof.
  unfold fire.
  destruct (find _ (timers w)) as [self|]; [|apply shrinks_refl].
  destruct (clock w <? t_due self); [apply shrinks_refl|].
  unfold runTask. destruct (t_task self) as [code ref tl|code ref q|code|code|code board].
  - cbn [fst]. destruct (tl - 1 <=? 0); [|same_registry].
    unfold clearCountdownOf. cbn [heap set_timers].
    destruct (heap w !! ref); same_registry.
  - cbn [reveal setTimer fst]. unfold clearCountdownOf. cbn [heap set_timers].
    destruct (heap w !! ref); same_registry.
  - apply (shrinks_endCurrentQuestion flow code (set_timers _ w)).
  - apply (shrinks_startNextQuestion code (set_timers _ w)).
  - by eapply shrinks_delete.
Qed.

Lemma shrinks_step flow i w :
  isCreate i = false → registryShrinks w (step flow i w).1.
Proof.
  intros Hi. destruct i; cbn [step].
  - same_registry.
  - destruct (decide (sid ∈ sockets w)); [by apply shrinks_handle|apply shrinks_refl].
  - destruct (decide (sid ∈ sockets w)); [apply shrinks_dropSocket|apply shrinks_refl].
  - same_registry.
  - apply shrinks_fire.
Qed.

(** X5: only [create-room] registers a room.  Over any run without that
    event the registry never gains a code or changes the order of those it
    has, and no room object is made: every other input leaves the registry
    alone or deletes from it. *)
Theorem registry_grows_only_by_create flow inputs w :
  Forall (λ i, isCreate i = false) inputs →
  rooms (run flow inputs w).1 `sublist_of` rooms w
  ∧ length (heap (run flow inputs w).1) = length (heap w).
Proof.
  revert w. induction inputs as [|i rest IH]; intros w Hall; [done|].
  apply Forall_cons in Hall as [Hi Hrest]. cbn [run].
  pose proof (shrinks_step flow i w Hi) as H1.
  destruct (step flow i w) as [w1 effs1]. specialize (IH w1 Hrest).
  destruct (run flow rest w1) as [w2 effs2]. by eapply shrinks_trans.
Qed.

Lemma registry_grows_only_by_create_witness :
  rooms (run AutoAdvance
           ([Receive "p1" (Ev.answer "a" "ABCD");
             Receive "p2" (Ev.join_room "Bob" "WXYZ");
             Receive "h" (Ev.end_quiz "ABCD")])
           quiz_running).1 `sublist_of` [("ABCD", 0%nat)]
  ∧ length (heap (run AutoAdvance
                    ([Receive "p1" (Ev.answer "a" "ABCD");
                      Receive "p2" (Ev.join_room "Bob" "WXYZ");
                      Receive "h" (Ev.end_quiz "ABCD")])
                    quiz_running).1) = 1%nat.
Proof.
  apply (registry_grows_only_by_create AutoAdvance
           ([Receive "p1" (Ev.answer "a" "ABCD");
             Receive "p2" (Ev.join_room "Bob" "WXYZ");
             Receive "h" (Ev.end_quiz "ABCD")])
           quiz_running).
  repeat constructor.
Defined.

Lemma registryGet_None_fresh roomCode rs :
  registryGet roomCode rs = None → roomCode ∉ map fst rs.
Proof.
  induction rs as [|[c r] rs IH]; cbn [registryGet map fst].
  - intros _. apply not_elem_of_nil.
  - destruct (String.eqb_spec c roomCode); [done|].
    intros H. apply not_elem_of_cons. split; [done|auto].
Qed.

Lemma wellFormed_shrinks w w' :
  registryShrinks w w' → registryWellFormed w → registryWellFormed w'.
Proof.
  intros [Hsub Hlen] (Hcodes & Hrefs & Hbound). split; [|split].
  - eapply sublist_NoDup; [exact Hcodes|]. by apply (fmap_sublist fst).
  - eapply sublist_NoDup; [exact Hrefs|]. by apply (fmap_sublist snd).
  - intros e He. rewrite Hlen. apply Hbound. by eapply elem_of_sublist.
Qed.

Lemma wellFormed_create sid roomCode requested w :
  registryWellFormed w → registryWellFormed (create_room sid roomCode requested w).1.
Proof.
  intros (Hcodes & Hrefs & Hbound). unfold create_room.
  destruct (registryGet roomCode (rooms w)) eqn:Hold; [done|].
  cbn [fst]. unfold registryWellFormed. cbn [rooms heap].
  rewrite !map_app, length_app. cbn [map fst snd length]. split; [|split].
  - apply NoDup_app. split; [exact Hcodes|]. split; [|apply NoDup_singleton].
    intros c Hc ->%list_elem_of_singleton.
    by apply (registryGet_None_fresh _ _ Hold).
  - apply NoDup_app. split; [exact Hrefs|]. split; [|apply NoDup_singleton].
    intros r Hr ->%list_elem_of_singleton.
    apply list_elem_of_fmap in Hr as (e & He & Hin).
    apply Hbound in Hin. unfold RoomRef, RoomCode in *. lia.
  - intros e [He|He]%elem_of_app.
    + apply Hbound in He. unfold RoomRef, RoomCode in *. lia.
    + apply list_elem_of_singleton in He as ->. cbn. lia.
Qed.

Lemma wellFormed_step flow i w :
  registryWellFormed w → registryWellFormed (step flow i w).1.
Proof.
  intros H. destruct (isCreate i) eqn:Hi.
  - destruct i as [|sid ev| | |]; try done. destruct ev; try done. cbn [step].
    destruct (decide (sid ∈ sockets w)); [|done]. by apply wellFormed_create.
  - eapply wellFormed_shrinks; [by apply shrinks_step|exact H].
Qed.

Lemma wellFormed_run flow inputs w :
  registryWellFormed w → registryWellFormed (run flow inputs w).1.
Proof.
  revert w. induction inputs as [|i rest IH]; intros w H; [done|].
  cbn [run]. pose proof (wellFormed_step flow i w H) as H1.
  destruct (step flow i w) as [w1 effs1]. specialize (IH w1 H1).
  by destruct (run flow rest w1) as [w2 effs2].
Qed.

Lemma wellFormed_startup : registryWellFormed startup.
Proof.
  split; [apply NoDup_nil_2|]. split; [apply NoDup_nil_2|].
  intros e He. by apply elem_of_nil in He.
Qed.

Lemma registryGet_elem_of roomCode ref rs :
  registryGet roomCode rs = Some ref → (roomCode, ref) ∈ rs.
Proof.
  induction rs as [|[c r] rs IH]; [done|]. cbn [registryGet].
  destruct (String.eqb_spec c roomCode) as [->|Hne].
  - intros [= ->]. apply list_elem_of_here.
  - intros H. apply list_elem_of_further. auto.
Qed.

Lemma elem_of_registryGet roomCode ref rs :
  NoDup (map fst rs) → (roomCode, ref) ∈ rs → registryGet roomCode rs = Some ref.
Proof.
  induction rs as [|[c r] rs IH]; cbn [map fst registryGet].
  - intros _ H. by apply elem_of_nil in H.
  - intros [Hc Hrs]%NoDup_cons [Heq|Hin]%elem_of_cons.
    + injection Heq as <- <-. by rewrite String.eqb_refl.
    + destruct (String.eqb_spec c roomCode) as [->|Hne]; [|auto].
      exfalso. apply Hc. apply list_elem_of_fmap. by exists (roomCode, ref).
Qed.

Lemma wellFormed_distinct w code code' ref :
  registryWellFormed w →
  registryGet code (rooms w) = Some ref →
  registryGet code' (rooms w) = Some ref → code = code'.
Proof.
  intros (_ & Hrefs & _) H1%registryGet_elem_of H2%registryGet_elem_of.
  apply list_elem_of_lookup in H1 as [i Hi], H2 as [j Hj].
  assert (Hij : i = j).
  { eapply (NoDup_lookup (map snd (rooms w))); [exact Hrefs| |].
    - change (map snd (rooms w)) with (snd <$> rooms w).
      rewrite list_lookup_fmap, Hi. reflexivity.
    - change (map snd (rooms w)) with (snd <$> rooms w).
      rewrite list_lookup_fmap, Hj. reflexivity. }
  subst j. congruence.
Qed.

Lemma wellFormed_lookup w code ref :
  registryWellFormed w →
  registryGet code (rooms w) = Some ref → is_Some (heap w !! ref).
Proof.
  intros (_ & _ & Hbound) Hreg.
  pose proof (Hbound _ (registryGet_elem_of _ _ _ Hreg)) as Hlt. cbn in Hlt.
  by apply lookup_lt_is_Some_2.
Qed.

(** X6: in every world the server can reach, each registered code stands
    for a room object of its own: the registry lists no code twice, two
    codes never share a room object, and looking a registered code up always
    finds its room. *)
Theorem reachable_registry_well_formed flow inputs :
  let w := (run flow inputs startup).1 in
  NoDup (map fst (rooms w))
  ∧ (∀ code code' ref,
       registryGet code (rooms w) = Some ref →
       registryGet code' (rooms w) = Some ref → code = code')
  ∧ (∀ code ref, registryGet code (rooms w) = Some ref →
                 ∃ room, getRoom w code = Some (ref, room)).
Proof.
  intros w.
  pose proof (wellFormed_run flow inputs startup wellFormed_startup) as Hwf.
  fold w in Hwf. split; [apply Hwf|]. split.
  - intros code code' ref. by apply wellFormed_distinct.
  - intros code ref Hreg.
    destruct (wellFormed_lookup w code ref Hwf Hreg) as [room Hroom].
    exists room. apply getRoom_Some. by split.
Qed.

(** ** One room at a time *)

Lemma apart_refl roomCode w : apart roomCode w w.
Proof. by intros other _. Qed.

Lemma apart_trans roomCode w1 w2 w3 :
  apart roomCode w1 w2 → apart roomCode w2 w3 → apart roomCode w1 w3.
Proof. intros H12 H23 other Hne. by rewrite H23, H12. Qed.

Lemma apart_same roomCode w w' :
  rooms w' = rooms w → heap w' = heap w → apart roomCode w w'.
Proof. intros Hr Hh other _. by apply getRoom_same. Qed.

Lemma apart_insert roomCode w w' ref room' :
  registryWellFormed w →
  registryGet roomCode (rooms w) = Some ref →
  rooms w' = rooms w → heap w' = <[ref := room']> (heap w) →
  apart roomCode w w'.
Proof.
  intros Hwf Hreg Hr Hh other Hne. unfold getRoom. rewrite Hr, Hh.
  destruct (registryGet other (rooms w)) as [r|] eqn:Hother; [|done]. cbn.
  rewrite list_lookup_insert_ne; [done|].
  intros <-. apply Hne. by eapply wellFormed_distinct.
Qed.

Lemma apart_delete roomCode w w' :
  rooms w' = registryDelete roomCode (rooms w) → heap w' = heap w →
  apart roomCode w w'.
Proof.
  intros Hr Hh other Hne. unfold getRoom. rewrite Hr, Hh.
  by rewrite registryGet_delete_ne.
Qed.

Lemma registryGet_app_other roomCode other ref rs :
  other ≠ roomCode →
  registryGet other (rs ++ [(roomCode, ref)]) = registryGet other rs.
Proof.
  intros Hne. induction rs as [|[c r] rs IH]; cbn.
  - destruct (String.eqb_spec roomCode other); [congruence|done].
  - destruct (String.eqb c other); [done|exact IH].
Qed.

Lemma apart_beginQuestion roomCode ref room question w :
  registryWellFormed w → getRoom w roomCode = Some (ref, room) →
  apart roomCode w (beginQuestion roomCode ref room question w).1.
Proof.
  intros Hwf [Hreg _]%getRoom_Some. unfold beginQuestion. cbn [setTimer fst snd].
  by eapply apart_insert.
Qed.

Lemma apart_startNextQuestion roomCode w :
  registryWellFormed w → apart roomCode w (startNextQuestion roomCode w).1.
Proof.
  intros Hwf. unfold startNextQuestion.
  destruct (getRoom w roomCode) as [[ref room]|] eqn:Hget; [|apply apart_refl].
  destruct (length (questions room) <=? currentIndex room)%nat; [apply apart_refl|].
  destruct (questions room !! currentIndex room); [|apply apart_refl].
  by apply apart_beginQuestion.
Qed.

Lemma apart_answer flow sid chosen roomCode w :
  registryWellFormed w → apart roomCode w (answer flow sid chosen roomCode w).1.
Proof.
  intros Hwf. unfold answer.
  destruct (getRoom w roomCode) as [[ref room]|] eqn:Hget; [|apply apart_refl].
  apply getRoom_Some in Hget as [Hreg _].
  destruct (findPlayer sid (players room)) as [player|]; [|apply apart_refl].
  destruct (questions room !! currentIndex room) as [question|]; [|apply apart_refl].
  destruct (decide (sid ∈ answeredPlayers room)); [apply apart_refl|].
  destruct (isCorrect chosen question), (Nat.eqb _ _);
    (eapply apart_insert; [exact Hwf|exact Hreg| |];
     repeat first [ rewrite rooms_clearTimer | rewrite heap_clearTimer
                  | progress cbn ]; reflexivity).
Qed.

(** X7: rooms are isolated from one another.  In every world the server can
    reach, an event other than [kick-player] changes nothing for the rooms
    registered under another code than the one it is addressed to: they stay
    registered, with the same room object in the same state. *)
Theorem rooms_are_isolated flow inputs sid ev other :
  let w := (run flow inputs startup).1 in
  notKick (Receive sid ev) → other ≠ targetOf ev →
  getRoom (handle flow sid ev w).1 other = getRoom w other.
Proof.
  intros w Hev Hother.
  pose proof (wellFormed_run flow inputs startup wellFormed_startup) as Hwf.
  fold w in Hwf. clearbody w.
  enough (H : apart (targetOf ev) w (handle flow sid ev w).1) by by apply H.
  clear other Hother. destruct ev; cbn [handle targetOf]; try done.
  - unfold create_room.
    destruct (registryGet roomCode (rooms w)) eqn:Hold; [apply apart_refl|].
    intros other Hne. unfold getRoom. cbn [fst rooms heap].
    rewrite registryGet_app_other by done.
    destruct (registryGet other (rooms w)) as [r|] eqn:Hreg; [|done]. cbn.
    destruct (wellFormed_lookup w other r Hwf Hreg) as [room Hroom].
    by rewrite (lookup_app_l_Some _ _ _ _ Hroom), Hroom.
  - unfold join_room.
    destruct (getRoom w roomCode) as [[ref room]|] eqn:Hget; [|apply apart_refl].
    apply getRoom_Some in Hget as [Hreg _].
    destruct (String.eqb sid (hostId room)); [apply apart_refl|].
    destruct (maxPlayers room <=? _); [by eapply apart_insert|].
    destruct (existsb _ _); by eapply apart_insert.
  - unfold send_multiple_questions.
    destruct (getRoom w roomCode) as [[ref room]|] eqn:Hget; [|apply apart_refl].
    apply getRoom_Some in Hget as [Hreg _]. by eapply apart_insert.
  - unfold start_quiz.
    destruct (getRoom w roomCode) as [[ref room]|] eqn:Hget; [|apply apart_refl].
    apply getRoom_Some in Hget as [Hreg _].
    assert (H1 : apart roomCode w (putRoom ref (set_quizStarted true room) w))
      by by eapply apart_insert.
    destruct flow; [|exact H1].
    eapply apart_trans; [exact H1|]. apply apart_startNextQuestion.
    eapply wellFormed_shrinks; [|exact Hwf]. same_registry.
  - unfold next_question. destruct flow; [apply apart_refl|].
    destruct (getRoom w roomCode) as [[ref room]|] eqn:Hget; [|apply apart_refl].
    destruct (negb (quizStarted room)); [apply apart_refl|].
    destruct (length (questions room) <=? currentIndex room)%nat; [apply apart_refl|].
    destruct (questions room !! currentIndex room); [|apply apart_refl].
    by apply apart_beginQuestion.
  - by apply apart_answer.
  - unfold end_quiz.
    destruct (getRoom w roomCode) as [[ref room]|]; [|apply apart_refl].
    eapply apart_delete; cbn; by rewrite ?rooms_clearTimer, ?heap_clearTimer.
Qed.

Lemma rooms_are_isolated_witness :
  getRoom (handle AutoAdvance "p1" (Ev.answer "a" "ABCD")
             (run AutoAdvance two_rooms startup).1).1 "WXYZ"
  = getRoom (run AutoAdvance two_rooms startup).1 "WXYZ".
Proof.
  apply (rooms_are_isolated AutoAdvance two_rooms "p1" (Ev.answer "a" "ABCD") "WXYZ").
  - exact I.
  - discriminate.
Defined.

(** X8: an event other than [kick-player] is answered only to its sender
    and to the channel of the room it is addressed to: whatever the state,
    the handler emits nothing to another room and nothing to another
    socket, and joins no other socket to a channel. *)
Theorem replies_stay_in_the_room flow sid ev w :
  notKick (Receive sid ev) →
  Forall (addressedTo sid (targetOf ev)) (handle flow sid ev w).2.
Proof.
  intros Hev. destruct ev; cbn [handle targetOf]; try done.
  - unfold create_room. cbn. by repeat constructor.
  - unfold join_room.
    destruct (getRoom w roomCode) as [[ref room]|]; [|by repeat constructor].
    destruct (String.eqb sid (hostId room)); [constructor|].
    destruct (maxPlayers room <=? _); [by repeat constructor|].
    destruct (existsb _ _); by repeat constructor.
  - unfold send_multiple_questions.
    destruct (getRoom w roomCode) as [[ref room]|]; constructor.
  - unfold start_quiz.
    destruct (getRoom w roomCode) as [[ref room]|]; [|constructor].
    destruct flow; [|by repeat constructor].
    unfold startNextQuestion.
    destruct (getRoom (putRoom _ _ _) roomCode) as [[ref1 room1]|]; [|constructor].
    destruct (length (questions room1) <=? currentIndex room1)%nat;
      [by repeat constructor|].
    destruct (questions room1 !! currentIndex room1); by repeat constructor.
  - unfold next_question. destruct flow; [constructor|].
    destruct (getRoom w roomCode) as [[ref room]|]; [|constructor].
    destruct (negb (quizStarted room)); [constructor|].
    destruct (length (questions room) <=? currentIndex room)%nat; [constructor|].
    destruct (questions room !! currentIndex room); by repeat constructor.
  - unfold answer.
    destruct (getRoom w roomCode) as [[ref room]|]; [|constructor].
    destruct (findPlayer sid (players room)) as [player|]; [|constructor].
    destruct (questions room !! currentIndex room) as [question|]; [|constructor].
    destruct (decide (sid ∈ answeredPlayers room)); [constructor|].
    destruct (Nat.eqb _ _); [|constructor].
    destruct flow; by repeat constructor.
  - unfold end_quiz.
    destruct (getRoom w roomCode) as [[ref room]|]; by repeat constructor.
Qed.

Lemma replies_stay_in_the_room_witness :
  Forall (addressedTo "p2" "ABCD")
         (handle AutoAdvance "p2" (Ev.answer "b" "ABCD") bo_is_last).2.
Proof.
  apply (replies_stay_in_the_room AutoAdvance "p2" (Ev.answer "b" "ABCD") bo_is_last).
  exact I.
Defined.

(** ** The leaderboards *)






(** ** [create-room] *)


(** ** Properties of every room object

    [I] holds of a new room and is kept by every write of the handlers
    (those of [answer], [send-multiple-questions] and [join-room] are
    admitted input by input), so it holds of every room object the server
    ever has. *)

Section RoomInvariant.

Variable I : Room → Prop.
Hypothesis I_new : ∀ sid requested, I (newRoom sid requested).
Hypothesis I_roster :
  ∀ room ps, ps `sublist_of` players room → I room → I (set_players ps room).
Hypothesis I_leave : ∀ room sid, I room → I (withoutPlayer sid room).
Hypothesis I_started : ∀ room, I room → I (set_quizStarted true room).
Hypothesis I_begin :
  ∀ room now interval timeout,
    I room → I (questionReset now interval timeout room).
Hypothesis I_end :
  ∀ room, I room → I (set_currentIndex (S (currentIndex room)) room).

Lemma invariant_step flow i w :
  permits (λ a b, I a → I b) i →
  (∀ ref room, heap w !! ref = Some room → I room) →
  ∀ ref room, heap (step flow i w).1 !! ref = Some room → I room.
Proof.
  intros Hi Hall ref room' Hroom'.
  assert (Hframed : framed (λ a b, I a → I b) w (step flow i w).1).
  { apply (framed_step (λ a b, I a → I b));
      [by auto|by auto|by auto|by auto|by auto|by auto|by auto|exact Hi]. }
  destruct (heap w !! ref) as [room|] eqn:Hroom.
  - destruct (Hframed ref room Hroom) as (room'' & H'' & HI).
    rewrite Hroom' in H''. injection H'' as <-. apply HI. by eapply Hall.
  - destruct (isCreate i) eqn:Hc.
    + destruct i as [|sid ev| | |]; try done. destruct ev; try done.
      revert Hroom'. cbn [step].
      destruct (decide (sid ∈ sockets w)); [|cbn [fst]; congruence].
      cbn [handle]. unfold create_room.
      destruct (registryGet roomCode (rooms w)); [cbn [fst]; congruence|].
      cbn [fst heap]. intros [Hold|[_ Hnew]]%lookup_app_Some; [congruence|].
      apply list_lookup_singleton_Some in Hnew as [_ <-]. apply I_new.
    + destruct (shrinks_step flow i w Hc) as [_ Hlen].
      apply lookup_lt_Some in Hroom'. rewrite Hlen in Hroom'.
      apply lookup_lt_is_Some_2 in Hroom' as [room Hsome]. congruence.
Qed.

Lemma invariant_run flow inputs w :
  Forall (permits (λ a b, I a → I b)) inputs →
  (∀ ref room, heap w !! ref = Some room → I room) →
  ∀ ref room, heap (run flow inputs w).1 !! ref = Some room → I room.
Proof.
  revert w. induction inputs as [|i rest IH]; intros w Hall H; [done|].
  apply Forall_cons in Hall as [Hi Hrest].
  cbn [run]. pose proof (invariant_step flow i w Hi H) as H1.
  destruct (step flow i w) as [w1 effs1]. specialize (IH w1 Hrest H1).
  by destruct (run flow rest w1) as [w2 effs2].
Qed.

End RoomInvariant.

(** ** [send-multiple-questions] *)

Lemma trimEnd_head c s :
  Js.isWhiteSpace c = false → Js.trimEnd (String c s) = String c (Js.trimEnd s).
Proof. intros W. cbn [Js.trimEnd]. destruct (Js.trimEnd s); by rewrite ?W. Qed.

Lemma trimStart_head s :
  Js.trimStart s = ""
  ∨ ∃ c t, Js.trimStart s = String c t ∧ Js.isWhiteSpace c = false.
Proof.
  induction s as [|c s IH]; [by left|]. cbn [Js.trimStart].
  destruct (Js.isWhiteSpace c) eqn:W; [exact IH|]. right. by exists c, s.
Qed.

Lemma trimEnd_idem s : Js.trimEnd (Js.trimEnd s) = Js.trimEnd s.
Proof.
  induction s as [|c s IH]; [done|]. cbn [Js.trimEnd].
  destruct (Js.trimEnd s) as [|d t] eqn:E.
  - destruct (Js.isWhiteSpace c) eqn:W; [done|]. cbn. by rewrite W.
  - change (Js.trimEnd (String c (String d t)))
      with (match Js.trimEnd (String d t) with
            | EmptyString =>
                if Js.isWhiteSpace c then EmptyString else String c EmptyString
            | String a b => String c (String a b)
            end).
    by rewrite IH.
Qed.

Lemma trim_idem s : Js.trim (Js.trim s) = Js.trim s.
Proof.
  unfold Js.trim. destruct (trimStart_head s) as [E|(c & t & E & W)]; rewrite E.
  - done.
  - rewrite (trimEnd_head c t W). cbn [Js.trimStart]. rewrite W.
    rewrite <- (trimEnd_head c t W). apply trimEnd_idem.
Qed.

Lemma ingest_wellStored q : wellStored (ingest q).
Proof.
  unfold wellStored, ingest. cbn [correct]. unfold Js.orElse.
  destruct (String.eqb_spec (match raw_correct q with
                             | Some c => Js.trim c
                             | None => ""
                             end) "") as [E|E].
  - by split.
  - split; [exact E|]. destruct (raw_correct q) as [c|]; [apply trim_idem|done].
Qed.

(** X11: every question the server holds was stored by
    [send-multiple-questions], which leaves it with a correct option that is
    not empty and has no white space around it.  So in every world the
    server can reach, the fallback [question.correct || 'N/A'] of the
    deadline gives the stored option, and [answer] compares the trimmed,
    lower-cased submission with the stored option lower-cased. *)
Theorem stored_questions_are_well_formed flow inputs ref room q :
  let w := (run flow inputs startup).1 in
  heap w !! ref = Some room → q ∈ questions room →
  correct q ≠ ""
  ∧ Js.trim (correct q) = correct q
  ∧ Js.orElse (correct q) "N/A" = correct q
  ∧ ∀ chosen, isCorrect chosen q = true
              ↔ Js.toLowerCase (Js.trim chosen) = Js.toLowerCase (correct q).
Proof.
  intros w Hroom Hq.
  assert (Hall : Forall wellStored (questions room)).
  { apply (invariant_run (λ r, Forall wellStored (questions r))
             (λ _ _, Forall_nil_2 _)
             (λ _ _ _ H, H) (λ _ _ H, H) (λ _ H, H) (λ _ _ _ _ H, H) (λ _ H, H)
             flow inputs startup) with ref.
    - frame_edits.
      + by destruct (isCorrect _ _).
      + intros _. cbn. apply Forall_forall. intros stored Hstored.
        apply list_elem_of_fmap in Hstored as (raw & -> & _).
        apply ingest_wellStored.
      + done.
    - intros r x. cbn. by rewrite lookup_nil.
    - exact Hroom. }
  destruct (proj1 (Forall_forall _ _) Hall q Hq) as [Hne Htrim].
  split; [exact Hne|]. split; [exact Htrim|]. split.
  - unfold Js.orElse. by destruct (String.eqb_spec (correct q) "").
  - intros chosen. unfold isCorrect. rewrite Htrim. apply String.eqb_eq.
Qed.

Lemma stored_questions_are_well_formed_witness :
  "N/A" ≠ ""
  ∧ Js.trim "N/A" = "N/A"
  ∧ Js.orElse "N/A" "N/A" = "N/A"
  ∧ ∀ chosen, isCorrect chosen (mkQuestion "Q1" ["a"; "b"] "N/A" 10) = true
              ↔ Js.toLowerCase (Js.trim chosen) = Js.toLowerCase "N/A".
Proof.
  apply (stored_questions_are_well_formed AutoAdvance
           (lobby [mkRaw "Q1" ["a"; "b"] None 10] ++ second) 0%nat
           (default (newRoom "" None) (heap no_correct_option !! 0%nat))
           (mkQuestion "Q1" ["a"; "b"] "N/A" 10)).
  - evaluated.
  - vm_compute. apply list_elem_of_here.
Defined.

(** ** The [answer] handler of [part_001] *)





(** ** Player objects *)

Lemma nextObj_clearTimer h w : nextObj (clearTimer h w) = nextObj w.
Proof. by destruct h. Qed.













(** ** [disconnect] and [kick-player] *)

Lemma findPlayer_withoutPlayer sid room :
  findPlayer sid (players (withoutPlayer sid room)) = None.
Proof.
  cbn. apply find_not_there. intros p Hp.
  apply list_elem_of_filter in Hp as [Hp _]. by apply String.eqb_neq.
Qed.

Lemma findPlayer_kicked sid ps :
  findPlayer sid (filter (λ p, p_id p ≠ sid) ps) = None.
Proof.
  apply find_not_there. intros p Hp.
  apply list_elem_of_filter in Hp as [Hp _]. by apply String.eqb_neq.
Qed.

(** One turn of the loop leaves a room object as it is or takes the socket
    off its roster. *)
Lemma leaveRoom_object sid acc c ref rm :
  heap acc.1 !! ref = Some rm →
  heap (leaveRoom sid acc c).1 !! ref = Some rm
  ∨ (findPlayer sid (players rm) ≠ None
     ∧ heap (leaveRoom sid acc c).1 !! ref = Some (withoutPlayer sid rm)).
Proof.
  destruct acc as [w effs]. cbn [fst]. intros Hheap. unfold leaveRoom.
  destruct (getRoom w c) as [[r x]|] eqn:Hget; [|by left].
  apply getRoom_Some in Hget as [_ Hx].
  destruct (String.eqb (hostId x) sid); [by left|].
  destruct (findPlayer sid (players x)) as [found|] eqn:Hfind; [|by left].
  cbn [fst putRoom set_heap heap]. destruct (decide (r = ref)) as [->|Hne].
  - right.
    assert (Some x = Some rm) as [= ->]
      by (etrans; [symmetry; exact Hx|exact Hheap]).
    rewrite Hfind.
    split; [done|]. apply list_lookup_insert_eq. by eapply lookup_lt_Some.
  - left. by rewrite list_lookup_insert_ne.
Qed.

Lemma loop_untouched sid l acc ref rm :
  heap acc.1 !! ref = Some rm → findPlayer sid (players rm) = None →
  heap (fold_left (leaveRoom sid) l acc).1 !! ref = Some rm.
Proof.
  revert acc. induction l as [|c l IH]; intros acc Hheap Hnone; [done|].
  cbn [fold_left]. apply IH; [|done].
  by destruct (leaveRoom_object sid acc c ref rm Hheap) as [H|[H _]].
Qed.

(** A room that another socket hosts stays registered. *)
Lemma leaveRoom_keeps_registered sid acc c roomCode ref rm :
  registryGet roomCode (rooms acc.1) = Some ref →
  heap acc.1 !! ref = Some rm → hostId rm ≠ sid →
  registryGet roomCode (rooms (leaveRoom sid acc c).1) = Some ref.
Proof.
  destruct acc as [w effs]. cbn [fst]. intros Hreg Hheap Hhost. unfold leaveRoom.
  destruct (getRoom w c) as [[r x]|] eqn:Hget; [|done].
  apply getRoom_Some in Hget as [Hc Hx].
  destruct (String.eqb_spec (hostId x) sid) as [Hx_host|_].
  - cbn [fst rooms set_rooms]. rewrite registryGet_delete_ne; [done|].
    intros ->. congruence.
  - by destruct (findPlayer sid (players x)).
Qed.

Lemma loop_leaves sid roomCode ref l acc rm :
  registryGet roomCode (rooms acc.1) = Some ref →
  heap acc.1 !! ref = Some rm → hostId rm ≠ sid →
  registryGet roomCode (rooms (fold_left (leaveRoom sid) l acc).1) = Some ref
  ∧ (In roomCode l ∨ findPlayer sid (players rm) = None →
     heap (fold_left (leaveRoom sid) l acc).1 !! ref
     = Some (match findPlayer sid (players rm) with
             | Some _ => withoutPlayer sid rm
             | None => rm
             end)).
Proof.
  revert acc rm. induction l as [|c l IH]; intros acc rm Hreg Hheap Hhost.
  { split; [done|]. intros [[]|Hnone]. by rewrite Hnone. }
  cbn [fold_left].
  pose proof (leaveRoom_keeps_registered sid acc c roomCode ref rm Hreg Hheap Hhost)
    as Hreg1.
  destruct (leaveRoom_object sid acc c ref rm Hheap) as [Hsame|[Hfound Hleft]].
  - destruct (IH _ rm Hreg1 Hsame Hhost) as [Hr Hh]. split; [exact Hr|].
    intros [[->|Hin]|Hnone]; [|by auto|by auto].
    apply Hh. right.
    (* the turn for [roomCode] itself left the object as it was *)
    destruct acc as [w effs]. cbn [fst] in *. unfold leaveRoom in Hsame.
    assert (Hget : getRoom w roomCode = Some (ref, rm)) by by apply getRoom_Some.
    rewrite Hget in Hsame.
    destruct (String.eqb_spec (hostId rm) sid) as [|_]; [done|].
    destruct (findPlayer sid (players rm)) as [found|] eqn:Hfind; [|done].
    exfalso. cbn in Hsame.
    rewrite list_lookup_insert_eq in Hsame by (by eapply lookup_lt_Some).
    injection Hsame as Hsame. change (withoutPlayer sid rm = rm) in Hsame.
    pose proof (findPlayer_withoutPlayer sid rm) as Hgone.
    rewrite Hsame in Hgone. congruence.
  - assert (Hhost' : hostId (withoutPlayer sid rm) ≠ sid) by done.
    destruct (IH _ (withoutPlayer sid rm) Hreg1 Hleft Hhost') as [Hr Hh].
    split; [exact Hr|]. intros _.
    rewrite Hh by (right; apply findPlayer_withoutPlayer).
    rewrite findPlayer_withoutPlayer.
    by destruct (findPlayer sid (players rm)).
Qed.

Lemma hostId_loop sid l acc ref rm rm' :
  heap acc.1 !! ref = Some rm →
  heap (fold_left (leaveRoom sid) l acc).1 !! ref = Some rm' →
  hostId rm' = hostId rm.
Proof.
  intros Hheap Hafter.
  destruct (framed_loop (λ a b, hostId b = hostId a)
              (λ _, eq_refl) (λ a b c Hab Hbc, eq_trans Hbc Hab) (λ _ _, eq_refl)
              sid l acc ref rm Hheap) as (x & Hx & Hhost).
  congruence.
Qed.

(** X14: what a disconnection leaves behind.  The socket is no longer
    connected; no room that is still registered is hosted by it or has it on
    its roster; and a room hosted by another socket stays registered, with
    the socket taken off its roster and out of [answeredPlayers] if it was
    on the roster, and exactly as it was if not. *)
Theorem disconnect_leaves_every_room flow sid w :
  sid ∈ sockets w →
  let w' := (step flow (Disconnect sid) w).1 in
  sockets w' = sockets w ∖ {[sid]}
  ∧ (∀ roomCode ref room,
       getRoom w' roomCode = Some (ref, room) →
       hostId room ≠ sid ∧ ∀ p, p ∈ players room → p_id p ≠ sid)
  ∧ (∀ roomCode ref room,
       getRoom w roomCode = Some (ref, room) → hostId room ≠ sid →
       getRoom w' roomCode
       = Some (ref, match findPlayer sid (players room) with
                    | Some _ => withoutPlayer sid room
                    | None => room
                    end)).
Proof.
  intros Hlive w'. subst w'. cbn [step].
  destruct (decide (sid ∈ sockets w)); [|done]. unfold dropSocket, disconnect.
  set (w0 := set_sockets (sockets w ∖ {[sid]}) w).
  set (l := map fst (rooms w0)).
  destruct (loop_shrinks sid l (w0, [])) as (Hs & Hr & Hh).
  split; [exact Hs|]. split.
  - intros roomCode ref room [Hreg Hheap]%getRoom_Some.
    pose proof (Hr _ _ Hreg) as Hreg0.
    destruct (Hh _ _ Hheap) as (room0 & Hheap0 & _).
    split.
    + intros Hhost.
      rewrite (hostId_loop sid l (w0, []) ref room0 room Hheap0 Hheap) in Hhost.
      assert (Hget0 : getRoom w0 roomCode = Some (ref, room0))
        by by apply getRoom_Some.
      pose proof (disconnect_deletes_hosted_room sid roomCode w0 ref room0 Hget0 Hhost)
        as Hgone.
      unfold disconnect in Hgone. fold l in Hgone. congruence.
    + intros p Hp. eapply loop_removes; [|exact Hreg|exact Hheap|exact Hp].
      eapply registryGet_In. exact Hreg0.
  - intros roomCode ref room [Hreg Hheap]%getRoom_Some Hhost.
    destruct (loop_leaves sid roomCode ref l (w0, []) room Hreg Hheap Hhost)
      as [Hr' Hh'].
    apply getRoom_Some. split; [exact Hr'|]. apply Hh'. left.
    eapply registryGet_In. exact Hreg.
Qed.

Lemma disconnect_leaves_every_room_witness :
  let w' := (step AutoAdvance (Disconnect "p1") ann_has_answered).1 in
  sockets w' = sockets ann_has_answered ∖ {["p1"]}
  ∧ (∀ roomCode ref room,
       getRoom w' roomCode = Some (ref, room) →
       hostId room ≠ "p1" ∧ ∀ p, p ∈ players room → p_id p ≠ "p1")
  ∧ (∀ roomCode ref room,
       getRoom ann_has_answered roomCode = Some (ref, room) → hostId room ≠ "p1" →
       getRoom w' roomCode
       = Some (ref, match findPlayer "p1" (players room) with
                    | Some _ => withoutPlayer "p1" room
                    | None => room
                    end)).
Proof.
  apply (disconnect_leaves_every_room AutoAdvance "p1" ann_has_answered).
  decided.
Defined.

(** X15: [kick-player], whoever sends it, takes the entries with the given
    identity off the roster of the room and changes nothing else of the
    room object: an identity recorded in [answeredPlayers] stays there.  The
    socket with that identity is no longer connected afterwards.  The room
    stays registered unless the identity is that of its host and the host
    is connected: then the room is deleted. *)
Theorem kick_player_edits_the_roster_only flow sender roomCode playerId w ref room :
  getRoom w roomCode = Some (ref, room) →
  let w' := (handle flow sender (Ev.kick_player roomCode playerId) w).1 in
  let kicked := set_players (filter (λ p, p_id p ≠ playerId) (players room)) room in
  heap w' !! ref = Some kicked
  ∧ (playerId ∉ sockets w')
  ∧ (hostId room ≠ playerId ∨ playerId ∉ sockets w →
     getRoom w' roomCode = Some (ref, kicked))
  ∧ (hostId room = playerId → playerId ∈ sockets w →
     getRoom w' roomCode = None).
Proof.
  intros Hget w' kicked. subst w'. cbn [handle]. unfold kick_player. rewrite Hget.
  fold kicked.
  pose proof (getRoom_putRoom _ _ _ _ kicked Hget) as Hget1.
  destruct (decide (playerId ∈ sockets w)) as [Hlive|Hdead].
  - unfold dropSocket, disconnect.
    set (w0 := set_sockets (sockets (putRoom ref kicked w) ∖ {[playerId]})
                           (putRoom ref kicked w)).
    set (l := map fst (rooms w0)).
    assert (Hget0 : getRoom w0 roomCode = Some (ref, kicked)) by exact Hget1.
    pose proof Hget0 as [Hreg0 Hheap0]%getRoom_Some.
    assert (Hnone : findPlayer playerId (players kicked) = None)
      by apply findPlayer_kicked.
    pose proof (loop_untouched playerId l (w0, []) ref kicked Hheap0 Hnone) as Hobj.
    destruct (loop_shrinks playerId l (w0, [])) as (Hs & _ & _).
    pose proof (disconnect_deletes_hosted_room playerId roomCode w0 ref kicked Hget0)
      as Hdel.
    pose proof (loop_leaves playerId roomCode ref l (w0, []) kicked Hreg0 Hheap0)
      as Hkeep.
    unfold disconnect in Hdel. fold l in Hdel.
    destruct (fold_left (leaveRoom playerId) l (w0, [])) as [w2 effs2].
    cbn [fst] in *. split; [exact Hobj|]. split; [|split].
    + rewrite Hs. cbn. intros [_ Hout]%elem_of_difference.
      apply Hout. by apply elem_of_singleton.
    + intros [Hhost|Hno]; [|done].
      destruct (Hkeep Hhost) as [Hreg2 _]. apply getRoom_Some. by split.
    + intros Hhost _. apply getRoom_None. by apply Hdel.
  - cbn [fst]. apply getRoom_Some in Hget1 as [Hreg1 Hheap1].
    split; [exact Hheap1|]. split; [exact Hdead|]. split.
    + intros _. apply getRoom_Some. by split.
    + done.
Qed.

Lemma kick_player_edits_the_roster_only_witness :
  let w' := (handle AutoAdvance "h" (Ev.kick_player "ABCD" "p1") ann_has_answered).1 in
  let kicked :=
    set_players [mkPlayer 1 "p2" "Bo" 0]
                (default (newRoom "" None) (heap ann_has_answered !! 0%nat)) in
  heap w' !! 0%nat = Some kicked
  ∧ ("p1" ∉ sockets w')
  ∧ getRoom w' "ABCD" = Some (0%nat, kicked)
  ∧ "p1" ∈ answeredPlayers kicked.
Proof.
  destruct (kick_player_edits_the_roster_only AutoAdvance "h" "ABCD" "p1"
              ann_has_answered 0%nat
              (default (newRoom "" None) (heap ann_has_answered !! 0%nat)))
    as (Hobj & Hsock & Hkeep & _).
  - evaluated.
  - split; [exact Hobj|]. split; [exact Hsock|]. split.
    + apply Hkeep. left. evaluated.
    + decided.
Defined.

(** ** [end-quiz] and the callbacks it leaves pending *)

Lemma elem_of_clearTimer h w t :
  t ∈ timers (clearTimer h w) ↔ t ∈ timers w ∧ Some (t_id t) ≠ h.
Proof.
  destruct h as [tid|]; cbn.
  - rewrite list_elem_of_filter. split.
    + intros [Hne Hin]. split; [done|]. congruence.
    + intros [Hin Hne]. split; [congruence|done].
  - split; [by intros H|by intros [H _]].
Qed.

(** X16: [end-quiz], whoever sends it, broadcasts the final leaderboard
    (five entries at most in the auto-advance version, the whole roster in
    the host-paced one) and [quiz-end], and frees the code: the room is no
    longer registered, so every later event for the code is treated as for
    an unknown room, while the other rooms stay as they are.  Of the pending
    timers exactly those held in [room.timer] and [room.countdownInterval]
    are cancelled; every other one stays pending. *)
Theorem end_quiz_frees_the_code flow sender roomCode w ref room :
  getRoom w roomCode = Some (ref, room) →
  let w' := (handle flow sender (Ev.end_quiz roomCode) w).1 in
  (handle flow sender (Ev.end_quiz roomCode) w).2
  = [RoomEmit roomCode
       (Msg.final_leaderboard
          (take (match flow with
                 | AutoAdvance => 5
                 | HostPaced => length (players room)
                 end) (sortByScore (players room))));
     RoomEmit roomCode Msg.quiz_end]
  ∧ getRoom w' roomCode = None
  ∧ (∀ sid ev, targetOf ev = roomCode → unknownRoomOutcome flow sid ev w')
  ∧ (∀ other, other ≠ roomCode → getRoom w' other = getRoom w other)
  ∧ (∀ t, t ∈ timers w' ↔
          t ∈ timers w ∧ Some (t_id t) ≠ timer room
          ∧ Some (t_id t) ≠ countdownInterval room).
Proof.
  intros Hget w'. subst w'. cbn [handle]. unfold end_quiz. rewrite Hget.
  cbn [fst snd].
  set (w1 := clearTimer (countdownInterval room) (clearTimer (timer room) w)).
  assert (Hgone : registryGet roomCode (rooms (set_rooms (registryDelete roomCode (rooms w1)) w1))
                  = None) by apply registryGet_delete_eq.
  split; [|split; [|split; [|split]]].
  - destruct flow; [done|]. do 3 f_equal.
    rewrite take_ge; [done|].
    by rewrite (Permutation_length (sortByScore_perm (players room))).
  - by apply getRoom_None.
  - intros sid ev <-. by apply unknown_room.
  - intros other Hne. unfold getRoom. cbn [rooms heap set_rooms]. subst w1.
    by rewrite registryGet_delete_ne, !rooms_clearTimer, !heap_clearTimer.
  - intros t. cbn [timers set_rooms]. subst w1.
    rewrite !elem_of_clearTimer. tauto.
Qed.

Lemma end_quiz_frees_the_code_witness :
  let w' := (handle AutoAdvance "p2" (Ev.end_quiz "ABCD") ann_has_answered).1 in
  (handle AutoAdvance "p2" (Ev.end_quiz "ABCD") ann_has_answered).2
  = [RoomEmit "ABCD"
       (Msg.final_leaderboard
          [mkPlayer 0 "p1" "Ann" 1000; mkPlayer 1 "p2" "Bo" 0]);
     RoomEmit "ABCD" Msg.quiz_end]
  ∧ getRoom w' "ABCD" = None
  ∧ timers w' = [].
Proof.
  destruct (end_quiz_frees_the_code AutoAdvance "p2" "ABCD" ann_has_answered 0%nat
              (default (newRoom "" None) (heap ann_has_answered !! 0%nat)))
    as (Heffs & Hgone & _).
  - evaluated.
  - split; [exact Heffs|]. split; [exact Hgone|]. evaluated.
Defined.

(** X17: callbacks that outlive their room.  Once a code is not registered,
    a pending call of [endCurrentQuestion] or [startNextQuestion] for it
    runs without any effect.  The deadline of a question never looks at the
    registry: whether the room is still registered or not, it announces
    [all-answered] (after [question-locked] in the host-paced version) to the
    channel of the room and schedules the call of [endCurrentQuestion]. *)
Theorem callbacks_outlive_their_room flow tid self roomCode w :
  find (λ t, Nat.eqb (t_id t) tid) (timers w) = Some self →
  t_due self ≤ clock w →
  (registryGet roomCode (rooms w) = None →
   t_task self = EndQuestion roomCode ∨ t_task self = NextQuestion roomCode →
   fire flow tid w
   = (set_timers (filter (λ t, t_id t ≠ t_id self) (timers w)) w, []))
  ∧ (∀ ref question,
       t_task self = Deadline roomCode ref question →
       (fire flow tid w).2
       = match flow with
         | AutoAdvance => []
         | HostPaced => [RoomEmit roomCode Msg.question_locked]
         end ++ [RoomEmit roomCode (Msg.all_answered (Js.orElse (correct question) "N/A"))]
       ∧ ∃ due, mkTimer (nextTimer w) due (EndQuestion roomCode)
                  ∈ timers (fire flow tid w).1).
Proof.
  intros Hfind Hdue. unfold fire. rewrite Hfind.
  assert (Hnow : (clock w <? t_due self) = false) by (apply Z.ltb_ge; lia).
  rewrite Hnow. unfold runTask. split.
  - intros Hnone [Htask|Htask]; rewrite Htask.
    + unfold endCurrentQuestion. by rewrite getRoom_None.
    + unfold startNextQuestion. by rewrite getRoom_None.
  - intros ref question Htask. rewrite Htask. split; [done|].
    exists (clock w + 2500). cbn [reveal setTimer fst].
    unfold clearCountdownOf. cbn [heap set_timers].
    destruct (heap w !! ref) as [room|].
    + cbn [timers]. rewrite nextTimer_clearTimer, clock_clearTimer. cbn.
      apply elem_of_app. right. apply list_elem_of_here.
    + cbn. apply elem_of_app. right. apply list_elem_of_here.
Qed.

Lemma callbacks_outlive_their_room_witness :
  fire AutoAdvance 2 host_left_reveal_over
  = (set_timers (filter (λ t, t_id t ≠ 2%nat) (timers host_left_reveal_over))
                host_left_reveal_over, []).
Proof.
  apply (callbacks_outlive_their_room AutoAdvance 2
           (mkTimer 2 12500 (EndQuestion "ABCD")) "ABCD" host_left_reveal_over).
  - evaluated.
  - evaluated.
  - evaluated.
  - by left.
Defined.

(** ** Starting a question *)




(** ** The countdown *)

Lemma find_replaced tid (again self : Timer) ts :
  t_id again = tid →
  find (λ t, Nat.eqb (t_id t) tid) ts = Some self →
  find (λ t, Nat.eqb (t_id t) tid)
       (map (λ t, if Nat.eqb (t_id t) tid then again else t) ts) = Some again.
Proof.
  intros Hid. induction ts as [|t ts IH]; [done|]. cbn [find map].
  destruct (Nat.eqb (t_id t) tid) eqn:E.
  - intros _. by rewrite Hid, Nat.eqb_refl.
  - rewrite E. exact IH.
Qed.

Lemma find_cleared tid ts :
  find (λ t, Nat.eqb (t_id t) tid) (filter (λ t, t_id t ≠ tid) ts) = None.
Proof.
  apply find_not_there. intros t Ht.
  apply list_elem_of_filter in Ht as [Ht _]. by apply Nat.eqb_neq.
Qed.

(** X19: the countdown of a question.  While the handle of the interval is
    the one held in [room.countdownInterval], the interval ticks once a
    second with [time-left] one less each time, down to 0, and then cancels
    itself: after as many seconds as it had left it is no longer pending.
    It changes no room. *)
Theorem countdown_counts_down_and_stops
    flow tid roomCode ref room n due w :
  find (λ t, Nat.eqb (t_id t) tid) (timers w)
    = Some (mkTimer tid due (CountdownTick roomCode ref (Z.of_nat (S n)))) →
  due ≤ clock w + 1000 →
  heap w !! ref = Some room → countdownInterval room = Some tid →
  (run flow (ticks tid (S n)) w).2
  = map (λ left, RoomEmit roomCode (Msg.time_left left)) (countdownFrom (S n))
  ∧ find (λ t, Nat.eqb (t_id t) tid) (timers (run flow (ticks tid (S n)) w).1) = None
  ∧ rooms (run flow (ticks tid (S n)) w).1 = rooms w
  ∧ heap (run flow (ticks tid (S n)) w).1 = heap w.
Proof.
  revert due w. induction n as [|n IH]; intros due w Hfind Hdue Hheap Hhandle.
  - cbn [ticks run step]. unfold fire. cbn [timers clock set_clock].
    rewrite Hfind. cbn [t_due].
    assert (Hnow : (clock w + Z.of_N 1000 <? due) = false) by (apply Z.ltb_ge; lia).
    rewrite Hnow. unfold runTask. cbn [t_task t_id t_due fst snd].
    change (Z.of_nat 1 - 1 <=? 0) with true. cbv iota.
    unfold clearCountdownOf. cbn [heap set_timers set_clock].
    rewrite Hheap, Hhandle. cbn [clearTimer timers set_timers fst snd app].
    split; [done|]. split; [|done].
    apply find_cleared.
  - change (ticks tid (S (S n))) with (Elapse 1000 :: Fire tid :: ticks tid (S n)).
    cbn [run step]. unfold fire. cbn [timers clock set_clock].
    rewrite Hfind. cbn [t_due].
    assert (Hnow : (clock w + Z.of_N 1000 <? due) = false) by (apply Z.ltb_ge; lia).
    rewrite Hnow. unfold runTask. cbn [t_task t_id t_due fst snd].
    replace (Z.of_nat (S (S n)) - 1) with (Z.of_nat (S n)) by lia.
    assert (Hmore : (Z.of_nat (S n) <=? 0) = false) by (apply Z.leb_gt; lia).
    rewrite Hmore.
    set (again := mkTimer tid (due + 1000) (CountdownTick roomCode ref (Z.of_nat (S n)))).
    set (w1 := set_timers _ (set_clock _ w)).
    destruct (IH (due + 1000) w1) as (Heffs & Hgone & Hrooms & Hheap1).
    + subst w1. cbn [timers set_timers].
      eapply find_replaced; [done|exact Hfind].
    + subst w1. cbn. lia.
    + exact Hheap.
    + exact Hhandle.
    + destruct (run flow (ticks tid (S n)) w1) as [w2 effs2]. cbn [fst snd] in *.
      split; [|done]. cbn [app]. rewrite Heffs.
      change (countdownFrom (S (S n))) with (Z.of_nat (S n) :: countdownFrom (S n)).
      done.
Qed.

Lemma countdown_counts_down_and_stops_witness :
  (run AutoAdvance (ticks 0 3) three_second_question).2
  = [RoomEmit "ABCD" (Msg.time_left 2); RoomEmit "ABCD" (Msg.time_left 1);
     RoomEmit "ABCD" (Msg.time_left 0)]
  ∧ find (λ t, Nat.eqb (t_id t) 0)
         (timers (run AutoAdvance (ticks 0 3) three_second_question).1) = None
  ∧ rooms (run AutoAdvance (ticks 0 3) three_second_question).1
    = rooms three_second_question
  ∧ heap (run AutoAdvance (ticks 0 3) three_second_question).1
    = heap three_second_question.
Proof.
  apply (countdown_counts_down_and_stops AutoAdvance 0 "ABCD" 0
           (default (newRoom "" None) (heap three_second_question !! 0%nat))
           2 1000 three_second_question).
  - evaluated.
  - evaluated.
  - evaluated.
  - evaluated.
Defined.

(** ** A socket that is on the roster twice *)

Lemma size_below_length (l : list SocketId) :
  ¬ NoDup l → (size (list_to_set l : gset SocketId) < length l)%nat.
Proof.
  assert (Hle : ∀ k : list SocketId,
            (size (list_to_set k : gset SocketId) ≤ length k)%nat).
  { induction k as [|x k IH]; cbn [list_to_set length].
    - by rewrite size_empty.
    - rewrite size_union_alt, size_singleton.
      assert (Hsub : (size (list_to_set k ∖ {[x]} : gset SocketId)
                      ≤ size (list_to_set k : gset SocketId))%nat).
      { apply subseteq_size. intros y Hy. by apply elem_of_difference in Hy as [Hy _]. }
      lia. }
  induction l as [|x l IH]; intros Hdup.
  - exfalso. apply Hdup, NoDup_nil_2.
  - cbn [list_to_set length]. destruct (decide (x ∈ l)) as [Hin|Hout].
    + assert (Hsame : ({[x]} ∪ list_to_set l : gset SocketId) = list_to_set l).
      { apply set_eq. intros y. rewrite elem_of_union, elem_of_singleton.
        split; [intros [->|H]; [by apply elem_of_list_to_set|done]|by right]. }
      rewrite Hsame. specialize (Hle l). lia.
    + assert (Hdup' : ¬ NoDup l).
      { intros Hnd. apply Hdup. by apply NoDup_cons. }
      specialize (IH Hdup').
      rewrite size_union by (apply disjoint_singleton_l;
                             by rewrite elem_of_list_to_set).
      rewrite size_singleton. lia.
Qed.

(** X20: [join-room] does not look for the sender on the roster, so one
    socket can be on it more than once.  While a roster holds an identity
    twice and everybody recorded as having answered is on it, no submission
    ends the question early: [answer] announces nothing and cancels no
    timer, and the question runs until its deadline. *)
Theorem double_entry_blocks_early_lock flow sid chosen roomCode w ref room :
  getRoom w roomCode = Some (ref, room) →
  answeredWithinRoster room →
  ¬ NoDup (map p_id (players room)) →
  (answer flow sid chosen roomCode w).2 = []
  ∧ map t_id (timers (answer flow sid chosen roomCode w).1) = map t_id (timers w).
Proof.
  intros Hget Hwithin Hdup. unfold answer. rewrite Hget.
  destruct (findPlayer sid (players room)) as [player|] eqn:Hplayer; [|done].
  destruct (questions room !! currentIndex room) as [question|]; [|done].
  destruct (decide (sid ∈ answeredPlayers room)) as [|Hnew]; [done|].
  fold (answeredRoom sid chosen player question (clock w) room).
  set (room2 := answeredRoom sid chosen player question (clock w) room).
  assert (Hids : map p_id (players room2) = map p_id (players room)).
  { subst room2. unfold answeredRoom. destruct (isCorrect chosen question); [|done].
    cbn [players set_firstCorrectAnswered set_players set_answeredPlayers].
    apply ids_addScore. }
  assert (Hwithin2 : answeredWithinRoster room2)
    by by apply answeredRoom_within.
  assert (Hsize : (size (answeredPlayers room2) < length (players room2))%nat).
  { rewrite <- (length_map p_id (players room2)), Hids.
    eapply Nat.le_lt_trans; [|by apply size_below_length].
    apply subseteq_size. intros x Hx. apply elem_of_list_to_set.
    rewrite <- Hids. by apply Hwithin2. }
  assert (Hopen : Nat.eqb (size (answeredPlayers room2)) (length (players room2)) = false)
    by (apply Nat.eqb_neq; lia).
  rewrite Hopen. cbn [fst snd]. split; [done|].
  destruct (isCorrect chosen question); [|done].
  cbn [timers putRoom set_heap set_timers]. apply t_id_addScoreInTask.
Qed.

Lemma double_entry_blocks_early_lock_witness :
  (answer AutoAdvance "p1" "a" "ABCD" joined_twice).2 = []
  ∧ map t_id (timers (answer AutoAdvance "p1" "a" "ABCD" joined_twice).1)
    = map t_id (timers joined_twice).
Proof.
  apply (double_entry_blocks_early_lock AutoAdvance "p1" "a" "ABCD" joined_twice 0%nat
           (default (newRoom "" None) (heap joined_twice !! 0%nat))).
  - evaluated.
  - intros x Hx. exfalso. refuted Hx.
  - intros Hnd. apply (bool_decide_pack _) in Hnd. vm_compute in Hnd. exact Hnd.
Defined.

(** ** The lobby handlers of [part_001] *)

Section Part001LobbyFacts.
Context {Rest : Type}.
Implicit Types (rs : list (RoomCode * Part001Lobby.Room Rest)).






End Part001LobbyFacts.

(** ** The cycle of a question *)

Lemma fresh_sub w w' :
  (∀ t, t ∈ timers w' → ∃ t0, t0 ∈ timers w ∧ t_id t = t_id t0) →
  (nextTimer w ≤ nextTimer w')%nat →
  timersFresh w → timersFresh w'.
Proof.
  intros Hsub Hnext Hfresh t Ht. destruct (Hsub t Ht) as (t0 & Ht0 & ->).
  apply Hfresh in Ht0. lia.
Qed.

Lemma fresh_same w w' :
  timers w' = timers w → nextTimer w' = nextTimer w →
  timersFresh w → timersFresh w'.
Proof. unfold timersFresh. by intros -> ->. Qed.

Lemma fresh_setTimer task delay w :
  timersFresh w → timersFresh (setTimer task delay w).2.
Proof.
  intros Hfresh t. cbn. intros [Ht|Ht]%elem_of_app.
  - apply Hfresh in Ht. lia.
  - apply list_elem_of_singleton in Ht as ->. cbn. lia.
Qed.

Lemma fresh_clearTimer h w : timersFresh w → timersFresh (clearTimer h w).
Proof.
  intros Hfresh t Ht. rewrite nextTimer_clearTimer.
  apply elem_of_clearTimer in Ht as [Ht _]. by apply Hfresh.
Qed.

Lemma fresh_filter (P : Timer → Prop) `{∀ t, Decision (P t)} w :
  timersFresh w → timersFresh (set_timers (filter P (timers w)) w).
Proof.
  intros Hfresh t. cbn. intros [_ Ht]%list_elem_of_filter. by apply Hfresh.
Qed.

Lemma fresh_putRoom ref room w : timersFresh w → timersFresh (putRoom ref room w).
Proof. done. Qed.

Lemma fresh_beginQuestion roomCode ref room question w :
  timersFresh w → timersFresh (beginQuestion roomCode ref room question w).1.
Proof.
  intros Hfresh. unfold beginQuestion.
  pose proof (fresh_setTimer
                (CountdownTick roomCode ref
                   (if timeLimit question =? 0 then 15 else timeLimit question))
                1000 w Hfresh) as H1.
  destruct (setTimer (CountdownTick _ _ _) 1000 w) as [interval w1].
  pose proof (fresh_setTimer (Deadline roomCode ref question)
                ((if timeLimit question =? 0 then 15 else timeLimit question) * 1000)
                w1 H1) as H2.
  by destruct (setTimer (Deadline _ _ _) _ w1) as [timeout w2].
Qed.

Lemma fresh_startNextQuestion roomCode w :
  timersFresh w → timersFresh (startNextQuestion roomCode w).1.
Proof.
  intros Hfresh. unfold startNextQuestion.
  destruct (getRoom w roomCode) as [[ref room]|]; [|done].
  destruct (length (questions room) <=? currentIndex room)%nat; [done|].
  destruct (questions room !! currentIndex room); [|done].
  by apply fresh_beginQuestion.
Qed.

Lemma fresh_endCurrentQuestion flow roomCode w :
  timersFresh w → timersFresh (endCurrentQuestion flow roomCode w).1.
Proof.
  intros Hfresh. unfold endCurrentQuestion.
  destruct (getRoom w roomCode) as [[ref room]|]; [|done].
  set (w1 := putRoom _ _ w).
  assert (H1 : timersFresh w1) by done.
  destruct flow.
  - apply (fresh_setTimer (NextQuestion roomCode) 5000 w1 H1).
  - destruct (length (questions room) <=? currentIndex room + 1)%nat; [|done].
    apply (fresh_setTimer (FinalBoard roomCode _) 8000 w1 H1).
Qed.

Lemma fresh_reveal flow roomCode shown w :
  timersFresh w → timersFresh (reveal flow roomCode shown w).1.
Proof. intros Hfresh. apply (fresh_setTimer (EndQuestion roomCode) 2500 w Hfresh). Qed.

Lemma fresh_answer flow sid chosen roomCode w :
  timersFresh w → timersFresh (answer flow sid chosen roomCode w).1.
Proof.
  intros Hfresh. unfold answer.
  destruct (getRoom w roomCode) as [[ref room]|]; [|done].
  destruct (findPlayer sid (players room)) as [player|]; [|done].
  destruct (questions room !! currentIndex room) as [question|]; [|done].
  destruct (decide (sid ∈ answeredPlayers room)); [done|].
  set (w1 := if isCorrect chosen question then _ else w).
  assert (H1 : timersFresh w1).
  { subst w1. destruct (isCorrect chosen question); [|done].
    intros t. cbn. intros (t0 & -> & Ht0)%list_elem_of_fmap.
    apply Hfresh in Ht0. unfold addScoreInTask. by destruct (t_task t0). }
  destruct (Nat.eqb _ _); [|exact H1].
  by apply fresh_reveal, fresh_clearTimer, fresh_clearTimer, fresh_putRoom.
Qed.

Lemma timers_loop sid l acc :
  timers (fold_left (leaveRoom sid) l acc).1 = timers acc.1
  ∧ nextTimer (fold_left (leaveRoom sid) l acc).1 = nextTimer acc.1.
Proof.
  revert acc. induction l as [|c l IH]; intros acc; [done|].
  cbn [fold_left]. destruct (IH (leaveRoom sid acc c)) as [-> ->].
  destruct acc as [w effs]. cbn [fst]. unfold leaveRoom.
  destruct (getRoom w c) as [[ref room]|]; [|done].
  destruct (String.eqb (hostId room) sid); [done|].
  by destruct (findPlayer sid (players room)).
Qed.

Lemma fresh_dropSocket sid w : timersFresh w → timersFresh (dropSocket sid w).1.
Proof.
  intros Hfresh. unfold dropSocket, disconnect.
  destruct (timers_loop sid (map fst (rooms (set_sockets (sockets w ∖ {[sid]}) w)))
              (set_sockets (sockets w ∖ {[sid]}) w, [])) as [Ht Hn].
  by eapply fresh_same.
Qed.

Lemma fresh_clearCountdownOf ref w :
  timersFresh w → timersFresh (clearCountdownOf ref w).
Proof.
  intros Hfresh. unfold clearCountdownOf.
  destruct (heap w !! ref); [by apply fresh_clearTimer|done].
Qed.

Lemma fresh_step flow i w : timersFresh w → timersFresh (step flow i w).1.
Proof.
  intros Hfresh. destruct i as [sid|sid ev|sid|ms|tid]; cbn [step]; [done| | |done|].
  - destruct (decide (sid ∈ sockets w)); [|done]. destruct ev; cbn [handle].
    + unfold create_room. by destruct (registryGet roomCode (rooms w)).
    + unfold join_room.
      destruct (getRoom w roomCode) as [[ref room]|]; [|done].
      destruct (String.eqb sid (hostId room)); [done|].
      destruct (maxPlayers room <=? _); [done|].
      by destruct (existsb _ _).
    + unfold send_multiple_questions.
      by destruct (getRoom w roomCode) as [[ref room]|].
    + unfold start_quiz.
      destruct (getRoom w roomCode) as [[ref room]|]; [|done].
      destruct flow; [|done]. by apply fresh_startNextQuestion.
    + unfold next_question. destruct flow; [done|].
      destruct (getRoom w roomCode) as [[ref room]|]; [|done].
      destruct (negb (quizStarted room)); [done|].
      destruct (length (questions room) <=? currentIndex room)%nat; [done|].
      destruct (questions room !! currentIndex room); [|done].
      by apply fresh_beginQuestion.
    + by apply fresh_answer.
    + unfold kick_player.
      destruct (getRoom w roomCode) as [[ref room]|]; [|done].
      destruct (decide (playerId ∈ sockets w)); [|done].
      pose proof (fresh_dropSocket playerId (putRoom ref (set_players
                    (filter (λ p, p_id p ≠ playerId) (players room)) room) w) Hfresh)
        as H2.
      by destruct (dropSocket playerId _) as [w2 effs2].
    + unfold end_quiz.
      destruct (getRoom w roomCode) as [[ref room]|]; [|done].
      cbn [fst]. apply (fresh_same (clearTimer (countdownInterval room)
                                      (clearTimer (timer room) w))); [done|done|].
      by apply fresh_clearTimer, fresh_clearTimer.
  - destruct (decide (sid ∈ sockets w)); [|done]. by apply fresh_dropSocket.
  - unfold fire.
    destruct (find _ (timers w)) as [self|] eqn:Hfind; [|done].
    destruct (clock w <? t_due self); [done|].
    assert (Hrest : timersFresh
                      (set_timers (filter (λ t, t_id t ≠ t_id self) (timers w)) w))
      by by apply fresh_filter.
    unfold runTask.
    destruct (t_task self) as [code ref tl|code ref q|code|code|code board].
    + cbn [fst].
      set (w1 := set_timers _ w).
      assert (H1 : timersFresh w1).
      { intros t. subst w1. cbn. intros (t0 & -> & Ht0)%list_elem_of_fmap.
        destruct (Nat.eqb_spec (t_id t0) (t_id self)) as [E|_]; [|by apply Hfresh].
        cbn. rewrite <- E. by apply Hfresh. }
      destruct (tl - 1 <=? 0); [by apply fresh_clearCountdownOf|exact H1].
    + by apply fresh_reveal, fresh_clearCountdownOf.
    + by apply fresh_endCurrentQuestion.
    + by apply fresh_startNextQuestion.
    + exact Hrest.
Qed.

Lemma fresh_run flow inputs w : timersFresh w → timersFresh (run flow inputs w).1.
Proof.
  revert w. induction inputs as [|i rest IH]; intros w H; [done|].
  cbn [run]. pose proof (fresh_step flow i w H) as H1.
  destruct (step flow i w) as [w1 effs1]. specialize (IH w1 H1).
  by destruct (run flow rest w1) as [w2 effs2].
Qed.

Lemma find_newest tid ts new :
  (∀ t, t ∈ ts → (t_id t < tid)%nat) → t_id new = tid →
  find (λ t, Nat.eqb (t_id t) tid) (ts ++ [new]) = Some new.
Proof.
  intros Hold Hid. induction ts as [|t ts IH]; cbn.
  - by rewrite Hid, Nat.eqb_refl.
  - assert (Hne : Nat.eqb (t_id t) tid = false).
    { apply Nat.eqb_neq. specialize (Hold t (list_elem_of_here _ _)). lia. }
    rewrite Hne. apply IH. intros t' Ht'. apply Hold. by right.
Qed.

Lemma sockets_clearTimer h w : sockets (clearTimer h w) = sockets w.
Proof. by destruct h. Qed.

Lemma fire_deadline flow tid due roomCode ref room question w :
  find (λ t, Nat.eqb (t_id t) tid) (timers w)
    = Some (mkTimer tid due (Deadline roomCode ref question)) →
  due ≤ clock w → heap w !! ref = Some room →
  fire flow tid w
  = (mkWorld (rooms w) (heap w) (sockets w)
       (timers (clearTimer (countdownInterval room)
                  (set_timers (filter (λ t, t_id t ≠ tid) (timers w)) w))
        ++ [mkTimer (nextTimer w) (clock w + 2500) (EndQuestion roomCode)])
       (S (nextTimer w)) (nextObj w) (clock w),
     match flow with
     | AutoAdvance => []
     | HostPaced => [RoomEmit roomCode Msg.question_locked]
     end ++ [RoomEmit roomCode
               (Msg.all_answered (Js.orElse (correct question) "N/A"))]).
Proof.
  intros Hfind Hdue Hheap. unfold fire. rewrite Hfind. cbn [t_due].
  rewrite (proj2 (Z.ltb_ge _ _) Hdue). unfold runTask. cbn [t_task t_id].
  unfold clearCountdownOf. cbn [heap set_timers]. rewrite Hheap.
  cbn [reveal setTimer].
  by rewrite rooms_clearTimer, heap_clearTimer, sockets_clearTimer,
             nextTimer_clearTimer, nextObj_clearTimer, clock_clearTimer.
Qed.

Lemma fire_end_question tid due roomCode ref room w :
  find (λ t, Nat.eqb (t_id t) tid) (timers w)
    = Some (mkTimer tid due (EndQuestion roomCode)) →
  due ≤ clock w → getRoom w roomCode = Some (ref, room) →
  fire AutoAdvance tid w
  = (mkWorld (rooms w)
       (<[ref := set_currentIndex (S (currentIndex room)) room]> (heap w))
       (sockets w)
       (filter (λ t, t_id t ≠ tid) (timers w)
        ++ [mkTimer (nextTimer w) (clock w + 5000) (NextQuestion roomCode)])
       (S (nextTimer w)) (nextObj w) (clock w),
     [RoomEmit roomCode Msg.question_ended;
      RoomEmit roomCode (Msg.leaderboard (sortByScore (players room)))]).
Proof.
  intros Hfind Hdue Hget. unfold fire. rewrite Hfind. cbn [t_due].
  rewrite (proj2 (Z.ltb_ge _ _) Hdue). unfold runTask. cbn [t_task t_id].
  unfold endCurrentQuestion. rewrite getRoom_set_timers, Hget. done.
Qed.

Lemma fire_next_question tid due roomCode ref room question w :
  find (λ t, Nat.eqb (t_id t) tid) (timers w)
    = Some (mkTimer tid due (NextQuestion roomCode)) →
  due ≤ clock w → getRoom w roomCode = Some (ref, room) →
  questions room !! currentIndex room = Some question →
  fire AutoAdvance tid w
  = beginQuestion roomCode ref room question
      (set_timers (filter (λ t, t_id t ≠ tid) (timers w)) w).
Proof.
  intros Hfind Hdue Hget Hq. unfold fire. rewrite Hfind. cbn [t_due].
  rewrite (proj2 (Z.ltb_ge _ _) Hdue). unfold runTask. cbn [t_task t_id].
  unfold startNextQuestion. rewrite getRoom_set_timers, Hget, Hq.
  assert (Hlen : (length (questions room) <=? currentIndex room)%nat = false).
  { apply Nat.leb_gt. by eapply lookup_lt_Some. }
  by rewrite Hlen.
Qed.

Lemma run_three_callbacks flow a b c x y w :
  run flow [Fire a; Elapse x; Fire b; Elapse y; Fire c] w
  = let r1 := fire flow a w in
    let r2 := fire flow b (set_clock (clock r1.1 + Z.of_N x) r1.1) in
    let r3 := fire flow c (set_clock (clock r2.1 + Z.of_N y) r2.1) in
    (r3.1, r1.2 ++ r2.2 ++ r3.2).
Proof.
  cbn [run step]. destruct (fire flow a w) as [w1 effs1]. cbn [fst snd].
  destruct (fire flow b _) as [w2 effs2]. cbn [fst snd].
  destruct (fire flow c _) as [w3 effs3]. cbn [fst snd app].
  by rewrite app_nil_r.
Qed.

(** X23: the cycle of a question in the auto-advance version.  In every
    state the server can reach, once the deadline of the running question
    is due and another question follows: the deadline announces
    [all-answered], 2.5 seconds later the question ends with
    [question-ended] and the leaderboard, and 5 seconds after that the next
    question is sent and the room is reset for it, its [currentIndex] one
    higher. *)
Theorem deadline_to_next_question inputs tid due roomCode ref room question next :
  let w := (run AutoAdvance inputs startup).1 in
  find (λ t, Nat.eqb (t_id t) tid) (timers w)
    = Some (mkTimer tid due (Deadline roomCode ref question)) →
  due ≤ clock w →
  getRoom w roomCode = Some (ref, room) →
  questions room !! S (currentIndex room) = Some next →
  let n := nextTimer w in
  let r := run AutoAdvance [Fire tid; Elapse 2500; Fire n; Elapse 5000; Fire (S n)] w in
  r.2 = [RoomEmit roomCode (Msg.all_answered (Js.orElse (correct question) "N/A"));
         RoomEmit roomCode Msg.question_ended;
         RoomEmit roomCode (Msg.leaderboard (sortByScore (players room)));
         RoomEmit roomCode (Msg.question next)]
  ∧ getRoom r.1 roomCode
    = Some (ref, questionReset (clock w + 7500) (S (S n)) (S (S (S n)))
                   (set_currentIndex (S (currentIndex room)) room)).
Proof.
  intros w Hfind Hdue Hget Hnext n r. subst r n.
  assert (Hfresh : timersFresh w).
  { apply fresh_run. intros t Ht. by apply elem_of_nil in Ht. }
  clearbody w.
  pose proof Hget as [Hreg Hheap]%getRoom_Some.
  rewrite run_three_callbacks. cbv zeta.
  rewrite (fire_deadline AutoAdvance tid due roomCode ref room question w
             Hfind Hdue Hheap).
  cbn [fst snd app].
  set (ts1 := timers (clearTimer _ _)).
  assert (Hts1 : ∀ t, t ∈ ts1 → (t_id t < nextTimer w)%nat).
  { intros t [Ht _]%elem_of_clearTimer. cbn in Ht.
    apply list_elem_of_filter in Ht as [_ Ht]. by apply Hfresh. }
  set (w1 := set_clock _ _).
  assert (E2 : fire AutoAdvance (nextTimer w) w1
               = (mkWorld (rooms w1)
                    (<[ref := set_currentIndex (S (currentIndex room)) room]> (heap w1))
                    (sockets w1)
                    (filter (λ t, t_id t ≠ nextTimer w) (timers w1)
                     ++ [mkTimer (nextTimer w1) (clock w1 + 5000)
                           (NextQuestion roomCode)])
                    (S (nextTimer w1)) (nextObj w1) (clock w1),
                  [RoomEmit roomCode Msg.question_ended;
                   RoomEmit roomCode (Msg.leaderboard (sortByScore (players room)))])).
  { apply (fire_end_question (nextTimer w) (clock w + 2500)).
    - subst w1. cbn [timers set_clock]. by apply find_newest.
    - subst w1. cbn. lia.
    - exact Hget. }
  rewrite E2. cbn [fst snd app].
  set (room1 := set_currentIndex (S (currentIndex room)) room).
  set (w2 := set_clock _ _).
  assert (Hget2 : getRoom w2 roomCode = Some (ref, room1)).
  { apply getRoom_Some. split; [exact Hreg|].
    subst w2 w1. cbn. apply list_lookup_insert_eq. by eapply lookup_lt_Some. }
  assert (E3 : fire AutoAdvance (S (nextTimer w)) w2
               = beginQuestion roomCode ref room1 next
                   (set_timers (filter (λ t, t_id t ≠ S (nextTimer w)) (timers w2)) w2)).
  { apply (fire_next_question (S (nextTimer w)) (clock w1 + 5000)).
    - subst w2. cbn [timers set_clock]. apply find_newest; [|done].
      intros t [_ Ht]%list_elem_of_filter. subst w1. cbn in Ht.
      apply elem_of_app in Ht as [Ht|Ht].
      + apply Hts1 in Ht. lia.
      + apply list_elem_of_singleton in Ht as ->. cbn. lia.
    - subst w2. cbn. lia.
    - exact Hget2.
    - exact Hnext. }
  rewrite E3. unfold beginQuestion. cbn [setTimer fst snd]. split; [done|].
  apply getRoom_Some. split; [exact Hreg|].
  subst w2 w1. cbn.
  rewrite list_lookup_insert_eq
    by (rewrite length_insert; by eapply lookup_lt_Some).
  unfold questionReset. do 2 f_equal.
  by replace (clock w + 2500 + 5000) with (clock w + 7500) by lia.
Qed.

Lemma deadline_to_next_question_witness :
  (run AutoAdvance [Fire 1; Elapse 2500; Fire 2; Elapse 5000; Fire 3]
       first_deadline_due).2
  = [RoomEmit "ABCD" (Msg.all_answered "a");
     RoomEmit "ABCD" Msg.question_ended;
     RoomEmit "ABCD" (Msg.leaderboard
                        [mkPlayer 0 "p1" "Ann" 0; mkPlayer 1 "p2" "Bo" 0]);
     RoomEmit "ABCD" (Msg.question (mkQuestion "Q2" ["a"; "b"] "b" 10))].
Proof.
  destruct (deadline_to_next_question
              (lobby [question_a 3; question_b 10] ++ [Elapse 3000])
              1 3000 "ABCD" 0
              (default (newRoom "" None) (heap first_deadline_due !! 0%nat))
              (mkQuestion "Q1" ["a"; "b"] "a" 3)
              (mkQuestion "Q2" ["a"; "b"] "b" 10)) as [Heffs _].
  - evaluated.
  - evaluated.
  - evaluated.
  - evaluated.
  - exact Heffs.
Defined.

Lemma fire_end_question_paced tid due roomCode ref room w :
  find (λ t, Nat.eqb (t_id t) tid) (timers w)
    = Some (mkTimer tid due (EndQuestion roomCode)) →
  due ≤ clock w → getRoom w roomCode = Some (ref, room) →
  (S (currentIndex room) < length (questions room))%nat →
  fire HostPaced tid w
  = (mkWorld (rooms w)
       (<[ref := set_currentIndex (S (currentIndex room)) room]> (heap w))
       (sockets w) (filter (λ t, t_id t ≠ tid) (timers w))
       (nextTimer w) (nextObj w) (clock w),
     [RoomEmit roomCode Msg.question_ended;
      RoomEmit roomCode (Msg.leaderboard (sortByScore (players room)))]).
Proof.
  intros Hfind Hdue Hget Hmore. unfold fire. rewrite Hfind. cbn [t_due].
  rewrite (proj2 (Z.ltb_ge _ _) Hdue). unfold runTask. cbn [t_task t_id].
  unfold endCurrentQuestion. rewrite getRoom_set_timers, Hget.
  assert (Hlast : (length (questions room) <=? currentIndex room + 1)%nat = false)
    by (apply Nat.leb_gt; lia).
  by rewrite Hlast.
Qed.

Lemma run_two_callbacks flow a b x w :
  run flow [Fire a; Elapse x; Fire b] w
  = let r1 := fire flow a w in
    let r2 := fire flow b (set_clock (clock r1.1 + Z.of_N x) r1.1) in
    (r2.1, r1.2 ++ r2.2).
Proof.
  cbn [run step]. destruct (fire flow a w) as [w1 effs1]. cbn [fst snd].
  destruct (fire flow b _) as [w2 effs2]. cbn [fst snd app].
  by rewrite app_nil_r.
Qed.

(** X24: the host-paced version waits for the host.  In every state the
    server can reach, once the deadline of the running question is due and
    another question follows: the deadline announces [question-locked] and
    [all-answered], 2.5 seconds later the question ends with
    [question-ended] and the leaderboard and [currentIndex] goes up by one,
    and then no timer is pending that was not pending before: nothing
    happens until a [next-question] arrives, which sends the next
    question. *)
Theorem host_paced_waits_for_the_host
    inputs tid due roomCode ref room question next sender :
  let w := (run HostPaced inputs startup).1 in
  find (λ t, Nat.eqb (t_id t) tid) (timers w)
    = Some (mkTimer tid due (Deadline roomCode ref question)) →
  due ≤ clock w →
  getRoom w roomCode = Some (ref, room) →
  quizStarted room = true →
  questions room !! S (currentIndex room) = Some next →
  let r := run HostPaced [Fire tid; Elapse 2500; Fire (nextTimer w)] w in
  r.2 = [RoomEmit roomCode Msg.question_locked;
         RoomEmit roomCode (Msg.all_answered (Js.orElse (correct question) "N/A"));
         RoomEmit roomCode Msg.question_ended;
         RoomEmit roomCode (Msg.leaderboard (sortByScore (players room)))]
  ∧ getRoom r.1 roomCode
    = Some (ref, set_currentIndex (S (currentIndex room)) room)
  ∧ (∀ t, t ∈ timers r.1 → t ∈ timers w)
  ∧ (handle HostPaced sender (Ev.next_question roomCode) r.1).2
    = [RoomEmit roomCode (Msg.question next)].
Proof.
  intros w Hfind Hdue Hget Hstarted Hnext r. subst r.
  assert (Hfresh : timersFresh w).
  { apply fresh_run. intros t Ht. by apply elem_of_nil in Ht. }
  clearbody w.
  pose proof Hget as [Hreg Hheap]%getRoom_Some.
  assert (Hmore : (S (currentIndex room) < length (questions room))%nat)
    by by eapply lookup_lt_Some.
  rewrite run_two_callbacks. cbv zeta.
  rewrite (fire_deadline HostPaced tid due roomCode ref room question w
             Hfind Hdue Hheap).
  cbn [fst snd app].
  set (ts1 := timers (clearTimer _ _)).
  assert (Hts1 : ∀ t, t ∈ ts1 → t ∈ timers w ∧ (t_id t < nextTimer w)%nat).
  { intros t [Ht _]%elem_of_clearTimer. cbn in Ht.
    apply list_elem_of_filter in Ht as [_ Ht]. split; [done|by apply Hfresh]. }
  set (w1 := set_clock _ _).
  rewrite (fire_end_question_paced (nextTimer w) (clock w + 2500) roomCode ref room w1).
  - cbn [fst snd]. set (room1 := set_currentIndex (S (currentIndex room)) room).
    set (w2 := mkWorld _ _ _ _ _ _ _).
    assert (Hget2 : getRoom w2 roomCode = Some (ref, room1)).
    { apply getRoom_Some. split; [exact Hreg|].
      subst w2 w1. cbn. apply list_lookup_insert_eq. by eapply lookup_lt_Some. }
    split; [done|]. split; [exact Hget2|]. split.
    + intros t. subst w2 w1. cbn. intros [Hne Ht]%list_elem_of_filter.
      apply elem_of_app in Ht as [Ht|Ht]; [by apply Hts1|].
      apply list_elem_of_singleton in Ht as ->. by cbn in Hne.
    + cbn [handle]. unfold next_question. rewrite Hget2.
      cbn [quizStarted questions currentIndex set_currentIndex room1].
      subst room1. cbn [quizStarted questions currentIndex set_currentIndex].
      rewrite Hstarted, Hnext. cbn [negb].
      assert (Hlen : (length (questions room) <=? S (currentIndex room))%nat = false)
        by (apply Nat.leb_gt; lia).
      by rewrite Hlen.
  - subst w1. cbn [timers set_clock]. apply find_newest; [|done].
    intros t Ht. by apply Hts1.
  - subst w1. cbn. lia.
  - exact Hget.
  - exact Hmore.
Qed.

Lemma host_paced_waits_for_the_host_witness :
  let r := run HostPaced [Fire 1; Elapse 2500; Fire 2] paced_first_deadline_due in
  r.2 = [RoomEmit "ABCD" Msg.question_locked;
         RoomEmit "ABCD" (Msg.all_answered "a");
         RoomEmit "ABCD" Msg.question_ended;
         RoomEmit "ABCD" (Msg.leaderboard
                            [mkPlayer 0 "p1" "Ann" 0; mkPlayer 1 "p2" "Bo" 0])]
  ∧ (∀ t, t ∈ timers r.1 → t ∈ timers paced_first_deadline_due)
  ∧ (handle HostPaced "h" (Ev.next_question "ABCD") r.1).2
    = [RoomEmit "ABCD" (Msg.question (mkQuestion "Q2" ["a"; "b"] "b" 10))].
Proof.
  destruct (host_paced_waits_for_the_host
              (lobby [question_a 3; question_b 10]
               ++ [Receive "h" (Ev.next_question "ABCD"); Elapse 3000])
              1 3000 "ABCD" 0
              (default (newRoom "" None) (heap paced_first_deadline_due !! 0%nat))
              (mkQuestion "Q1" ["a"; "b"] "a" 3)
              (mkQuestion "Q2" ["a"; "b"] "b" 10) "h")
    as (Heffs & _ & Htimers & Hnext).
  - evaluated.
  - evaluated.
  - evaluated.
  - evaluated.
  - evaluated.
  - split; [exact Heffs|]. split; [exact Htimers|exact Hnext].
Defined.
